(** * bibi-share: the inference request layer of the two model services

    A shallow embedding of
      - [flux__1-dev部署/main.py]          (text-to-image service), and
      - [qwen-image-edit-2509部署/main.py] (image-editing service),
    each of which serves one loaded pipeline through a FastAPI endpoint and a
    Gradio callback.

    Python values are modelled as follows.
      - [str] is a list of Unicode code points, [bytes] a list of bytes;
      - [int] is [Z], a finite [float] is the rational it denotes, in [Q],
        and arithmetic on [float]s rounds to the nearest binary64 number;
      - a raised exception is the left summand of [exn + A];
      - the process state a handler can observe or change (the default
        torch generator, the wall clock, the calls made to the pipeline) is
        threaded explicitly through [World];
      - PIL, torch and the loaded pipeline are collaborators outside the
        repository: they are fields of the records [PIL] and [Torch] and
        section variables of each service. *)

From Stdlib Require Import List String Ascii NArith ZArith QArith Qround Qabs Qpower Lia Lqa Bool DecimalString.
From Stdlib.Strings Require Import Byte.
Import ListNotations.

(** ** Python values and the standard-library functions the services call *)

Module Py.

Local Open Scope list_scope.
Local Open Scope N_scope.

Definition codepoint := N.
Definition str := list codepoint.
Definition bytes := list byte.

(** A string literal of the source, as code points (ASCII literals only). *)
Definition lit (s : string) : str := map N_of_ascii (list_ascii_of_string s).

(** An exception raised by a library: its class and [str(e)]. *)
Inductive error : Type :=
| Exception (cls : string) (message : string).
Arguments Exception cls%_string message%_string.

(** The outcome of a library call: the exception raised, or the value. *)
Definition res (A : Type) := (error + A)%type.

(** What may leave a handler: FastAPI's [HTTPException], raised by the
    handlers themselves, or an exception of a library. *)
Inductive exn : Type :=
| HTTPException (status_code : Z) (detail : string)
| Raised (e : error).

(** [f"{n}"] for a non-negative integer. *)
Definition show_N (n : N) : string := NilZero.string_of_uint (N.to_uint n).
Definition show_nat (n : nat) : string := show_N (N.of_nat n).

Definition show_Z (z : Z) : string :=
  match z with
  | Z.neg p => ("-" ++ show_N (N.pos p))%string
  | _ => show_N (Z.to_N z)
  end.

(** [str(e)], as the handlers interpolate it into their messages. *)
Definition str_of_exn (e : exn) : string :=
  match e with
  | HTTPException status_code detail => (show_Z status_code ++ ": " ++ detail)%string
  | Raised (Exception _ message) => message
  end.

(** *** [str.strip] and the emptiness test on prompts *)

(** [str.isspace] on one code point: the characters of Unicode category
    Zs and of bidirectional class WS, B or S. *)
Definition isspace (c : codepoint) : bool :=
  ((9 <=? c) && (c <=? 13)) || ((28 <=? c) && (c <=? 32))
  || (c =? 133) || (c =? 160) || (c =? 5760)
  || ((8192 <=? c) && (c <=? 8202)) || (c =? 8232) || (c =? 8233)
  || (c =? 8239) || (c =? 8287) || (c =? 12288).

Fixpoint lstrip (s : str) : str :=
  match s with
  | [] => []
  | c :: rest => if isspace c then lstrip rest else s
  end.

Definition rstrip (s : str) : str := rev (lstrip (rev s)).

Definition strip (s : str) : str := rstrip (lstrip s).

Definition str_is_empty (s : str) : bool :=
  match s with [] => true | _ :: _ => false end.

(** The guard of every handler: [not prompt], or [prompt.strip()] is the
    empty string. *)
Definition prompt_is_blank (prompt : str) : bool :=
  str_is_empty prompt || str_is_empty (strip prompt).

(** *** The membership test and [str.split] on the comma *)

Definition COMMA : codepoint := 44.

Definition contains (sep : codepoint) (s : str) : bool := existsb (N.eqb sep) s.

(** [s.split(sep)] for a one-character separator: every occurrence
    separates two fields, so the result has one more field than there are
    separators. *)
Fixpoint split (sep : codepoint) (s : str) : list str :=
  match s with
  | [] => [[]]
  | c :: rest =>
      if c =? sep then [] :: split sep rest
      else match split sep rest with
           | [] => [[c]]
           | f :: fs => (c :: f) :: fs
           end
  end.

(** [l[i]], raising [IndexError] out of range. *)
Definition index {A : Type} (l : list A) (i : nat) : res A :=
  match nth_error l i with
  | Some x => inr x
  | None => inl (Exception "IndexError" "list index out of range"%string)
  end.

(** *** [base64.b64encode] and [base64.b64decode] *)

Definition BASE64_PAD : codepoint := 61.

(** [table_b2a_base64]: the character of a sextet. *)
Definition table_b2a_base64 (v : N) : codepoint :=
  if v <? 26 then v + 65            (* A-Z *)
  else if v <? 52 then v + 71       (* a-z *)
  else if v <? 62 then v - 4        (* 0-9 *)
  else if v =? 62 then 43           (* + *)
  else 47.                          (* / *)

(** [table_a2b_base64]: the sextet of a character, [None] for a character
    outside the alphabet. *)
Definition table_a2b_base64 (c : codepoint) : option N :=
  if (65 <=? c) && (c <=? 90) then Some (c - 65)
  else if (97 <=? c) && (c <=? 122) then Some (c - 71)
  else if (48 <=? c) && (c <=? 57) then Some (c + 4)
  else if c =? 43 then Some 62
  else if c =? 47 then Some 63
  else None.

(** Storing an [int] into an [unsigned char]. *)
Definition byte_of_N (n : N) : byte :=
  match Byte.of_N (n mod 256) with
  | Some b => b
  | None => x00
  end.

(** [base64.b64encode(data).decode()]: three bytes give four characters;
    a last group of one or two bytes is padded with [=]. *)
Fixpoint b64encode (data : bytes) : str :=
  match data with
  | [] => []
  | [b1] =>
      let a := Byte.to_N b1 in
      [ table_b2a_base64 (N.shiftr a 2);
        table_b2a_base64 (N.shiftl (N.land a 3) 4);
        BASE64_PAD; BASE64_PAD ]
  | [b1; b2] =>
      let a := Byte.to_N b1 in
      let b := Byte.to_N b2 in
      [ table_b2a_base64 (N.shiftr a 2);
        table_b2a_base64 (N.lor (N.shiftl (N.land a 3) 4) (N.shiftr b 4));
        table_b2a_base64 (N.shiftl (N.land b 15) 2);
        BASE64_PAD ]
  | b1 :: b2 :: b3 :: rest =>
      let a := Byte.to_N b1 in
      let b := Byte.to_N b2 in
      let c := Byte.to_N b3 in
      table_b2a_base64 (N.shiftr a 2)
      :: table_b2a_base64 (N.lor (N.shiftl (N.land a 3) 4) (N.shiftr b 4))
      :: table_b2a_base64 (N.lor (N.shiftl (N.land b 15) 2) (N.shiftr c 6))
      :: table_b2a_base64 (N.land c 63)
      :: b64encode rest
  end.

(** The loop of [binascii.a2b_base64] in its default, non-strict mode:
    characters outside the alphabet are skipped, a pad that completes a
    quad ends the input, and [pads] counts the pads seen since the last
    data character of a quad that has at least two. *)
Fixpoint a2b_loop (ascii_data : str) (quad_pos : nat) (leftchar : N)
                  (pads : nat) (bin_data : bytes) : res bytes :=
  match ascii_data with
  | [] =>
      match quad_pos with
      | O => inr bin_data
      | S O =>
          inl (Exception "binascii.Error"
                 ("Invalid base64-encoded string: number of data characters ("
                  ++ show_nat (List.length bin_data / 3 * 4 + 1)%nat
                  ++ ") cannot be 1 more than a multiple of 4")%string)
      | _ => inl (Exception "binascii.Error" "Incorrect padding"%string)
      end
  | this_ch :: rest =>
      if this_ch =? BASE64_PAD then
        if (2 <=? quad_pos)%nat then
          if (4 <=? quad_pos + S pads)%nat then inr bin_data
          else a2b_loop rest quad_pos leftchar (S pads) bin_data
        else a2b_loop rest quad_pos leftchar pads bin_data
      else
        match table_a2b_base64 this_ch with
        | None => a2b_loop rest quad_pos leftchar pads bin_data
        | Some v =>
            match quad_pos with
            | 0%nat => a2b_loop rest 1 v 0 bin_data
            | 1%nat =>
                a2b_loop rest 2 (N.land v 15) 0
                  (bin_data ++ [byte_of_N (N.lor (N.shiftl leftchar 2) (N.shiftr v 4))])
            | 2%nat =>
                a2b_loop rest 3 (N.land v 3) 0
                  (bin_data ++ [byte_of_N (N.lor (N.shiftl leftchar 4) (N.shiftr v 2))])
            | _ =>
                a2b_loop rest 0 0 0
                  (bin_data ++ [byte_of_N (N.lor (N.shiftl leftchar 6) v)])
            end
        end
  end.

Definition is_ascii (s : str) : bool := forallb (fun c => c <? 128) s.

(** [base64.b64decode(s)] on a [str]: the text must be ASCII, then it goes
    through [binascii.a2b_base64]. *)
Definition b64decode (s : str) : res bytes :=
  if is_ascii s then a2b_loop s 0 0 0 []
  else inl (Exception "ValueError"
              "string argument should contain only ASCII characters"%string).

(** *** Numbers *)

Local Open Scope Z_scope.

(** [int(x)] on a finite float: truncation towards zero. *)
Definition int_of_float (x : Q) : Z := Z.quot (Qnum x) (Z.pos (Qden x)).

(** The integer nearest to [x], a tie going to the even neighbour. *)
Definition round_half_even (x : Q) : Z :=
  let f := Qfloor x in
  match Qcompare (x - inject_Z f) (1 # 2) with
  | Lt => f
  | Gt => f + 1
  | Eq => if Z.even f then f else f + 1
  end.

(** [round(x, 2)]: the nearest multiple of one hundredth. *)
Definition round2 (x : Q) : Q := round_half_even (x * 100) # 100.

(** *** Arithmetic on [float]

    A finite [float] is the rational it denotes. *)

(** The exponent of the leading bit of a positive rational: the [l] with
    [2 ^ l <= x < 2 ^ (l + 1)]. *)
Definition ilog2 (x : Q) : Z :=
  let l := Z.log2 (Qnum x) - Z.log2 (Z.pos (Qden x)) in
  if Qle_bool (2 ^ l) x then l else l - 1.

(** The IEEE 754 binary64 number nearest to a rational, a tie going to the
    even significand: with [e] the exponent of the last place of a 53-bit
    significand (never below -1074, where the subnormal numbers lie), [x]
    is rounded to a multiple of [2 ^ e].  Overflow is not modelled. *)
Definition round_to_double (x : Q) : Q :=
  match Qnum x with
  | 0 => 0
  | _ =>
      let e := Z.max (ilog2 (Qabs x) - 52) (-1074) in
      (inject_Z (round_half_even (x / 2 ^ e)) * 2 ^ e)%Q
  end.

(** [a - b] and [a + b] on two [float]s. *)
Definition float_sub (a b : Q) : Q := round_to_double (a - b).
Definition float_add (a b : Q) : Q := round_to_double (a + b).

(** [f"{x:.2f}"]. *)
Definition format_2f (x : Q) : string :=
  let k := Z.abs (round_half_even (x * 100)) in
  let cents := k mod 100 in
  let sign := if Qlt_le_dec x 0 then "-"%string else EmptyString in
  let pad := if cents <? 10 then "0"%string else EmptyString in
  (sign ++ show_Z (k / 100) ++ "." ++ pad ++ show_Z cents)%string.

End Py.

Import Py.

(** ** The process state and the handlers' effects *)

(** What a handler can observe or change while it runs: the state of torch's
    default generator, the wall clock (its [n]-th reading is [clock n]) and
    the record of the calls made to the loaded pipeline. *)
Record World (G C : Type) : Type := mkWorld {
  default_generator : G;
  clock : nat -> Q;
  clock_reads : nat;
  pipeline_calls : list C
}.

Arguments mkWorld {G C} _ _ _ _.
Arguments default_generator {G C} _.
Arguments clock {G C} _ _.
Arguments clock_reads {G C} _.
Arguments pipeline_calls {G C} _.

Section Effects.

Variables G C : Type.

(** A computation may raise and may change the world; the changes made
    before an exception is raised stay. *)
Definition M (A : Type) : Type := World G C -> (exn + A) * World G C.

Definition ret {A : Type} (a : A) : M A := fun w => (inr a, w).

Definition raise {A : Type} (e : exn) : M A := fun w => (inl e, w).

Definition bind {A B : Type} (m : M A) (k : A -> M B) : M B :=
  fun w =>
    match m w with
    | (inr a, w') => k a w'
    | (inl e, w') => (inl e, w')
    end.

(** A library call that touches no state. *)
Definition lift {A : Type} (r : res A) : M A :=
  fun w =>
    match r with
    | inl e => (inl (Raised e), w)
    | inr a => (inr a, w)
    end.

(** [try: body  except Exception as e: handler(e)]. *)
Definition try_except {A : Type} (body : M A) (handler : exn -> M A) : M A :=
  fun w =>
    match body w with
    | (inr a, w') => (inr a, w')
    | (inl e, w') => handler e w'
    end.

(** [time.time()]. *)
Definition time_time : M Q :=
  fun w =>
    (inr (clock w (clock_reads w)),
     mkWorld (default_generator w) (clock w) (S (clock_reads w)) (pipeline_calls w)).

End Effects.

Arguments ret {G C A} a.
Arguments raise {G C A} e.
Arguments bind {G C A B} m k.
Arguments lift {G C A} r.
Arguments try_except {G C A} body handler.
Arguments time_time {G C}.

Declare Scope py_scope.
Delimit Scope py_scope with py.
Notation "x <- m ;; k" := (bind m (fun x => k))
  (at level 61, m at next level, right associativity) : py_scope.

(** Sequencing of library calls that only raise. *)
Definition and_then {A B : Type} (r : res A) (k : A -> res B) : res B :=
  match r with
  | inl e => inl e
  | inr a => k a
  end.

(** ** The collaborators outside the repository *)

(** PIL.  [Raster] is what two images must share to be pixel-identical
    (size, mode and pixel data); [Array] stands for the objects handed to
    [Image.fromarray]. *)
Record PIL : Type := {
  Image : Type;
  Raster : Type;
  Array : Type;
  raster : Image -> Raster;
  (* Image.open(io.BytesIO(data)) *)
  Image_open : bytes -> res Image;
  (* Image.open(path), on the file system of the process *)
  Image_open_path : str -> res Image;
  (* Image.fromarray(obj) *)
  Image_fromarray : Array -> res Image;
  (* image.save(buffered, format="PNG"); buffered.getvalue() *)
  Image_save_png : Image -> res bytes;
  (* image.mode == "RGB" *)
  mode_is_RGB : Image -> bool;
  (* image.convert("RGB") *)
  Image_convert_RGB : Image -> res Image
}.

(** torch: [seeded seed] is the state a generator is in after
    [manual_seed(seed)], or the error torch raises for that seed. *)
Record Torch : Type := {
  GeneratorState : Type;
  seeded : Z -> res GeneratorState
}.

(** [torch.manual_seed(seed)]: seeds the default generator of the process. *)
Definition torch_manual_seed {C : Type} (torch : Torch) (seed : Z)
  : M (GeneratorState torch) C unit :=
  fun w =>
    match seeded torch seed with
    | inl e => (inl (Raised e), w)
    | inr g => (inr tt, mkWorld g (clock w) (clock_reads w) (pipeline_calls w))
    end.

(** ** FastAPI and pydantic, as far as the two services use them *)

Module FastAPI.

Local Open Scope Z_scope.

(** The kinds of error pydantic reports for the declared constraints. *)
Inductive error_type : Type :=
| missing
| string_too_short
| too_short
| greater_than_equal
| less_than_equal.

Record ErrorDetails : Type := { loc : string; type : error_type }.

(** A pydantic [ValidationError]: one entry per violated constraint. *)
Definition ValidationError := list ErrorDetails.

(** [Field(default, ge=lo, le=hi)] on an [int]; an absent field takes the
    default, which is not validated. *)
Definition Field_int (name : string) (default lo hi : Z) (given : option Z)
  : ValidationError * Z :=
  match given with
  | None => ([], default)
  | Some v =>
      if v <? lo then ([ {| loc := name; type := greater_than_equal |} ], v)
      else if hi <? v then ([ {| loc := name; type := less_than_equal |} ], v)
      else ([], v)
  end.

(** [Field(default, ge=lo, le=hi)] on a [float]. *)
Definition Field_float (name : string) (default lo hi : Q) (given : option Q)
  : ValidationError * Q :=
  match given with
  | None => ([], default)
  | Some v =>
      if Qlt_le_dec v lo then ([ {| loc := name; type := greater_than_equal |} ], v)
      else if Qlt_le_dec hi v then ([ {| loc := name; type := less_than_equal |} ], v)
      else ([], v)
  end.

(** [Field(..., min_length=1)] on a [str]: the field is required. *)
Definition Field_required_str (name : string) (given : option str)
  : ValidationError * str :=
  match given with
  | None => ([ {| loc := name; type := missing |} ], [])
  | Some v =>
      if (List.length v <? 1)%nat
      then ([ {| loc := name; type := string_too_short |} ], v)
      else ([], v)
  end.

(** [Field(..., min_items=1)] on a list: the field is required. *)
Definition Field_required_list {A : Type} (name : string) (given : option (list A))
  : ValidationError * list A :=
  match given with
  | None => ([ {| loc := name; type := missing |} ], [])
  | Some v =>
      if (List.length v <? 1)%nat
      then ([ {| loc := name; type := too_short |} ], v)
      else ([], v)
  end.

(** [Field(default)] without constraints. *)
Definition Field_default {A : Type} (default : A) (given : option A) : A :=
  match given with
  | None => default
  | Some v => v
  end.

(** The body of an error response. *)
Inductive Detail : Type :=
| detail_message (msg : string)
| detail_errors (errors : ValidationError).

(** What the client receives: the [JSONResponse] a handler returns (status
    200), or an error response [{detail}] with its status code. *)
Inductive Response (J : Type) : Type :=
| JSONResponse (content : J)
| ErrorResponse (status_code : Z) (detail : Detail).

Arguments JSONResponse {J} content.
Arguments ErrorResponse {J} status_code detail.

Definition status_code_of {J : Type} (r : Response J) : Z :=
  match r with
  | JSONResponse _ => 200
  | ErrorResponse sc _ => sc
  end.

(** A [POST] route whose handler takes a pydantic model: the body is
    validated first, and a body that violates a declared constraint is
    answered with 422 without the handler being called; a raised
    [HTTPException] becomes the response with its status code and detail;
    any other exception leaving the handler is a 500. *)
Definition post {G C Body Request J : Type}
    (validate : Body -> ValidationError + Request)
    (handler : Request -> M G C J) (body : Body)
  : World G C -> Response J * World G C :=
  fun w =>
    match validate body with
    | inl errors => (ErrorResponse 422 (detail_errors errors), w)
    | inr request =>
        match handler request w with
        | (inr content, w') => (JSONResponse content, w')
        | (inl (HTTPException sc d), w') => (ErrorResponse sc (detail_message d), w')
        | (inl (Raised _), w') =>
            (ErrorResponse 500 (detail_message "Internal Server Error"), w')
        end
    end.

End FastAPI.

(** ** flux__1-dev部署/main.py *)

Module Flux.

Import FastAPI.
Local Open Scope string_scope.
Local Open Scope list_scope.
Local Open Scope Z_scope.

(** [class ImageGenerationRequest(BaseModel)]. *)
Record ImageGenerationRequest : Type := {
  prompt : str;
  height : Z;
  width : Z;
  guidance_scale : Q;
  num_inference_steps : Z;
  max_sequence_length : Z;
  seed : Z
}.

(** The JSON body of a request: every field may be absent. *)
Record Body : Type := {
  body_prompt : option str;
  body_height : option Z;
  body_width : option Z;
  body_guidance_scale : option Q;
  body_num_inference_steps : option Z;
  body_max_sequence_length : option Z;
  body_seed : option Z
}.

(** Construction of the model from the body, with the constraints of the
    [Field] declarations. *)
Definition validate (b : Body) : ValidationError + ImageGenerationRequest :=
  let '(e1, p) := Field_required_str "prompt" (body_prompt b) in
  let '(e2, h) := Field_int "height" 1024 256 2048 (body_height b) in
  let '(e3, w) := Field_int "width" 1024 256 2048 (body_width b) in
  let '(e4, g) := Field_float "guidance_scale" (35 # 10) 0 20 (body_guidance_scale b) in
  let '(e5, n) := Field_int "num_inference_steps" 50 10 100 (body_num_inference_steps b) in
  let '(e6, m) := Field_int "max_sequence_length" 512 128 1024 (body_max_sequence_length b) in
  let s := Field_default 0 (body_seed b) in
  match e1 ++ e2 ++ e3 ++ e4 ++ e5 ++ e6 with
  | [] => inr {| prompt := p; height := h; width := w; guidance_scale := g;
                 num_inference_steps := n; max_sequence_length := m; seed := s |}
  | errors => inl errors
  end.

Section Service.

Variable torch : Torch.
Variable pil : PIL.

(** The arguments of one call of the pipeline; [generator] is the state
    of the generator object handed over. *)
Record PipelineArgs : Type := {
  arg_prompt : str;
  arg_height : Z;
  arg_width : Z;
  arg_guidance_scale : Q;
  arg_num_inference_steps : Z;
  arg_max_sequence_length : Z;
  arg_generator : GeneratorState torch
}.

(** The loaded [FluxPipeline]: [output.images], or the exception raised. *)
Variable pipeline : PipelineArgs -> res (list (Image pil)).

Definition Eff : Type -> Type := M (GeneratorState torch) PipelineArgs.

(** A call of [pipeline(...)], recorded in the world. *)
Definition call_pipeline (args : PipelineArgs) : Eff (list (Image pil)) :=
  fun w =>
    lift (pipeline args)
         (mkWorld (default_generator w) (clock w) (clock_reads w)
                  (pipeline_calls w ++ [args])).

(** [image_to_base64(image)]. *)
Definition image_to_base64 (image : Image pil) : res str :=
  and_then (Image_save_png pil image) (fun buffered =>
  let img_str := b64encode buffered in
  inr (lit "data:image/png;base64," ++ img_str)).

Record GenerationResult : Type := {
  image : str;
  inference_time_seconds : Q;
  encoding_time_seconds : Q;
  total_time_seconds : Q
}.

Record GenerationContent : Type := {
  status : string;
  message : string;
  result : GenerationResult
}.

(** [async def image_generation(request)], the handler of
    [POST /v1/images/generations]. *)
Definition image_generation (request : ImageGenerationRequest)
  : Eff GenerationContent :=
  try_except
    (if prompt_is_blank (prompt request)
     then raise (HTTPException 400 "请输入提示词")
     else
       (generator <- lift (seeded torch (seed request)) ;;
        inference_start_time <- time_time ;;
        images <- call_pipeline
                    {| arg_prompt := prompt request;
                       arg_height := height request;
                       arg_width := width request;
                       arg_guidance_scale := guidance_scale request;
                       arg_num_inference_steps := num_inference_steps request;
                       arg_max_sequence_length := max_sequence_length request;
                       arg_generator := generator |} ;;
        output_image <- lift (index images 0) ;;
        inference_end_time <- time_time ;;
        let inference_duration := float_sub inference_end_time inference_start_time in
        base64_start_time <- time_time ;;
        output_base64 <- lift (image_to_base64 output_image) ;;
        base64_end_time <- time_time ;;
        let base64_duration := float_sub base64_end_time base64_start_time in
        ret {| status := "success";
               message := "推理完成！";
               result :=
                 {| image := output_base64;
                    inference_time_seconds := round2 inference_duration;
                    encoding_time_seconds := round2 base64_duration;
                    total_time_seconds :=
                      round2 (float_add inference_duration base64_duration) |} |})%py)
    (fun e =>
       match e with
       | HTTPException _ _ => raise e
       | Raised _ =>
           raise (HTTPException 500 ("推理出错: " ++ str_of_exn e))
       end).

(** The route [POST /v1/images/generations]. *)
Definition post_generations (b : Body)
  : World (GeneratorState torch) PipelineArgs -> Response GenerationContent * World (GeneratorState torch) PipelineArgs :=
  post validate image_generation b.

(** [def inference(prompt, height, ..., seed)], the Gradio callback. *)
Definition inference (prompt : option str) (height width : Z) (guidance_scale : Q)
    (num_inference_steps : Q) (max_sequence_length : Z) (seed : Z)
  : Eff (option (Image pil) * string) :=
  match prompt with
  | None => ret (None, "请输入提示词")
  | Some prompt =>
    if prompt_is_blank prompt then ret (None, "请输入提示词")
    else
      try_except
        (generator <- lift (seeded torch seed) ;;
         inference_start_time <- time_time ;;
         images <- call_pipeline
                     {| arg_prompt := prompt;
                        arg_height := height;
                        arg_width := width;
                        arg_guidance_scale := guidance_scale;
                        arg_num_inference_steps := int_of_float num_inference_steps;
                        arg_max_sequence_length := max_sequence_length;
                        arg_generator := generator |} ;;
         output_image <- lift (index images 0) ;;
         inference_end_time <- time_time ;;
         let inference_duration := float_sub inference_end_time inference_start_time in
         ret (Some output_image,
              ("推理完成！实际耗时: " ++ format_2f inference_duration ++ "秒")%string))%py
        (fun e => ret (None, ("推理出错: " ++ str_of_exn e)%string))
  end.

End Service.

End Flux.

(** ** qwen-image-edit-2509部署/main.py *)

Module QwenEdit.

Import FastAPI.
Local Open Scope string_scope.
Local Open Scope list_scope.
Local Open Scope Z_scope.

(** [class ImageEditRequest(BaseModel)]. *)
Record ImageEditRequest : Type := {
  images : list str;
  prompt : str;
  negative_prompt : option str;
  num_inference_steps : Z;
  guidance_scale : Q;
  true_cfg_scale : Q;
  seed : Z
}.

(** The JSON body of a request: every field may be absent, and
    [negative_prompt] may be given as [null]. *)
Record Body : Type := {
  body_images : option (list str);
  body_prompt : option str;
  body_negative_prompt : option (option str);
  body_num_inference_steps : option Z;
  body_guidance_scale : option Q;
  body_true_cfg_scale : option Q;
  body_seed : option Z
}.

Definition validate (b : Body) : ValidationError + ImageEditRequest :=
  let '(e1, i) := Field_required_list "images" (body_images b) in
  let '(e2, p) := Field_required_str "prompt" (body_prompt b) in
  let np := Field_default (Some (lit " ")) (body_negative_prompt b) in
  let '(e3, n) := Field_int "num_inference_steps" 40 10 100 (body_num_inference_steps b) in
  let '(e4, g) := Field_float "guidance_scale" 1 0 10 (body_guidance_scale b) in
  let '(e5, t) := Field_float "true_cfg_scale" 4 0 10 (body_true_cfg_scale b) in
  let s := Field_default 0 (body_seed b) in
  match e1 ++ e2 ++ e3 ++ e4 ++ e5 with
  | [] => inr {| images := i; prompt := p; negative_prompt := np;
                 num_inference_steps := n; guidance_scale := g;
                 true_cfg_scale := t; seed := s |}
  | errors => inl errors
  end.

Section Service.

Variable torch : Torch.
Variable pil : PIL.

(** The [inputs] dictionary of one call.  Its ["generator"] entry is the
    object [torch.manual_seed] returns, the default generator of the
    process, so the call draws from (and advances) the state held in
    the world. *)
Record EditInputs : Type := {
  in_image : list (Image pil);
  in_prompt : str;
  in_true_cfg_scale : Q;
  in_negative_prompt : str;
  in_num_inference_steps : Z;
  in_guidance_scale : Q;
  in_num_images_per_prompt : Z
}.

(** A recorded call: the inputs and the generator state it started from. *)
Record PipelineCall : Type := {
  call_inputs : EditInputs;
  call_generator : GeneratorState torch
}.

(** The loaded [QwenImageEditPlusPipeline]: [output.images] or the
    exception raised, and the state it leaves the generator in. *)
Variable pipeline :
  EditInputs -> GeneratorState torch -> res (list (Image pil)) * GeneratorState torch.

Definition Eff : Type -> Type := M (GeneratorState torch) PipelineCall.

(** The call of [pipeline] on the unpacked [inputs], recorded in the world. *)
Definition call_pipeline (inputs : EditInputs) : Eff (list (Image pil)) :=
  fun w =>
    let '(output, g') := pipeline inputs (default_generator w) in
    lift output
         (mkWorld g' (clock w) (clock_reads w)
                  (pipeline_calls w
                   ++ [ {| call_inputs := inputs; call_generator := default_generator w |} ])).

(** [image_to_base64(image)]. *)
Definition image_to_base64 (image : Image pil) : res str :=
  and_then (Image_save_png pil image) (fun buffered =>
  let img_str := b64encode buffered in
  inr (lit "data:image/png;base64," ++ img_str)).

(** [base64_to_image(base64_str)]. *)
Definition base64_to_image (base64_str : str) : res (Image pil) :=
  and_then (if contains COMMA base64_str
            then index (split COMMA base64_str) 1
            else inr base64_str) (fun base64_str =>
  and_then (b64decode base64_str) (fun img_data =>
  Image_open pil img_data)).

(** One element of the [files] list the Gradio callback receives, when
    it is not [None]: a PIL image, a path, an object with a [name]
    attribute, or anything else. *)
Inductive Upload : Type :=
| upload_image (image : Image pil)
| upload_path (path : str)
| upload_file (name : str)
| upload_other (obj : Array pil).

(** The body of the [try] in the loop of [process_uploaded_files]. *)
Definition open_upload (file : Upload) : res (Image pil) :=
  match file with
  | upload_image image => inr image
  | upload_path path => Image_open_path pil path
  | upload_file name => Image_open_path pil name
  | upload_other obj => Image_fromarray pil obj
  end.

(** The loop of [process_uploaded_files]: [None] entries and entries
    that raise are passed over. *)
Fixpoint collect_uploads (files : list (option Upload)) (images : list (Image pil))
  : list (Image pil) :=
  match files with
  | [] => images
  | None :: rest => collect_uploads rest images
  | Some file :: rest =>
      match open_upload file with
      | inr image => collect_uploads rest (images ++ [image])
      | inl _ => collect_uploads rest images
      end
  end.

(** [process_uploaded_files(files)], for [files] that is [None] or a
    list, as the multiple-file upload component delivers it (on these the
    branch that wraps a value that is not a list is not taken). *)
Definition process_uploaded_files (files : option (list (option Upload))) : list (Image pil) :=
  match files with
  | None => []
  | Some [] => []
  | Some files => collect_uploads files []
  end.

(** The body of the [try] in the loop of [update_gallery]. *)
Definition gallery_image (file : Upload) : res (Image pil) :=
  match file with
  | upload_image image => inr image
  | upload_path path => Image_open_path pil path
  | upload_file name => Image_open_path pil name
  | upload_other obj => Image_fromarray pil obj
  end.

(** The loop of [update_gallery]. *)
Fixpoint collect_gallery (files : list (option Upload)) (gallery_images : list (Image pil))
  : list (Image pil) :=
  match files with
  | [] => gallery_images
  | None :: rest => collect_gallery rest gallery_images
  | Some file :: rest =>
      match gallery_image file with
      | inr image => collect_gallery rest (gallery_images ++ [image])
      | inl _ => collect_gallery rest gallery_images
      end
  end.

(** [update_gallery(files)], the callback that fills the preview gallery
    when the uploads change. *)
Definition update_gallery (files : option (list (option Upload))) : list (Image pil) :=
  match files with
  | None => []
  | Some [] => []
  | Some files => collect_gallery files []
  end.

(** The body of the [try] in the loop of [image_edit]. *)
Definition decode_RGB (image_base64 : str) : res (Image pil) :=
  and_then (base64_to_image image_base64) (fun pil_image =>
  if mode_is_RGB pil pil_image then inr pil_image
  else Image_convert_RGB pil pil_image).

(** The loop of [image_edit] over [enumerate(request.images)]. *)
Fixpoint decode_images (idx : nat) (items : list str) (pil_images : list (Image pil))
  : Eff (list (Image pil)) :=
  match items with
  | [] => ret pil_images
  | image_base64 :: rest =>
      (pil_images <-
         try_except
           (pil_image <- lift (decode_RGB image_base64) ;;
            ret (pil_images ++ [pil_image]))
           (fun e =>
              raise (HTTPException 400
                       ("无法处理第 " ++ show_nat (idx + 1) ++ " 张图片: "
                        ++ str_of_exn e))) ;;
       decode_images (S idx) rest pil_images)%py
  end.

Record EditResult : Type := {
  image : str;
  input_count : nat
}.

Record EditContent : Type := {
  status : string;
  message : string;
  result : EditResult
}.

(** [request.negative_prompt or " "]. *)
Definition negative_prompt_or_blank (negative_prompt : option str) : str :=
  match negative_prompt with
  | None => lit " "
  | Some [] => lit " "
  | Some s => s
  end.

(** [async def image_edit(request)], the handler of
    [POST /v1/images/edits]. *)
Definition image_edit (request : ImageEditRequest) : Eff EditContent :=
  try_except
    (if (List.length (images request) =? 0)%nat
     then raise (HTTPException 400 "请至少提供一张图片")
     else if prompt_is_blank (prompt request)
     then raise (HTTPException 400 "请输入提示词")
     else
       (pil_images <- decode_images 0 (images request) [] ;;
        if (List.length pil_images =? 0)%nat
        then raise (HTTPException 400
                      "无法处理图片，请确保提供有效的 base64 编码图片")
        else
          (_ <- torch_manual_seed torch (seed request) ;;
           output <- call_pipeline
                       {| in_image := pil_images;
                          in_prompt := prompt request;
                          in_true_cfg_scale := true_cfg_scale request;
                          in_negative_prompt :=
                            negative_prompt_or_blank (negative_prompt request);
                          in_num_inference_steps := num_inference_steps request;
                          in_guidance_scale := guidance_scale request;
                          in_num_images_per_prompt := 1 |} ;;
           output_image <- lift (index output 0) ;;
           output_base64 <- lift (image_to_base64 output_image) ;;
           ret {| status := "success";
                  message := "推理完成！已处理 "
                             ++ show_nat (List.length pil_images) ++ " 张输入图片";
                  result := {| image := output_base64;
                               input_count := List.length pil_images |} |}))%py)
    (fun e =>
       match e with
       | HTTPException _ _ => raise e
       | Raised _ =>
           raise (HTTPException 500 ("推理出错: " ++ str_of_exn e))
       end).

(** The route [POST /v1/images/edits]. *)
Definition post_edits (b : Body)
  : World (GeneratorState torch) PipelineCall
    -> Response EditContent * World (GeneratorState torch) PipelineCall :=
  post validate image_edit b.

(** [not files or len(files) == 0]. *)
Definition no_files (files : option (list (option Upload))) : bool :=
  match files with
  | None => true
  | Some l => (List.length l =? 0)%nat
  end.

(** [def inference(files, prompt, ..., seed)], the Gradio callback. *)
Definition inference (files : option (list (option Upload))) (prompt : option str)
    (negative_prompt : str) (num_inference_steps : Q)
    (guidance_scale true_cfg_scale : Q) (seed : Z)
  : Eff (option (Image pil) * string) :=
  if no_files files then ret (None, "请至少上传一张图片")
  else
    match prompt with
    | None => ret (None, "请输入提示词")
    | Some prompt =>
      if prompt_is_blank prompt then ret (None, "请输入提示词")
      else
        try_except
          (let images := process_uploaded_files files in
           if (List.length images =? 0)%nat
           then ret (None, "无法处理上传的图片，请确保上传的是有效的图片文件")
           else
             (_ <- torch_manual_seed torch seed ;;
              output <- call_pipeline
                          {| in_image := images;
                             in_prompt := prompt;
                             in_true_cfg_scale := true_cfg_scale;
                             in_negative_prompt := negative_prompt;
                             in_num_inference_steps := int_of_float num_inference_steps;
                             in_guidance_scale := guidance_scale;
                             in_num_images_per_prompt := 1 |} ;;
              output_image <- lift (index output 0) ;;
              ret (Some output_image,
                   ("推理完成！已处理 " ++ show_nat (List.length images)
                    ++ " 张输入图片")%string))%py)
          (fun e => ret (None, ("推理出错: " ++ str_of_exn e)%string))
    end.

(** The [files] argument as a caller may pass it: [None], a list, or a
    single value that is not a list, of which two kinds are modelled, a PIL
    image and a path. *)
Inductive Files : Type :=
| files_none
| files_list (files : list (option Upload))
| files_image (image : Image pil)
| files_path (path : str).

(** [process_uploaded_files(files)] on any of these: a single value that
    is true (every PIL image, every path but the empty one) is wrapped
    into a list of one. *)
Definition process_uploaded_files_any (files : Files) : list (Image pil) :=
  match files with
  | files_none => process_uploaded_files None
  | files_list files => process_uploaded_files (Some files)
  | files_image image => collect_uploads [Some (upload_image image)] []
  | files_path [] => []
  | files_path path => collect_uploads [Some (upload_path path)] []
  end.

(** [inference(files, prompt, ..., seed)] on any of these.  The guard
    [not files or len(files) == 0] stands before the [try].  A PIL image
    is true (its class defines neither [__bool__] nor [__len__]), so
    [len] is called on it and raises a [TypeError], whose message names
    the class of the image.  A path is a [str], false and of length 0
    exactly when it is empty; past the guard the callback uses [files]
    only in [process_uploaded_files], which wraps it. *)
Definition inference_any (files : Files) (prompt : option str)
    (negative_prompt : str) (num_inference_steps : Q)
    (guidance_scale true_cfg_scale : Q) (seed : Z)
  : Eff (option (Image pil) * string) :=
  match files with
  | files_none =>
      inference None prompt negative_prompt num_inference_steps
        guidance_scale true_cfg_scale seed
  | files_list files =>
      inference (Some files) prompt negative_prompt num_inference_steps
        guidance_scale true_cfg_scale seed
  | files_image image =>
      raise (Raised (Exception "TypeError" "object of type 'Image' has no len()"))
  | files_path [] => ret (None, "请至少上传一张图片")
  | files_path path =>
      inference (Some [Some (upload_path path)]) prompt negative_prompt
        num_inference_steps guidance_scale true_cfg_scale seed
  end.

End Service.

End QwenEdit.

(** ** The decoder in the words of the specification *)

Module Spec.

(** The text after the first occurrence of the separator, if there is one. *)
Fixpoint after_first (sep : codepoint) (text : str) : option str :=
  match text with
  | [] => None
  | c :: rest => if (c =? sep)%N then Some rest else after_first sep rest
  end.

(** The optional format tag ends at the first separator. *)
Definition strip_prefix (text : str) : str :=
  match after_first COMMA text with
  | Some rest => rest
  | None => text
  end.

(** Strip the prefix, reverse the text encoding, parse the image. *)
Definition decode (pil : PIL) (text : str) : res (Image pil) :=
  and_then (b64decode (strip_prefix text)) (Image_open pil).

End Spec.

(** ** Auxiliary definitions *)

Module Fields.

(** The text before the first occurrence of the separator. *)
Fixpoint before_first (sep : codepoint) (text : str) : str :=
  match text with
  | [] => []
  | c :: rest => if (c =? sep)%N then [] else c :: before_first sep rest
  end.

(** The text between the first and the second comma (up to the end when
    there is one comma only); the whole text when it has no comma. *)
Definition second_field (text : str) : str :=
  match Spec.after_first COMMA text with
  | Some rest => before_first COMMA rest
  | None => text
  end.

(** The number of commas of a text. *)
Definition commas (text : str) : nat := List.length (filter (N.eqb COMMA) text).

End Fields.

Module Sextets.

Local Open Scope N_scope.

(** The numbers below [n], for checks by enumeration. *)
Definition below (n : nat) : list N := map N.of_nat (seq 0 n).

(** A sextet survives the two tables, and its character is an ASCII
    character that is neither the pad nor the comma. *)
Definition sextet_ok (v : N) : bool :=
  match table_a2b_base64 (table_b2a_base64 v) with
  | Some v' => v' =? v
  | None => false
  end
  && negb (table_b2a_base64 v =? BASE64_PAD)
  && negb (table_b2a_base64 v =? COMMA)
  && (table_b2a_base64 v <? 128).

(** The four sextets of a group of three bytes. *)
Definition sextet1 (a : N) : N := N.shiftr a 2.
Definition sextet2 (a b : N) : N := N.lor (N.shiftl (N.land a 3) 4) (N.shiftr b 4).
Definition sextet3 (b c : N) : N := N.lor (N.shiftl (N.land b 15) 2) (N.shiftr c 6).
Definition sextet4 (c : N) : N := N.land c 63.

(** Everything the decoder computes from two neighbouring bytes. *)
Definition pair_ok (a b : N) : bool :=
  (sextet1 a <? 64) && (sextet2 a b <? 64) && (sextet3 a b <? 64) && (sextet4 a <? 64)
  && (sextet2 a 0 <? 64) && (sextet3 a 0 <? 64)
  && ((N.lor (N.shiftl (sextet1 a) 2) (N.shiftr (sextet2 a b) 4)) mod 256 =? a)
  && (N.land (sextet2 a b) 15 =? N.shiftr b 4)
  && ((N.lor (N.shiftl (N.shiftr a 4) 4) (N.shiftr (sextet3 a b) 2)) mod 256 =? a)
  && (N.land (sextet3 a b) 3 =? N.shiftr b 6)
  && ((N.lor (N.shiftl (N.shiftr a 6) 6) (sextet4 a)) mod 256 =? a).

End Sextets.

(** ** The vocabulary of the statements *)

Module Terms.

Local Open Scope Z_scope.

(** A text that is empty or made of whitespace only. *)
Definition whitespace_only (text : str) : Prop := Forall (fun c => isspace c = true) text.

Definition outside (lo hi v : Z) : Prop := v < lo \/ hi < v.

Definition outsideQ (lo hi v : Q) : Prop := (v < lo \/ hi < v)%Q.

(** A generation body one of whose bounded fields is given outside its
    declared range. *)
Definition out_of_range (b : Flux.Body) : Prop :=
  (exists v, Flux.body_height b = Some v /\ outside 256 2048 v)
  \/ (exists v, Flux.body_width b = Some v /\ outside 256 2048 v)
  \/ (exists v, Flux.body_guidance_scale b = Some v /\ outsideQ 0 20 v)
  \/ (exists v, Flux.body_num_inference_steps b = Some v /\ outside 10 100 v)
  \/ (exists v, Flux.body_max_sequence_length b = Some v /\ outside 128 1024 v).

(** A generation body whose prompt is empty or whitespace only. *)
Definition blank_prompt (b : Flux.Body) : Prop :=
  exists p, Flux.body_prompt b = Some p /\ whitespace_only p.

(** The world after [reads] more readings of the clock and the calls
    [calls] of the pipeline. *)
Definition advance {G C : Type} (w : World G C) (reads : nat) (calls : list C) : World G C :=
  mkWorld (default_generator w) (clock w) (reads + clock_reads w) (pipeline_calls w ++ calls).

(** The exception with which the API handlers report a failed inference. *)
Definition failure (e : error) : exn :=
  HTTPException 500 ("推理出错: " ++ str_of_exn (Raised e)).

(** The arguments the generation handler calls the pipeline with. *)
Definition generation_args (torch : Torch) (request : Flux.ImageGenerationRequest)
    (g : GeneratorState torch) : Flux.PipelineArgs torch :=
  {| Flux.arg_prompt := Flux.prompt request;
     Flux.arg_height := Flux.height request;
     Flux.arg_width := Flux.width request;
     Flux.arg_guidance_scale := Flux.guidance_scale request;
     Flux.arg_num_inference_steps := Flux.num_inference_steps request;
     Flux.arg_max_sequence_length := Flux.max_sequence_length request;
     Flux.arg_generator := g |}.

(** The images of the entries of an upload list that can be opened, in
    the order of the list. *)
Fixpoint readable (pil : PIL) (files : list (option (QwenEdit.Upload pil)))
  : list (Image pil) :=
  match files with
  | [] => []
  | None :: rest => readable pil rest
  | Some file :: rest =>
      match QwenEdit.open_upload pil file with
      | inr image => image :: readable pil rest
      | inl _ => readable pil rest
      end
  end.

(** The world after a call of the editing pipeline that started from the
    generator state [g] and left it in [g']. *)
Definition after_call {G C : Type} (w : World G C) (g' : G) (call : C) : World G C :=
  mkWorld g' (clock w) (clock_reads w) (pipeline_calls w ++ [call]).

(** The world after a handler of the editing service has run: the default
    generator is in the state [g] if it was seeded, and [calls] were made. *)
Definition settle {G C : Type} (w : World G C) (g : option G) (calls : list C) : World G C :=
  mkWorld (match g with Some g' => g' | None => default_generator w end)
          (clock w) (clock_reads w) (pipeline_calls w ++ calls).

(** The inputs the editing handler calls the pipeline with. *)
Definition edit_inputs (pil : PIL) (request : QwenEdit.ImageEditRequest)
    (pil_images : list (Image pil)) : QwenEdit.EditInputs pil :=
  {| QwenEdit.in_image := pil_images;
     QwenEdit.in_prompt := QwenEdit.prompt request;
     QwenEdit.in_true_cfg_scale := QwenEdit.true_cfg_scale request;
     QwenEdit.in_negative_prompt :=
       QwenEdit.negative_prompt_or_blank (QwenEdit.negative_prompt request);
     QwenEdit.in_num_inference_steps := QwenEdit.num_inference_steps request;
     QwenEdit.in_guidance_scale := QwenEdit.guidance_scale request;
     QwenEdit.in_num_images_per_prompt := 1 |}.

(** The inputs the editing callback of the UI calls the pipeline with. *)
Definition ui_edit_inputs (pil : PIL) (images : list (Image pil)) (prompt negative_prompt : str)
    (num_inference_steps guidance_scale true_cfg_scale : Q) : QwenEdit.EditInputs pil :=
  {| QwenEdit.in_image := images;
     QwenEdit.in_prompt := prompt;
     QwenEdit.in_true_cfg_scale := true_cfg_scale;
     QwenEdit.in_negative_prompt := negative_prompt;
     QwenEdit.in_num_inference_steps := int_of_float num_inference_steps;
     QwenEdit.in_guidance_scale := guidance_scale;
     QwenEdit.in_num_images_per_prompt := 1 |}.

(** The arguments the generation callback of the UI calls the pipeline with. *)
Definition ui_generation_args (torch : Torch) (prompt : str) (height width : Z)
    (guidance_scale num_inference_steps : Q) (max_sequence_length : Z)
    (g : GeneratorState torch) : Flux.PipelineArgs torch :=
  {| Flux.arg_prompt := prompt;
     Flux.arg_height := height;
     Flux.arg_width := width;
     Flux.arg_guidance_scale := guidance_scale;
     Flux.arg_num_inference_steps := int_of_float num_inference_steps;
     Flux.arg_max_sequence_length := max_sequence_length;
     Flux.arg_generator := g |}.

(** The status message with which the UI callbacks report an exception. *)
Definition ui_failure (e : error) : string :=
  "推理出错: " ++ str_of_exn (Raised e).

(** The upload list behind the [files] argument of the UI callback. *)
Definition uploads {A : Type} (files : option (list A)) : list A :=
  match files with
  | Some l => l
  | None => []
  end.

(** The detail with which the editing endpoint reports the image of
    1-based index [k]. *)
Definition names_image (k : nat) (e : error) : string :=
  "无法处理第 " ++ show_nat k ++ " 张图片: " ++ str_of_exn (Raised e).

(** The image a UI callback hands back, if any. *)
Definition returned_image {I : Type} (r : exn + (option I * string)) : option I :=
  match r with
  | inr (image, _) => image
  | inl _ => None
  end.

(** A generation response without its timing fields. *)
Definition untimed (r : FastAPI.Response (Flux.GenerationContent))
  : FastAPI.Response (string * string * str) :=
  match r with
  | FastAPI.JSONResponse c =>
      FastAPI.JSONResponse
        (Flux.status c, Flux.message c, Flux.image (Flux.result c))
  | FastAPI.ErrorResponse sc d => FastAPI.ErrorResponse sc d
  end.

End Terms.

(** ** A small instance of the collaborators, for running the services *)

Module Demo.

Local Open Scope Z_scope.

(** A file is recognised by the first four bytes of the PNG signature. *)
Definition signed (data : bytes) : bool :=
  match data with
  | x89 :: x50 :: x4e :: x47 :: _ => true
  | _ => false
  end.

(** An image is the content of its file. *)
Definition open_bytes (data : bytes) : res bytes :=
  if signed data then inr data
  else inl (Exception "UnidentifiedImageError" "cannot identify image file").

Definition sample : bytes := [x89; x50; x4e; x47; x0d; x0a].

(** The file system holds one image, [in.png]. *)
Definition open_path (path : str) : res bytes :=
  if list_eq_dec N.eq_dec path (lit "in.png") then inr sample
  else inl (Exception "FileNotFoundError" "No such file or directory").

Definition pil : PIL :=
  {| Image := bytes;
     Raster := bytes;
     Array := unit;
     raster := fun image => image;
     Image_open := open_bytes;
     Image_open_path := open_path;
     Image_fromarray := fun _ => inl (Exception "TypeError" "Cannot handle this data type");
     Image_save_png := open_bytes;
     mode_is_RGB := fun _ => true;
     Image_convert_RGB := fun image => inr image |}.

(** A generator state is the seed it was given; seeds outside 64 bits are
    refused. *)
Definition torch : Torch :=
  {| GeneratorState := Z;
     seeded := fun seed =>
       if (- 2 ^ 63 <=? seed) && (seed <? 2 ^ 64) then inr seed
       else inl (Exception "RuntimeError" "Overflow when unpacking long") |}.

(** A generation pipeline that always draws the sample image. *)
Definition flux_pipeline (args : Flux.PipelineArgs torch) : res (list bytes) :=
  inr [sample].

(** An editing pipeline that returns its first input image. *)
Definition edit_pipeline (inputs : QwenEdit.EditInputs pil) (g : Z)
  : res (list bytes) * Z :=
  (inr (firstn 1 (QwenEdit.in_image pil inputs)), g + 1).

(** A pipeline that fails. *)
Definition failing_pipeline (args : Flux.PipelineArgs torch) : res (list bytes) :=
  inl (Exception "RuntimeError" "CUDA out of memory").

(** A process that has served nothing yet; its clock advances by one
    second per reading. *)
Definition world0 {C : Type} : World Z C :=
  mkWorld 0 (fun n => inject_Z (Z.of_nat n)) 0 [].

End Demo.

(** ** The start-up configuration of both services *)

Module Launcher.

Local Open Scope Z_scope.

(** What the [__main__] block of either [main.py] resolves before it
    starts the two servers. *)
Record Config : Type := {
  host : str;
  gradio_port : Z;
  api_port : Z
}.

Section Ports.

(** [os.getenv(name)]: the environment of the process. *)
Variable getenv : string -> option str.

(** [int(s)] on a [str]; [None] stands for the [ValueError]. *)
Variable int_of_str : str -> option Z.

(** The [if env: try: int(env) except ValueError: default  else: default]
    pattern: an unset or empty variable and one that is not a number all
    give the default. *)
Definition port_or (name : string) (default : Z) : Z :=
  match getenv name with
  | Some (c :: rest) =>
      match int_of_str (c :: rest) with
      | Some port => port
      | None => default
      end
  | Some [] => default
  | None => default
  end.

Definition config : Config :=
  let host := match getenv "GRADIO_HOST" with
              | Some h => h
              | None => lit "0.0.0.0"
              end in
  let gradio_port := port_or "GRADIO_PORT" 8099 in
  let api_port := port_or "API_PORT" (gradio_port + 1) in
  {| host := host; gradio_port := gradio_port; api_port := api_port |}.

End Ports.

End Launcher.

(** ** qwen-image-edit-2509部署/test.py, the test client *)

Module TestClient.

Local Open Scope list_scope.

(** The [mime_types] dictionary of [image_to_base64]. *)
Definition mime_types : list (str * str) :=
  [ (lit ".png", lit "image/png");
    (lit ".jpg", lit "image/jpeg");
    (lit ".jpeg", lit "image/jpeg");
    (lit ".gif", lit "image/gif");
    (lit ".bmp", lit "image/bmp");
    (lit ".webp", lit "image/webp") ].

(** [d.get(key, default)]. *)
Fixpoint dict_get (d : list (str * str)) (key default : str) : str :=
  match d with
  | [] => default
  | (k, v) :: rest => if list_eq_dec N.eq_dec k key then v else dict_get rest key default
  end.

Section Client.

(** [open(path, "rb").read()], on the file system of the client. *)
Variable read_file : str -> res bytes.

(** [os.path.splitext(path)[1].lower()]. *)
Variable lower_ext : str -> str.

(** [image_to_base64(image_path)] of the client. *)
Definition image_to_base64 (image_path : str) : res str :=
  and_then (read_file image_path) (fun img_data =>
  let img_base64 := b64encode img_data in
  let ext := lower_ext image_path in
  let mime_type := dict_get mime_types ext (lit "image/png") in
  inr (lit "data:" ++ mime_type ++ lit ";base64," ++ img_base64)).

End Client.

(** [base64_to_image_file(base64_str, output_path)]: the bytes it writes
    to [output_path]. *)
Definition base64_to_image_file (base64_str : str) : res bytes :=
  and_then (if contains COMMA base64_str
            then index (split COMMA base64_str) 1
            else inr base64_str) (fun base64_str =>
  b64decode base64_str).

End TestClient.

(** ** More vocabulary *)

Module Alphabet.

(** A character the text decoder looks at: a character of the base64
    alphabet, or the pad. *)
Definition data_or_pad (c : codepoint) : bool :=
  (c =? BASE64_PAD)%N
  || match table_a2b_base64 c with Some _ => true | None => false end.

End Alphabet.

Module RouteTerms.

Import Terms.
Local Open Scope Z_scope.

(** An editing body that violates a declared constraint: the image list
    or the prompt is missing or empty, or a bounded field is given outside
    its range. *)
Definition edit_violation (b : QwenEdit.Body) : Prop :=
  QwenEdit.body_images b = None \/ QwenEdit.body_images b = Some []
  \/ QwenEdit.body_prompt b = None \/ QwenEdit.body_prompt b = Some []
  \/ (exists v, QwenEdit.body_num_inference_steps b = Some v /\ outside 10 100 v)
  \/ (exists v, QwenEdit.body_guidance_scale b = Some v /\ outsideQ 0 10 v)
  \/ (exists v, QwenEdit.body_true_cfg_scale b = Some v /\ outsideQ 0 10 v).

(** Arguments of the generation pipeline within the ranges that
    [ImageGenerationRequest] declares, with a prompt that is not blank. *)
Definition args_in_range {torch : Torch} (args : Flux.PipelineArgs torch) : Prop :=
  ~ whitespace_only (Flux.arg_prompt torch args)
  /\ 256 <= Flux.arg_height torch args <= 2048
  /\ 256 <= Flux.arg_width torch args <= 2048
  /\ (0 <= Flux.arg_guidance_scale torch args <= 20)%Q
  /\ 10 <= Flux.arg_num_inference_steps torch args <= 100
  /\ 128 <= Flux.arg_max_sequence_length torch args <= 1024.

(** The arguments of the generation pipeline are the fields of the body,
    the declared default standing for an absent field. *)
Definition args_of_body {torch : Torch} (b : Flux.Body) (args : Flux.PipelineArgs torch)
  : Prop :=
  Flux.body_prompt b = Some (Flux.arg_prompt torch args)
  /\ Flux.arg_height torch args = FastAPI.Field_default 1024 (Flux.body_height b)
  /\ Flux.arg_width torch args = FastAPI.Field_default 1024 (Flux.body_width b)
  /\ Flux.arg_guidance_scale torch args
     = FastAPI.Field_default (35 # 10) (Flux.body_guidance_scale b)
  /\ Flux.arg_num_inference_steps torch args
     = FastAPI.Field_default 50 (Flux.body_num_inference_steps b)
  /\ Flux.arg_max_sequence_length torch args
     = FastAPI.Field_default 512 (Flux.body_max_sequence_length b)
  /\ seeded torch (FastAPI.Field_default 0 (Flux.body_seed b))
     = inr (Flux.arg_generator torch args).

(** Inputs of the editing pipeline within the ranges that
    [ImageEditRequest] declares: at least one image, a prompt that is not
    blank, a negative prompt that is not empty, one output image. *)
Definition inputs_in_range {pil : PIL} (inputs : QwenEdit.EditInputs pil) : Prop :=
  QwenEdit.in_image pil inputs <> []
  /\ ~ whitespace_only (QwenEdit.in_prompt pil inputs)
  /\ QwenEdit.in_negative_prompt pil inputs <> []
  /\ 10 <= QwenEdit.in_num_inference_steps pil inputs <= 100
  /\ (0 <= QwenEdit.in_guidance_scale pil inputs <= 10)%Q
  /\ (0 <= QwenEdit.in_true_cfg_scale pil inputs <= 10)%Q
  /\ QwenEdit.in_num_images_per_prompt pil inputs = 1.

(** The inputs of the editing pipeline are the fields of the body, the
    declared default standing for an absent field, and a single blank for
    a negative prompt that is [null] or empty. *)
Definition inputs_of_body {pil : PIL} (b : QwenEdit.Body) (inputs : QwenEdit.EditInputs pil)
  : Prop :=
  QwenEdit.body_prompt b = Some (QwenEdit.in_prompt pil inputs)
  /\ QwenEdit.in_negative_prompt pil inputs
     = QwenEdit.negative_prompt_or_blank
         (FastAPI.Field_default (Some (lit " ")) (QwenEdit.body_negative_prompt b))
  /\ QwenEdit.in_num_inference_steps pil inputs
     = FastAPI.Field_default 40 (QwenEdit.body_num_inference_steps b)
  /\ QwenEdit.in_guidance_scale pil inputs
     = FastAPI.Field_default 1%Q (QwenEdit.body_guidance_scale b)
  /\ QwenEdit.in_true_cfg_scale pil inputs
     = FastAPI.Field_default 4%Q (QwenEdit.body_true_cfg_scale b).

(** The images of a request decode to [pil_images], one by one. *)
Definition decoded (pil : PIL) (items : list str) (pil_images : list (Image pil)) : Prop :=
  Forall2 (fun s image => QwenEdit.decode_RGB pil s = inr image) items pil_images.

(** The first image of a request that does not decode is [bad], after the
    images [pre], which all decode; it raises [e]. *)
Definition first_undecodable (pil : PIL) (items pre : list str) (bad : str) (e : error)
  : Prop :=
  (exists post, items = pre ++ bad :: post)
  /\ Forall (fun s => exists image, QwenEdit.decode_RGB pil s = inr image) pre
  /\ QwenEdit.decode_RGB pil bad = inl e.

(** The two details of [image_edit] that no request brings about. *)
Definition NO_IMAGE : string := "请至少提供一张图片".
Definition NO_USABLE_IMAGE : string := "无法处理图片，请确保提供有效的 base64 编码图片".

End RouteTerms.

(** ** The forms of the two UIs *)

Module Forms.

Local Open Scope Z_scope.

(** What the [clear] button of the generation UI returns: the prompt,
    height, width, guidance scale, number of steps, maximal sequence
    length and seed of the form, the output image and the status text. *)
Definition flux_clear {I : Type} : str * Z * Z * Q * Z * Z * Z * option I * string :=
  ([], 1024, 1024, 35 # 10, 50, 512, 0, None, "已清空"%string).

(** What the [clear] button of the editing UI returns: the uploads, the
    gallery, the prompt, the negative prompt, the number of steps, the
    guidance scale, the true CFG scale and the seed of the form, the
    output image and the status text. *)
Definition qwen_clear {F I : Type}
  : option (list F) * list I * str * str * Z * Q * Q * Z * option I * string :=
  (None, [], [], lit " ", 40, 1%Q, 4%Q, 0, None, "已清空"%string).

(** [given], or [v] when the field is absent. *)
Definition or_else {A : Type} (given : option A) (v : A) : option A :=
  match given with
  | Some x => Some x
  | None => Some v
  end.

(** A generation body, each absent field but the prompt filled in with
    the value of the cleared form. *)
Definition flux_filled (b : Flux.Body) : Flux.Body :=
  let '(_, height, width, guidance_scale, num_inference_steps, max_sequence_length, seed,
        _, _) := @flux_clear unit in
  {| Flux.body_prompt := Flux.body_prompt b;
     Flux.body_height := or_else (Flux.body_height b) height;
     Flux.body_width := or_else (Flux.body_width b) width;
     Flux.body_guidance_scale := or_else (Flux.body_guidance_scale b) guidance_scale;
     Flux.body_num_inference_steps :=
       or_else (Flux.body_num_inference_steps b) num_inference_steps;
     Flux.body_max_sequence_length :=
       or_else (Flux.body_max_sequence_length b) max_sequence_length;
     Flux.body_seed := or_else (Flux.body_seed b) seed |}.

(** An editing body, each absent field but the images and the prompt
    filled in with the value of the cleared form. *)
Definition qwen_filled (b : QwenEdit.Body) : QwenEdit.Body :=
  let '(_, _, _, negative_prompt, num_inference_steps, guidance_scale, true_cfg_scale,
        seed, _, _) := @qwen_clear unit unit in
  {| QwenEdit.body_images := QwenEdit.body_images b;
     QwenEdit.body_prompt := QwenEdit.body_prompt b;
     QwenEdit.body_negative_prompt :=
       or_else (QwenEdit.body_negative_prompt b) (Some negative_prompt);
     QwenEdit.body_num_inference_steps :=
       or_else (QwenEdit.body_num_inference_steps b) num_inference_steps;
     QwenEdit.body_guidance_scale :=
       or_else (QwenEdit.body_guidance_scale b) guidance_scale;
     QwenEdit.body_true_cfg_scale :=
       or_else (QwenEdit.body_true_cfg_scale b) true_cfg_scale;
     QwenEdit.body_seed := or_else (QwenEdit.body_seed b) seed |}.

End Forms.

(** ** More of the demonstration instance *)

Module DemoMore.

Local Open Scope Z_scope.

(** The client's disk holds one file, [bear.JPG], with the sample bytes. *)
Definition read_file (path : str) : res bytes :=
  if list_eq_dec N.eq_dec path (lit "bear.JPG") then inr Demo.sample
  else inl (Exception "FileNotFoundError" "No such file or directory").

(** The extension of the one file of the disk, in lower case. *)
Definition lower_ext (path : str) : str :=
  if list_eq_dec N.eq_dec path (lit "bear.JPG") then lit ".jpg" else [].

(** An environment that sets [GRADIO_PORT] to a number and [API_PORT] to
    something else. *)
Definition getenv (name : string) : option str :=
  if String.eqb name "GRADIO_PORT" then Some (lit "9000")
  else if String.eqb name "API_PORT" then Some (lit "nine")
  else None.

(** The numbers the environment above needs. *)
Definition int_of_str (s : str) : option Z :=
  if list_eq_dec N.eq_dec s (lit "9000") then Some 9000 else None.

(** A PIL whose images carry their mode: a file opens in palette mode,
    and the conversion to RGB keeps the content. *)
Definition pil_modes : PIL :=
  {| Image := bool * bytes;
     Raster := bytes;
     Array := unit;
     raster := fun image => snd image;
     Image_open := fun data => and_then (Demo.open_bytes data) (fun d => inr (false, d));
     Image_open_path := fun path => and_then (Demo.open_path path) (fun d => inr (false, d));
     Image_fromarray := fun _ => inl (Exception "TypeError" "Cannot handle this data type");
     Image_save_png := fun image => Demo.open_bytes (snd image);
     mode_is_RGB := fun image => fst image;
     Image_convert_RGB := fun image => inr (true, snd image) |}.

(** An editing pipeline over these images that returns its first input. *)
Definition edit_pipeline_modes (inputs : QwenEdit.EditInputs pil_modes) (g : Z)
  : res (list (bool * bytes)) * Z :=
  (inr (firstn 1 (QwenEdit.in_image pil_modes inputs)), g + 1).

(** A process whose wall clock is set back twice while a request is
    served: its readings are 1, 0.875, 3 and 2.625. *)
Definition stepping_back {C : Type} : World Z C :=
  mkWorld 0
    (fun n => match n with
              | 0%nat => 1%Q
              | 1%nat => 7 # 8
              | 2%nat => 3%Q
              | _ => 21 # 8
              end)
    0 [].

(** A generation pipeline that returns no image. *)
Definition silent_pipeline (args : Flux.PipelineArgs Demo.torch) : res (list bytes) :=
  inr [].

(** An editing pipeline that returns no image. *)
Definition silent_edit_pipeline (inputs : QwenEdit.EditInputs Demo.pil) (g : Z)
  : res (list bytes) * Z :=
  (inr [], g + 1).

End DemoMore.

(** * Properties *)

(** ** The text encoding *)

Module Base64Facts.

Import Sextets.
Local Open Scope N_scope.

Lemma in_below (n : nat) (x : N) : x < N.of_nat n -> In x (below n).
Proof.
  intros Hx. unfold below. apply in_map_iff.
  exists (N.to_nat x). split.
  - apply N2Nat.id.
  - apply in_seq. lia.
Qed.

Lemma forallb_below (n : nat) (P : N -> bool) :
  forallb P (below n) = true -> forall x, x < N.of_nat n -> P x = true.
Proof.
  intros H x Hx. rewrite forallb_forall in H. apply H, in_below, Hx.
Qed.


Lemma sextet_ok_all (v : N) : v < 64 -> sextet_ok v = true.
Proof.
  apply (forallb_below 64 sextet_ok). vm_compute. reflexivity.
Qed.

Lemma table_a2b_b2a (v : N) :
  v < 64 -> table_a2b_base64 (table_b2a_base64 v) = Some v.
Proof.
  intros Hv. pose proof (sextet_ok_all v Hv) as H. unfold sextet_ok in H.
  repeat (apply andb_prop in H; destruct H as [H ?]).
  destruct (table_a2b_base64 (table_b2a_base64 v)); [ | discriminate ].
  apply N.eqb_eq in H. now subst.
Qed.

Lemma table_b2a_not_pad (v : N) :
  v < 64 -> (table_b2a_base64 v =? BASE64_PAD) = false.
Proof.
  intros Hv. pose proof (sextet_ok_all v Hv) as H. unfold sextet_ok in H.
  repeat (apply andb_prop in H; destruct H as [H ?]).
  now apply negb_true_iff.
Qed.

Lemma table_b2a_not_comma (v : N) :
  v < 64 -> (table_b2a_base64 v =? COMMA) = false.
Proof.
  intros Hv. pose proof (sextet_ok_all v Hv) as H. unfold sextet_ok in H.
  repeat (apply andb_prop in H; destruct H as [H ?]).
  now apply negb_true_iff.
Qed.

Lemma table_b2a_ascii (v : N) : v < 64 -> (table_b2a_base64 v <? 128) = true.
Proof.
  intros Hv. pose proof (sextet_ok_all v Hv) as H. unfold sextet_ok in H.
  repeat (apply andb_prop in H; destruct H as [H ?]). assumption.
Qed.


Lemma pair_ok_all (a b : N) : a < 256 -> b < 256 -> pair_ok a b = true.
Proof.
  intros Ha Hb.
  assert (H : forallb (fun a => forallb (pair_ok a) (below 256)) (below 256) = true)
    by (vm_compute; reflexivity).
  pose proof (forallb_below 256 _ H a Ha) as H'. cbv beta in H'.
  exact (forallb_below 256 _ H' b Hb).
Qed.

Lemma to_N_lt (b : byte) : Byte.to_N b < 256.
Proof. pose proof (Byte.to_N_bounded b). lia. Qed.

Lemma byte_of_to_N (n : N) (b : byte) : n mod 256 = Byte.to_N b -> byte_of_N n = b.
Proof.
  intros H. unfold byte_of_N. rewrite H, Byte.of_to_N. reflexivity.
Qed.

(** One step of the decoder on the character of a sextet. *)
Lemma a2b_loop_sextet (v : N) (rest : str) (quad_pos : nat) (leftchar : N)
    (pads : nat) (bin_data : bytes) :
  v < 64 ->
  a2b_loop (table_b2a_base64 v :: rest) quad_pos leftchar pads bin_data =
  match quad_pos with
  | 0%nat => a2b_loop rest 1 v 0 bin_data
  | 1%nat =>
      a2b_loop rest 2 (N.land v 15) 0
        (bin_data ++ [byte_of_N (N.lor (N.shiftl leftchar 2) (N.shiftr v 4))])
  | 2%nat =>
      a2b_loop rest 3 (N.land v 3) 0
        (bin_data ++ [byte_of_N (N.lor (N.shiftl leftchar 4) (N.shiftr v 2))])
  | _ =>
      a2b_loop rest 0 0 0
        (bin_data ++ [byte_of_N (N.lor (N.shiftl leftchar 6) v)])
  end.
Proof.
  intros Hv. cbn [a2b_loop].
  rewrite (table_b2a_not_pad v Hv), (table_a2b_b2a v Hv). reflexivity.
Qed.

Ltac pair_facts a b :=
  let H := fresh "H" in
  pose proof (pair_ok_all (Byte.to_N a) (Byte.to_N b) (to_N_lt a) (to_N_lt b)) as H;
  unfold pair_ok in H;
  repeat match type of H with
         | (_ && _)%bool = true =>
             let H1 := fresh "H" in
             apply andb_prop in H; destruct H as [H H1]
         end;
  repeat match goal with
         | H0 : (_ <? _) = true |- _ => apply N.ltb_lt in H0
         | H0 : (_ =? _) = true |- _ => apply N.eqb_eq in H0
         end.

(** The first byte of a group, from its first two sextets. *)
Lemma decode_byte1 (b1 b2 : byte) :
  byte_of_N (N.lor (N.shiftl (sextet1 (Byte.to_N b1)) 2)
                   (N.shiftr (sextet2 (Byte.to_N b1) (Byte.to_N b2)) 4)) = b1.
Proof. pair_facts b1 b2. now apply byte_of_to_N. Qed.

Lemma decode_byte2 (b1 b2 b3 : byte) :
  byte_of_N (N.lor (N.shiftl (N.land (sextet2 (Byte.to_N b1) (Byte.to_N b2)) 15) 4)
                   (N.shiftr (sextet3 (Byte.to_N b2) (Byte.to_N b3)) 2)) = b2.
Proof.
  pair_facts b1 b2. pair_facts b2 b3.
  apply byte_of_to_N.
  match goal with H : N.land (sextet2 _ _) 15 = _ |- _ => rewrite H end.
  assumption.
Qed.

Lemma decode_byte3 (b2 b3 : byte) :
  byte_of_N (N.lor (N.shiftl (N.land (sextet3 (Byte.to_N b2) (Byte.to_N b3)) 3) 6)
                   (sextet4 (Byte.to_N b3))) = b3.
Proof.
  pair_facts b2 b3. pair_facts b3 b3.
  apply byte_of_to_N.
  match goal with H : N.land (sextet3 _ _) 3 = _ |- _ => rewrite H end.
  assumption.
Qed.

Lemma sextet1_lt (b : byte) : sextet1 (Byte.to_N b) < 64.
Proof. pair_facts b b. assumption. Qed.

Lemma sextet2_lt (a b : byte) : sextet2 (Byte.to_N a) (Byte.to_N b) < 64.
Proof. pair_facts a b. assumption. Qed.

Lemma sextet3_lt (a b : byte) : sextet3 (Byte.to_N a) (Byte.to_N b) < 64.
Proof. pair_facts a b. assumption. Qed.

Lemma sextet4_lt (b : byte) : sextet4 (Byte.to_N b) < 64.
Proof. pair_facts b b. assumption. Qed.

(** The last sextet of a padded group has its low bits clear. *)
Lemma sextet2_tail (a : N) : N.shiftl (N.land a 3) 4 = sextet2 a (Byte.to_N x00).
Proof. unfold sextet2. cbn [Byte.to_N]. now rewrite N.shiftr_0_l, N.lor_0_r. Qed.

Lemma sextet3_tail (b : N) : N.shiftl (N.land b 15) 2 = sextet3 b (Byte.to_N x00).
Proof. unfold sextet3. cbn [Byte.to_N]. now rewrite N.shiftr_0_l, N.lor_0_r. Qed.

(** Induction over a list three elements at a time. *)
Lemma group3_ind {A : Type} (P : list A -> Prop) :
  P [] ->
  (forall a, P [a]) ->
  (forall a b, P [a; b]) ->
  (forall a b c l, P l -> P (a :: b :: c :: l)) ->
  forall l, P l.
Proof.
  intros H0 H1 H2 H3 l.
  assert (H : forall n l, (List.length l <= n)%nat -> P l).
  { clear l. induction n as [ | n IH ]; intros l Hl.
    - destruct l; [ exact H0 | cbn in Hl; lia ].
    - destruct l as [ | a [ | b [ | c l ] ] ]; auto.
      apply H3, IH. cbn in Hl. lia. }
  exact (H (List.length l) l (le_n _)).
Qed.

(** Decoding the encoding of [data] appends [data] to the output. *)
Lemma a2b_loop_b64encode (data bin_data : bytes) :
  a2b_loop (b64encode data) 0 0 0 bin_data = inr (bin_data ++ data).
Proof.
  revert bin_data. induction data as [ | b1 | b1 b2 | b1 b2 b3 rest IH ] using group3_ind;
    intros bin_data.
  - cbn. now rewrite app_nil_r.
  - cbn [b64encode]. rewrite sextet2_tail.
    fold (sextet1 (Byte.to_N b1)).
    rewrite (a2b_loop_sextet _ _ _ _ _ _ (sextet1_lt b1)).
    rewrite (a2b_loop_sextet _ _ _ _ _ _ (sextet2_lt b1 x00)).
    rewrite decode_byte1. reflexivity.
  - cbn [b64encode]. rewrite sextet3_tail.
    fold (sextet1 (Byte.to_N b1)). fold (sextet2 (Byte.to_N b1) (Byte.to_N b2)).
    rewrite (a2b_loop_sextet _ _ _ _ _ _ (sextet1_lt b1)).
    rewrite (a2b_loop_sextet _ _ _ _ _ _ (sextet2_lt b1 b2)).
    rewrite (a2b_loop_sextet _ _ _ _ _ _ (sextet3_lt b2 x00)).
    rewrite decode_byte1, decode_byte2.
    cbn. now rewrite <- app_assoc.
  - cbn [b64encode].
    fold (sextet1 (Byte.to_N b1)). fold (sextet2 (Byte.to_N b1) (Byte.to_N b2)).
    fold (sextet3 (Byte.to_N b2) (Byte.to_N b3)). fold (sextet4 (Byte.to_N b3)).
    rewrite (a2b_loop_sextet _ _ _ _ _ _ (sextet1_lt b1)).
    rewrite (a2b_loop_sextet _ _ _ _ _ _ (sextet2_lt b1 b2)).
    rewrite (a2b_loop_sextet _ _ _ _ _ _ (sextet3_lt b2 b3)).
    rewrite (a2b_loop_sextet _ _ _ _ _ _ (sextet4_lt b3)).
    rewrite decode_byte1, decode_byte2, decode_byte3.
    rewrite IH. now rewrite <- !app_assoc.
Qed.

(** Every character of an encoding is ASCII and none is a comma. *)
Lemma b64encode_chars (data : bytes) :
  Forall (fun c => (c <? 128) = true /\ (c =? COMMA) = false) (b64encode data).
Proof.
  assert (Hs : forall v, v < 64 ->
               (table_b2a_base64 v <? 128) = true /\ (table_b2a_base64 v =? COMMA) = false)
    by (intros v Hv; split; [ now apply table_b2a_ascii | now apply table_b2a_not_comma ]).
  assert (Hp : (BASE64_PAD <? 128) = true /\ (BASE64_PAD =? COMMA) = false)
    by (split; reflexivity).
  induction data as [ | b1 | b1 b2 | b1 b2 b3 rest IH ] using group3_ind;
    cbn [b64encode].
  - constructor.
  - rewrite sextet2_tail.
    repeat constructor; try (apply Hs; first [ apply sextet1_lt | apply sextet2_lt ]).
  - rewrite sextet3_tail.
    repeat constructor;
      try (apply Hs; first [ apply sextet1_lt | apply sextet2_lt | apply sextet3_lt ]).
  - repeat (constructor; [ apply Hs;
      first [ apply sextet1_lt | apply sextet2_lt | apply sextet3_lt | apply sextet4_lt ] | ]).
    exact IH.
Qed.

Lemma b64encode_is_ascii (data : bytes) : is_ascii (b64encode data) = true.
Proof.
  unfold is_ascii. apply forallb_forall. intros c Hc.
  pose proof (b64encode_chars data) as H. rewrite Forall_forall in H.
  now apply H.
Qed.

Lemma b64encode_no_comma (data : bytes) : contains COMMA (b64encode data) = false.
Proof.
  unfold contains.
  pose proof (b64encode_chars data) as H.
  induction H as [ | c l [_ Hc] _ IH ]; [ reflexivity | ].
  cbn [existsb]. rewrite N.eqb_sym, Hc. exact IH.
Qed.

(** [b64decode] inverts [b64encode]. *)
Lemma b64decode_b64encode (data : bytes) : b64decode (b64encode data) = inr data.
Proof.
  unfold b64decode. rewrite b64encode_is_ascii.
  exact (a2b_loop_b64encode data []).
Qed.

End Base64Facts.

(** ** The media codec of the editing service *)

Module Codec.

Import QwenEdit Fields.
Local Open Scope list_scope.

(** The first field of a split is the text before the first separator. *)
Lemma split_head (sep : codepoint) (text : str) :
  exists fields, split sep text = before_first sep text :: fields.
Proof.
  induction text as [ | c rest [fields IH] ]; cbn -[N.eqb].
  - now exists [].
  - destruct (c =? sep)%N.
    + now exists (split sep rest).
    + rewrite IH. now exists fields.
Qed.

(** When the text contains a comma, the field of index 1 is the text
    between the first and the second comma. *)
Lemma split_field_1 (text : str) :
  contains COMMA text = true ->
  exists rest, Spec.after_first COMMA text = Some rest
               /\ index (split COMMA text) 1 = inr (before_first COMMA rest).
Proof.
  unfold contains.
  induction text as [ | c rest IH ]; cbn -[N.eqb COMMA]; [ discriminate | ].
  rewrite (N.eqb_sym COMMA c).
  destruct (c =? COMMA)%N eqn:Hc; cbn -[N.eqb COMMA].
  - intros _. exists rest. split; [ reflexivity | ].
    destruct (split_head COMMA rest) as [fields ->]. reflexivity.
  - intros H. destruct (IH H) as [rest' [Ha Hi]]. exists rest'. split; [ exact Ha | ].
    destruct (split_head COMMA rest) as [fields Hs]. rewrite Hs in Hi |- *.
    exact Hi.
Qed.

Lemma split_index_1 (text : str) :
  contains COMMA text = true ->
  index (split COMMA text) 1 = inr (second_field text).
Proof.
  intros H. destruct (split_field_1 text H) as [rest [Ha Hi]].
  unfold second_field. now rewrite Ha.
Qed.

Lemma after_first_none (text : str) :
  contains COMMA text = false -> Spec.after_first COMMA text = None.
Proof.
  unfold contains.
  induction text as [ | c rest IH ]; cbn -[N.eqb COMMA]; [ reflexivity | ].
  rewrite (N.eqb_sym COMMA c).
  destruct (c =? COMMA)%N; cbn -[N.eqb COMMA]; [ discriminate | exact IH ].
Qed.

Lemma second_field_no_comma (text : str) :
  contains COMMA text = false -> second_field text = text.
Proof. intros H. unfold second_field. now rewrite after_first_none. Qed.

Lemma before_first_no_comma (text : str) :
  contains COMMA text = false -> before_first COMMA text = text.
Proof.
  unfold contains.
  induction text as [ | c rest IH ]; cbn -[N.eqb COMMA]; [ reflexivity | ].
  rewrite (N.eqb_sym COMMA c).
  destruct (c =? COMMA)%N; cbn -[N.eqb COMMA]; [ discriminate | ].
  intros H. now rewrite IH.
Qed.

(** What [base64_to_image] hands to [b64decode]. *)
Lemma base64_to_image_unfold (pil : PIL) (text : str) :
  base64_to_image pil text =
  and_then (b64decode (second_field text)) (Image_open pil).
Proof.
  unfold base64_to_image.
  destruct (contains COMMA text) eqn:Hc.
  - rewrite (split_index_1 text Hc). reflexivity.
  - rewrite (second_field_no_comma text Hc). reflexivity.
Qed.

(** The format tag ends with the only comma of an encoded image. *)
Lemma second_field_tagged (payload : str) :
  contains COMMA payload = false ->
  second_field (lit "data:image/png;base64," ++ payload) = payload.
Proof.
  intros H. unfold second_field. cbn. now apply before_first_no_comma.
Qed.

(** C5.  Round trip of the codec: for an image that PIL can write as PNG,
    with PNG read back pixel-identically, [image_to_base64] yields the
    format tag followed by a payload, and [base64_to_image] succeeds on the
    tagged text and on the bare payload alike, each time with an image
    pixel-identical to the original. *)
Theorem codec_round_trip (pil : PIL)
    (lossless : forall image data,
        Image_save_png pil image = inr data ->
        exists image', Image_open pil data = inr image'
                       /\ raster pil image' = raster pil image)
    (image : Image pil) (data : bytes)
    (Hvalid : Image_save_png pil image = inr data) :
  exists payload,
    image_to_base64 pil image = inr (lit "data:image/png;base64," ++ payload)
    /\ (exists image',
          base64_to_image pil (lit "data:image/png;base64," ++ payload) = inr image'
          /\ raster pil image' = raster pil image)
    /\ (exists image',
          base64_to_image pil payload = inr image'
          /\ raster pil image' = raster pil image).
Proof.
  exists (b64encode data).
  destruct (lossless image data Hvalid) as [image' [Hopen Hsame]].
  pose proof (Base64Facts.b64encode_no_comma data) as Hcomma.
  split; [ | split ].
  - unfold image_to_base64. rewrite Hvalid. reflexivity.
  - exists image'. split; [ | exact Hsame ].
    rewrite base64_to_image_unfold, (second_field_tagged _ Hcomma).
    rewrite Base64Facts.b64decode_b64encode. exact Hopen.
  - exists image'. split; [ | exact Hsame ].
    rewrite base64_to_image_unfold, (second_field_no_comma _ Hcomma).
    rewrite Base64Facts.b64decode_b64encode. exact Hopen.
Qed.

Lemma demo_lossless (image : Image Demo.pil) (data : bytes) :
  Image_save_png Demo.pil image = inr data ->
  exists image', Image_open Demo.pil data = inr image'
                 /\ raster Demo.pil image' = raster Demo.pil image.
Proof.
  cbn. unfold Demo.open_bytes. destruct (Demo.signed image) eqn:Hs; [ | discriminate ].
  intros [= <-]. exists image. now rewrite Hs.
Qed.

(** The round trip on the sample image of the demonstration instance. *)
Lemma codec_round_trip_witness :
  exists payload,
    image_to_base64 Demo.pil Demo.sample = inr (lit "data:image/png;base64," ++ payload)
    /\ (exists image',
          base64_to_image Demo.pil (lit "data:image/png;base64," ++ payload) = inr image'
          /\ raster Demo.pil image' = raster Demo.pil Demo.sample)
    /\ (exists image',
          base64_to_image Demo.pil payload = inr image'
          /\ raster Demo.pil image' = raster Demo.pil Demo.sample).
Proof.
  apply (codec_round_trip Demo.pil demo_lossless Demo.sample Demo.sample).
  reflexivity.
Defined.


Lemma commas_after_first (text rest : str) :
  Spec.after_first COMMA text = Some rest -> commas text = S (commas rest).
Proof.
  unfold commas.
  induction text as [ | c l IH ]; cbn -[N.eqb COMMA]; [ discriminate | ].
  rewrite (N.eqb_sym COMMA c). destruct (c =? COMMA)%N; cbn -[N.eqb COMMA].
  - now intros [= ->].
  - exact IH.
Qed.

Lemma commas_zero (text : str) : commas text = 0%nat -> contains COMMA text = false.
Proof.
  unfold commas, contains.
  induction text as [ | c l IH ]; cbn -[N.eqb COMMA]; [ reflexivity | ].
  destruct (COMMA =? c)%N; cbn -[N.eqb COMMA]; [ discriminate | exact IH ].
Qed.

(** With at most one comma the two readings of the prefix agree. *)
Lemma second_field_one_comma (text : str) :
  (commas text <= 1)%nat -> second_field text = Spec.strip_prefix text.
Proof.
  intros H. unfold second_field, Spec.strip_prefix.
  destruct (Spec.after_first COMMA text) as [rest | ] eqn:Ha; [ | reflexivity ].
  apply commas_after_first in Ha.
  apply before_first_no_comma, commas_zero. lia.
Qed.

(** X22.  What [base64_to_image] reads.  It keeps the text between the
    first and the second comma (the whole text when it has no comma),
    reverses the text encoding of that field and parses the bytes as an
    image; it raises exactly when the field is not validly encoded or its
    bytes are not recognised as an image; and on a text with at most one
    comma it is the decoder of the specification. *)
Theorem base64_to_image_reads_second_field (pil : PIL) (text : str) :
  base64_to_image pil text
  = and_then (b64decode (second_field text)) (Image_open pil)
  /\ ((exists e, base64_to_image pil text = inl e)
      <-> ((exists e, b64decode (second_field text) = inl e)
           \/ (exists data e, b64decode (second_field text) = inr data
                              /\ Image_open pil data = inl e)))
  /\ ((commas text <= 1)%nat ->
      second_field text = Spec.strip_prefix text
      /\ base64_to_image pil text = Spec.decode pil text).
Proof.
  split; [ apply base64_to_image_unfold | split ].
  - rewrite base64_to_image_unfold. unfold and_then.
    destruct (b64decode (second_field text)) as [e | data].
    + split; [ intros _; left; now exists e | intros _; now exists e ].
    + split.
      * intros [e He]. right. now exists data, e.
      * intros [[e He] | [data' [e [Hd He]]]]; [ discriminate | ].
        injection Hd as <-. now exists e.
  - intros H. pose proof (second_field_one_comma text H) as Hf.
    split; [ exact Hf | ].
    rewrite base64_to_image_unfold, Hf. reflexivity.
Qed.

(** The statement on a tagged text of the demonstration instance. *)
Lemma base64_to_image_reads_second_field_witness :
  second_field (lit "data:image/png;base64,iVBORw0K") = Spec.strip_prefix (lit "data:image/png;base64,iVBORw0K")
  /\ base64_to_image Demo.pil (lit "data:image/png;base64,iVBORw0K")
     = Spec.decode Demo.pil (lit "data:image/png;base64,iVBORw0K").
Proof.
  apply (base64_to_image_reads_second_field Demo.pil (lit "data:image/png;base64,iVBORw0K")).
  vm_compute. apply le_n.
Defined.

End Codec.

(** ** Prompts *)

Module Prompts.

Import Terms.

Lemma lstrip_nil (s : str) : lstrip s = [] <-> whitespace_only s.
Proof.
  unfold whitespace_only. induction s as [ | c s IH ]; cbn [lstrip].
  - split; [ constructor | reflexivity ].
  - destruct (isspace c) eqn:Hc; split; intros H.
    + constructor; [ exact Hc | now apply IH ].
    + apply IH. now inversion H.
    + discriminate.
    + inversion H; congruence.
Qed.

Lemma lstrip_whitespace (s : str) : whitespace_only (lstrip s) -> whitespace_only s.
Proof.
  unfold whitespace_only. induction s as [ | c s IH ]; cbn [lstrip]; [ easy | ].
  destruct (isspace c) eqn:Hc; [ | easy ].
  intros H. constructor; [ exact Hc | now apply IH ].
Qed.

Lemma whitespace_rev (s : str) : whitespace_only (rev s) -> whitespace_only s.
Proof.
  unfold whitespace_only. rewrite !Forall_forall. intros H c Hc.
  apply H. now apply in_rev in Hc.
Qed.

Lemma strip_nil (s : str) : strip s = [] <-> whitespace_only s.
Proof.
  unfold strip, rstrip. split; intros H.
  - apply (f_equal (@rev codepoint)) in H. rewrite rev_involutive in H. cbn [rev] in H.
    apply lstrip_nil, whitespace_rev, lstrip_whitespace in H. exact H.
  - apply lstrip_nil in H. rewrite H. reflexivity.
Qed.

(** The guard of the handlers holds exactly for the prompts that are empty
    or made of whitespace only. *)
Lemma prompt_is_blank_iff (prompt : str) :
  prompt_is_blank prompt = true <-> whitespace_only prompt.
Proof.
  unfold prompt_is_blank. rewrite orb_true_iff. split.
  - intros [H | H].
    + destruct prompt; [ constructor | discriminate ].
    + apply strip_nil. destruct (strip prompt); [ reflexivity | discriminate ].
  - intros H. right. apply strip_nil in H. now rewrite H.
Qed.

Lemma prompt_not_blank (prompt : str) :
  ~ whitespace_only prompt -> prompt_is_blank prompt = false.
Proof.
  intros H. destruct (prompt_is_blank prompt) eqn:Hb; [ | reflexivity ].
  now apply prompt_is_blank_iff in Hb.
Qed.

End Prompts.

(** ** The generation service *)

Module FluxFacts.

Import FastAPI Flux Terms.
Local Open Scope Z_scope.

(** *** Validation of the body *)

Lemma Field_int_cases (name : string) (default lo hi : Z) (given : option Z) :
  (exists v, Field_int name default lo hi given = ([], v)
             /\ (given = None \/ (given = Some v /\ lo <= v <= hi)))
  \/ (exists e v, Field_int name default lo hi given = ([e], v)
                  /\ given = Some v /\ outside lo hi v).
Proof.
  unfold Field_int, outside. destruct given as [v | ].
  - destruct (Z.ltb_spec v lo).
    + right. exists {| loc := name; type := greater_than_equal |}, v. auto.
    + destruct (Z.ltb_spec hi v).
      * right. exists {| loc := name; type := less_than_equal |}, v. auto.
      * left. exists v. split; [ reflexivity | right; split; [ reflexivity | lia ] ].
  - left. exists default. auto.
Qed.

Lemma Field_float_cases (name : string) (default lo hi : Q) (given : option Q) :
  (exists v, Field_float name default lo hi given = ([], v)
             /\ (given = None \/ (given = Some v /\ (lo <= v)%Q /\ (v <= hi)%Q)))
  \/ (exists e v, Field_float name default lo hi given = ([e], v)
                  /\ given = Some v /\ outsideQ lo hi v).
Proof.
  unfold Field_float, outsideQ. destruct given as [v | ].
  - destruct (Qlt_le_dec v lo).
    + right. exists {| loc := name; type := greater_than_equal |}, v. auto.
    + destruct (Qlt_le_dec hi v).
      * right. exists {| loc := name; type := less_than_equal |}, v. auto.
      * left. exists v. auto.
  - left. exists default. auto.
Qed.

Lemma Field_required_str_cases (name : string) (given : option str) :
  (exists v, Field_required_str name given = ([], v) /\ given = Some v /\ v <> [])
  \/ (exists e v, Field_required_str name given = ([e], v)
                  /\ (given = None \/ given = Some [])).
Proof.
  unfold Field_required_str. destruct given as [ [ | c v ] | ]; cbn.
  - right. eexists _, _. auto.
  - left. exists (c :: v). repeat split; congruence.
  - right. eexists _, _. auto.
Qed.

(** A body is accepted exactly when the prompt is given and not empty and
    every bounded field that is given lies in its range. *)
Lemma validate_cases (b : Body) :
  (exists errors, validate b = inl errors /\ errors <> []
                  /\ (out_of_range b \/ body_prompt b = None \/ body_prompt b = Some []))
  \/ (exists request, validate b = inr request
                      /\ body_prompt b = Some (prompt request)
                      /\ prompt request <> []
                      /\ ~ out_of_range b).
Proof.
  unfold validate, out_of_range.
  destruct (Field_required_str_cases "prompt" (body_prompt b))
    as [ [p [-> [Hp Hp']]] | [e1 [p [-> Hp]]] ];
  destruct (Field_int_cases "height" 1024 256 2048 (body_height b))
    as [ [h [-> Hh]] | [e2 [h [-> [Hh Hh']]]] ];
  destruct (Field_int_cases "width" 1024 256 2048 (body_width b))
    as [ [w [-> Hw]] | [e3 [w [-> [Hw Hw']]]] ];
  destruct (Field_float_cases "guidance_scale" (35 # 10) 0 20 (body_guidance_scale b))
    as [ [g [-> Hg]] | [e4 [g [-> [Hg Hg']]]] ];
  destruct (Field_int_cases "num_inference_steps" 50 10 100 (body_num_inference_steps b))
    as [ [n [-> Hn]] | [e5 [n [-> [Hn Hn']]]] ];
  destruct (Field_int_cases "max_sequence_length" 512 128 1024 (body_max_sequence_length b))
    as [ [m [-> Hm]] | [e6 [m [-> [Hm Hm']]]] ];
  cbn [app];
  try (left; eexists; split; [ reflexivity | split; [ discriminate | ] ];
       first [ right; exact Hp
             | left; left; eexists; split; eassumption
             | left; right; left; eexists; split; eassumption
             | left; right; right; left; eexists; split; eassumption
             | left; right; right; right; left; eexists; split; eassumption
             | left; right; right; right; right; eexists; split; eassumption ]).
  right. eexists. split; [ reflexivity | ]. cbn. split; [ exact Hp | split; [ exact Hp' | ] ].
  unfold outside, outsideQ.
  intros [ [v [Hv Ho]] | [ [v [Hv Ho]] | [ [v [Hv Ho]] | [ [v [Hv Ho]] | [v [Hv Ho]] ] ] ] ].
  - destruct Hh as [Hh | [Hh ?]]; rewrite Hh in Hv; [ discriminate | ].
    injection Hv as <-. lia.
  - destruct Hw as [Hw | [Hw ?]]; rewrite Hw in Hv; [ discriminate | ].
    injection Hv as <-. lia.
  - destruct Hg as [Hg | [Hg [? ?]]]; rewrite Hg in Hv; [ discriminate | ].
    injection Hv as <-. destruct Ho as [Ho | Ho]; lra.
  - destruct Hn as [Hn | [Hn ?]]; rewrite Hn in Hv; [ discriminate | ].
    injection Hv as <-. lia.
  - destruct Hm as [Hm | [Hm ?]]; rewrite Hm in Hv; [ discriminate | ].
    injection Hv as <-. lia.
Qed.

Lemma Field_int_in_range (name : string) (default lo hi v : Z) :
  lo <= v <= hi -> Field_int name default lo hi (Some v) = ([], v).
Proof.
  intros H. unfold Field_int.
  destruct (Z.ltb_spec v lo); [ lia | ]. destruct (Z.ltb_spec hi v); [ lia | reflexivity ].
Qed.

Lemma Field_float_in_range (name : string) (default lo hi v : Q) :
  (lo <= v)%Q -> (v <= hi)%Q -> Field_float name default lo hi (Some v) = ([], v).
Proof.
  intros H1 H2. unfold Field_float.
  destruct (Qlt_le_dec v lo); [ lra | ]. destruct (Qlt_le_dec hi v); [ lra | reflexivity ].
Qed.

(** *** The handler, case by case *)

Section Handler.

Variable torch : Torch.
Variable pil : PIL.
Variable pipeline : PipelineArgs torch -> res (list (Image pil)).

Lemma image_generation_blank (request : ImageGenerationRequest)
    (w : World (GeneratorState torch) (PipelineArgs torch)) :
  prompt_is_blank (prompt request) = true ->
  image_generation torch pil pipeline request w
  = (inl (HTTPException 400 "请输入提示词"), w).
Proof.
  intros H. unfold image_generation, try_except. rewrite H. reflexivity.
Qed.

Lemma image_generation_run (request : ImageGenerationRequest)
    (w : World (GeneratorState torch) (PipelineArgs torch)) :
  prompt_is_blank (prompt request) = false ->
  image_generation torch pil pipeline request w =
  match seeded torch (seed request) with
  | inl e => (inl (failure e), w)
  | inr g =>
    match pipeline (generation_args torch request g) with
    | inl e => (inl (failure e), advance w 1 [generation_args torch request g])
    | inr images =>
      match index images 0 with
      | inl e => (inl (failure e), advance w 1 [generation_args torch request g])
      | inr output_image =>
        match image_to_base64 pil output_image with
        | inl e => (inl (failure e), advance w 3 [generation_args torch request g])
        | inr output_base64 =>
          let n := clock_reads w in
          let inference_duration := float_sub (clock w (S n)) (clock w n) in
          let base64_duration := float_sub (clock w (S (S (S n)))) (clock w (S (S n))) in
          (inr {| status := "success";
                  message := "推理完成！";
                  result :=
                     {| image := output_base64;
                        inference_time_seconds := round2 inference_duration;
                        encoding_time_seconds := round2 base64_duration;
                        total_time_seconds :=
                          round2 (float_add inference_duration base64_duration) |} |},
           advance w 4 [generation_args torch request g])
        end
      end
    end
  end.
Proof.
  intros H. unfold image_generation, try_except. rewrite H.
  unfold call_pipeline.
  unfold bind, lift, time_time, ret, raise, failure, advance, generation_args.
  destruct (seeded torch (seed request)) as [e | g]; [ reflexivity | ].
  cbv beta iota.
  destruct (pipeline _) as [e | images]; [ reflexivity | ].
  destruct (index images 0) as [e | output_image]; [ reflexivity | ].
  destruct (image_to_base64 pil output_image) as [e | output_base64]; reflexivity.
Qed.

(** A request that passed validation is answered with the content or with
    a 500, and the pipeline is called at most once, with a generator in the
    state the seed of the request gives. *)
Lemma image_generation_outcome (request : ImageGenerationRequest)
    (w : World (GeneratorState torch) (PipelineArgs torch)) :
  prompt_is_blank (prompt request) = false ->
  exists reads calls,
    snd (image_generation torch pil pipeline request w) = advance w reads calls
    /\ ((exists content,
           fst (image_generation torch pil pipeline request w) = inr content)
        \/ (exists e,
              fst (image_generation torch pil pipeline request w) = inl (failure e)))
    /\ (calls = []
        \/ exists g, seeded torch (seed request) = inr g
                     /\ calls = [generation_args torch request g]).
Proof.
  intros H. rewrite (image_generation_run request w H).
  destruct (seeded torch (seed request)) as [e | g].
  { exists 0%nat, []. cbn [fst snd]. unfold advance. cbn [Nat.add].
    rewrite app_nil_r. destruct w. eauto 6. }
  destruct (pipeline _) as [e | images]; [ eexists _, _; cbn [fst snd]; eauto 8 | ].
  destruct (index images 0) as [e | output_image]; [ eexists _, _; cbn [fst snd]; eauto 8 | ].
  destruct (image_to_base64 pil output_image) as [e | output_base64];
    eexists _, _; cbn [fst snd]; eauto 8.
Qed.

Lemma post_generations_unfold (b : Body)
    (w : World (GeneratorState torch) (PipelineArgs torch)) :
  post_generations torch pil pipeline b w =
  match validate b with
  | inl errors => (ErrorResponse 422 (detail_errors errors), w)
  | inr request =>
      match image_generation torch pil pipeline request w with
      | (inr content, w') => (JSONResponse content, w')
      | (inl (HTTPException sc d), w') => (ErrorResponse sc (detail_message d), w')
      | (inl (Raised _), w') =>
          (ErrorResponse 500 (detail_message "Internal Server Error"), w')
      end
  end.
Proof. reflexivity. Qed.

Lemma post_generations_blank (b : Body) (request : ImageGenerationRequest)
    (w : World (GeneratorState torch) (PipelineArgs torch)) :
  validate b = inr request ->
  prompt_is_blank (prompt request) = true ->
  post_generations torch pil pipeline b w
  = (ErrorResponse 400 (detail_message "请输入提示词"), w).
Proof.
  intros Hv Hb. rewrite post_generations_unfold, Hv.
  now rewrite (image_generation_blank request w Hb).
Qed.

Lemma post_generations_accepted (b : Body) (request : ImageGenerationRequest)
    (w : World (GeneratorState torch) (PipelineArgs torch)) :
  validate b = inr request ->
  prompt_is_blank (prompt request) = false ->
  (exists content,
      fst (post_generations torch pil pipeline b w) = JSONResponse content)
  \/ (exists e,
        fst (post_generations torch pil pipeline b w)
        = ErrorResponse 500 (detail_message ("推理出错: " ++ str_of_exn (Raised e)))).
Proof.
  intros Hv Hb. rewrite post_generations_unfold, Hv.
  destruct (image_generation_outcome request w Hb) as [reads [calls [_ [H _]]]].
  destruct (image_generation torch pil pipeline request w) as [[e | content] w'];
    cbn [fst] in *.
  - destruct H as [[c Hc] | [e' He]]; [ discriminate | ].
    injection He as ->. right. now exists e'.
  - left. now exists content.
Qed.

End Handler.

End FluxFacts.

(** ** Rounding to two decimals *)

Module Rounding.

Local Open Scope Q_scope.

(** [round_half_even x] is within one half of [x]. *)
Lemma round_half_even_near (x : Q) :
  inject_Z (round_half_even x) - x <= 1 # 2
  /\ x - inject_Z (round_half_even x) <= 1 # 2.
Proof.
  unfold round_half_even.
  pose proof (Qfloor_le x) as Hlo. pose proof (Qlt_floor x) as Hhi.
  rewrite inject_Z_plus in Hhi. change (inject_Z 1) with 1 in Hhi.
  destruct (Qcompare_spec (x - inject_Z (Qfloor x)) (1 # 2)) as [He | Hl | Hg].
  - destruct (Z.even (Qfloor x)).
    + split; lra.
    + rewrite inject_Z_plus. change (inject_Z 1) with 1. split; lra.
  - split; lra.
  - rewrite inject_Z_plus. change (inject_Z 1) with 1. split; lra.
Qed.

Lemma round_half_even_nonneg (x : Q) : 0 <= x -> (0 <= round_half_even x)%Z.
Proof.
  intros Hx. unfold round_half_even.
  assert (Hf : (0 <= Qfloor x)%Z).
  { change 0%Z with (Qfloor 0). now apply Qfloor_resp_le. }
  destruct (Qcompare (x - inject_Z (Qfloor x)) (1 # 2)); [ destruct (Z.even _) | | ]; lia.
Qed.

Lemma hundredths (z : Z) : z # 100 == inject_Z z * (1 # 100).
Proof. unfold Qeq, inject_Z. cbn. lia. Qed.

(** [round(x, 2)] of a non-negative duration is non-negative. *)
Lemma round2_nonneg (x : Q) : 0 <= x -> 0 <= round2 x.
Proof.
  intros Hx. unfold round2. rewrite (hundredths (round_half_even (x * 100))).
  assert (H : (0 <= round_half_even (x * 100))%Z)
    by (apply round_half_even_nonneg; lra).
  rewrite Zle_Qle in H. change (inject_Z 0) with 0 in H. lra.
Qed.

(** The rounded total differs from the sum of the rounded parts by at most
    one hundredth. *)
Lemma round2_sum (a b : Q) :
  Qabs (round2 (a + b) - (round2 a + round2 b)) <= 1 # 100.
Proof.
  unfold round2.
  destruct (round_half_even_near (a * 100)) as [Ha1 Ha2].
  destruct (round_half_even_near (b * 100)) as [Hb1 Hb2].
  destruct (round_half_even_near ((a + b) * 100)) as [Hs1 Hs2].
  set (A := round_half_even (a * 100)) in *.
  set (B := round_half_even (b * 100)) in *.
  set (S := round_half_even ((a + b) * 100)) in *.
  rewrite (hundredths A), (hundredths B), (hundredths S).
  assert (Hup : (S - A - B <= 1)%Z).
  { assert (H : (2 * (S - A - B) <= 3)%Z); [ | lia ].
    rewrite Zle_Qle. rewrite inject_Z_mult. unfold Zminus.
    rewrite !inject_Z_plus, !inject_Z_opp.
    change (inject_Z 2) with 2. change (inject_Z 3) with 3. lra. }
  assert (Hdown : (-1 <= S - A - B)%Z).
  { assert (H : (- 3 <= 2 * (S - A - B))%Z); [ | lia ].
    rewrite Zle_Qle. rewrite inject_Z_mult. unfold Zminus.
    rewrite !inject_Z_plus, !inject_Z_opp.
    change (inject_Z 2) with 2. change (inject_Z (-3)) with (-3). lra. }
  rewrite Zle_Qle in Hup, Hdown. unfold Zminus in Hup, Hdown.
  rewrite !inject_Z_plus, !inject_Z_opp in Hup, Hdown.
  change (inject_Z 1) with 1 in Hup. change (inject_Z (-1)) with (-1) in Hdown.
  apply Qabs_Qle_condition. split; lra.
Qed.

(** *** Rounding to a [float] *)

Lemma round_to_double_nonneg (x : Q) : 0 <= x -> 0 <= round_to_double x.
Proof.
  intros Hx. unfold round_to_double.
  destruct (Qnum x); [ lra | | ];
    cbv zeta; set (e := Z.max _ _);
    (assert (Hp : 0 < 2 ^ e) by (apply Qpower_0_lt; lra));
    (assert (Hm : (0 <= round_half_even (x / 2 ^ e))%Z)
      by (apply round_half_even_nonneg; apply Qle_shift_div_l; [ exact Hp | lra ]));
    rewrite Zle_Qle in Hm; change (inject_Z 0) with 0 in Hm;
    apply Qmult_le_0_compat; [ exact Hm | lra | exact Hm | lra ].
Qed.

(** Below [2 ^ 45] the leading bit has an exponent of at most 45. *)
Lemma ilog2_small (x : Q) :
  0 < x -> x <= inject_Z (2 ^ 45) -> (ilog2 x <= 45)%Z.
Proof.
  intros Hpos Hx. unfold ilog2.
  assert (Hl : (Z.log2 (Qnum x) - Z.log2 (Z.pos (Qden x)) <= 45)%Z).
  { unfold Qlt in Hpos. unfold Qle in Hx. cbn in Hpos, Hx.
    assert (Hn : (0 < Qnum x)%Z) by lia.
    pose proof (Z.log2_spec (Z.pos (Qden x)) (Pos2Z.is_pos _)) as [_ Hd].
    pose proof (Z.log2_nonneg (Z.pos (Qden x))) as Hd0.
    assert (Hlt : (Qnum x < 2 ^ (46 + Z.log2 (Z.pos (Qden x))))%Z).
    { rewrite Z.pow_add_r by lia.
      replace (Z.succ (Z.log2 (Z.pos (Qden x)))) with (1 + Z.log2 (Z.pos (Qden x)))%Z in Hd
        by lia.
      rewrite Z.pow_add_r in Hd by lia. change (2 ^ 1)%Z with 2%Z in Hd.
      change (2 ^ 46)%Z with (2 * 2 ^ 45)%Z. nia. }
    apply Z.log2_lt_pow2 in Hlt; [ lia | exact Hn ]. }
  destruct (Qle_bool _ x); lia.
Qed.

(** Below [2 ^ 45] a [float] is within [2 ^ -8] of the number it stands
    for: the last place of its significand is [2 ^ -7] at most. *)
Lemma round_to_double_near (x : Q) :
  Qabs x <= inject_Z (2 ^ 45) -> Qabs (round_to_double x - x) <= 1 # 256.
Proof.
  intros Hx. unfold round_to_double.
  destruct (Qnum x) as [ | n | n ] eqn:Hn.
  { assert (H0 : x == 0) by (unfold Qeq; cbn; rewrite Hn; reflexivity).
    rewrite H0. apply Qabs_Qle_condition. split; lra. }
  all: cbv zeta; set (e := Z.max _ _);
    (assert (Hpos : 0 < Qabs x)
      by (destruct x as [xn xd]; cbn in Hn; subst xn; reflexivity));
    (assert (He : (e <= -7)%Z)
      by (pose proof (ilog2_small (Qabs x) Hpos Hx); subst e; lia));
    (assert (Hp : 0 < 2 ^ e) by (apply Qpower_0_lt; lra));
    (assert (Hp' : 2 ^ e <= 1 # 128)
      by (change (1 # 128) with (2 ^ (-7));
          apply Qpower_le_compat_l; [ exact He | lra ]));
    destruct (round_half_even_near (x / 2 ^ e)) as [H1 H2];
    set (m := inject_Z (round_half_even (x / 2 ^ e))) in *;
    (assert (Hy : x == (x / 2 ^ e) * 2 ^ e) by (field; lra));
    set (y := x / 2 ^ e) in *; set (p := 2 ^ e) in *;
    apply Qabs_Qle_condition; split; rewrite Hy; nra.
Qed.

(** [round(x, 2)] is a number of hundredths within half a hundredth of
    [x]. *)
Lemma round2_near (x : Q) : Qabs (round2 x - x) <= 1 # 200.
Proof.
  unfold round2.
  destruct (round_half_even_near (x * 100)) as [H1 H2].
  rewrite (hundredths (round_half_even (x * 100))).
  apply Qabs_Qle_condition. split; lra.
Qed.

(** The rounded value of a computed sum differs from the sum of the
    rounded parts by at most one hundredth, when the computed sum is
    within [2 ^ -8] of the sum. *)
Lemma round2_sum_near (s a b : Q) :
  Qabs (s - (a + b)) <= 1 # 256 ->
  Qabs (round2 s - (round2 a + round2 b)) <= 1 # 100.
Proof.
  intros Hs. apply Qabs_Qle_condition in Hs. destruct Hs as [Hs1 Hs2].
  unfold round2.
  destruct (round_half_even_near (a * 100)) as [Ha1 Ha2].
  destruct (round_half_even_near (b * 100)) as [Hb1 Hb2].
  destruct (round_half_even_near (s * 100)) as [Hc1 Hc2].
  set (A := round_half_even (a * 100)) in *.
  set (B := round_half_even (b * 100)) in *.
  set (S := round_half_even (s * 100)) in *.
  rewrite (hundredths A), (hundredths B), (hundredths S).
  assert (Hup : (S - A - B <= 1)%Z).
  { assert (H : (256 * (S - A - B) <= 484)%Z); [ | lia ].
    rewrite Zle_Qle. rewrite inject_Z_mult. unfold Zminus.
    rewrite !inject_Z_plus, !inject_Z_opp.
    change (inject_Z 256) with 256. change (inject_Z 484) with 484. lra. }
  assert (Hdown : (-1 <= S - A - B)%Z).
  { assert (H : (- 484 <= 256 * (S - A - B))%Z); [ | lia ].
    rewrite Zle_Qle. rewrite inject_Z_mult. unfold Zminus.
    rewrite !inject_Z_plus, !inject_Z_opp.
    change (inject_Z 256) with 256. change (inject_Z (-484)) with (-484). lra. }
  rewrite Zle_Qle in Hup, Hdown. unfold Zminus in Hup, Hdown.
  rewrite !inject_Z_plus, !inject_Z_opp in Hup, Hdown.
  change (inject_Z 1) with 1 in Hup. change (inject_Z (-1)) with (-1) in Hdown.
  apply Qabs_Qle_condition. split; lra.
Qed.

End Rounding.

(** ** The claims on the generation service *)

Module Generation.

Import FastAPI Flux Terms FluxFacts.
Local Open Scope Z_scope.

(** C3.  Bounds enforcement.  A generation request with a bounded field
    outside its range (height or width outside 256..2048, guidance scale
    outside 0..20, steps outside 10..100, maximal sequence length outside
    128..1024) or with an empty or whitespace-only prompt is rejected as
    invalid, with a client-error response and nothing else done (the world,
    and with it the record of pipeline calls, is unchanged); a request whose
    bounded fields all sit on a boundary value, with a prompt that is not
    blank, passes validation: the model is built with these very values and
    the response is not a validation error. *)
Theorem generation_bounds_enforced (torch : Torch) (pil : PIL)
    (pipeline : PipelineArgs torch -> res (list (Image pil))) :
  (forall (b : Body) (w : World (GeneratorState torch) (PipelineArgs torch)),
      out_of_range b \/ blank_prompt b ->
      exists status_code detail,
        post_generations torch pil pipeline b w = (ErrorResponse status_code detail, w)
        /\ (status_code = 422 \/ status_code = 400))
  /\ (forall (p : str) (h wd : Z) (g : Q) (n m : Z) (s : option Z)
             (w : World (GeneratorState torch) (PipelineArgs torch)),
      ~ whitespace_only p ->
      h = 256 \/ h = 2048 ->
      wd = 256 \/ wd = 2048 ->
      (g == 0)%Q \/ (g == 20)%Q ->
      n = 10 \/ n = 100 ->
      m = 128 \/ m = 1024 ->
      let b := {| body_prompt := Some p; body_height := Some h; body_width := Some wd;
                  body_guidance_scale := Some g; body_num_inference_steps := Some n;
                  body_max_sequence_length := Some m; body_seed := s |} in
      validate b
      = inr {| prompt := p; height := h; width := wd; guidance_scale := g;
               num_inference_steps := n; max_sequence_length := m;
               seed := Field_default 0 s |}
      /\ status_code_of (fst (post_generations torch pil pipeline b w)) <> 422
      /\ status_code_of (fst (post_generations torch pil pipeline b w)) <> 400).
Proof.
  split.
  - intros b w H.
    destruct (validate_cases b)
      as [ [errors [Hv _]] | [request [Hv [Hp [Hne Hin]]]] ].
    + exists 422, (detail_errors errors). split; [ | now left ].
      rewrite post_generations_unfold, Hv. reflexivity.
    + destruct H as [Hout | [p [Hp' Hws]]]; [ contradiction | ].
      rewrite Hp in Hp'. injection Hp' as <-.
      apply Prompts.prompt_is_blank_iff in Hws.
      exists 400, (detail_message "请输入提示词"). split; [ | now right ].
      now apply post_generations_blank with (request := request).
  - intros p h wd g n m s w Hp Hh Hw Hg Hn Hm b.
    assert (Hv : validate b
                 = inr {| prompt := p; height := h; width := wd; guidance_scale := g;
                          num_inference_steps := n; max_sequence_length := m;
                          seed := Field_default 0 s |}).
    { unfold validate, b. cbn [body_prompt body_height body_width body_guidance_scale
                                body_num_inference_steps body_max_sequence_length body_seed].
      assert (Hpne : Field_required_str "prompt" (Some p) = ([], p)).
      { destruct p; [ exfalso; apply Hp; constructor | reflexivity ]. }
      rewrite Hpne.
      rewrite (Field_int_in_range "height" 1024 256 2048 h) by lia.
      rewrite (Field_int_in_range "width" 1024 256 2048 wd) by lia.
      rewrite (Field_float_in_range "guidance_scale" (35 # 10) 0 20 g)
        by (destruct Hg as [Hg | Hg]; lra).
      rewrite (Field_int_in_range "num_inference_steps" 50 10 100 n) by lia.
      rewrite (Field_int_in_range "max_sequence_length" 512 128 1024 m) by lia.
      reflexivity. }
    split; [ exact Hv | ].
    pose proof (Prompts.prompt_not_blank p Hp) as Hb.
    destruct (post_generations_accepted torch pil pipeline b _ w Hv Hb)
      as [ [content ->] | [e ->] ]; cbn; split; discriminate.
Qed.

(** A body with a height below the range is refused with 422, one on the
    boundaries is served, in the demonstration instance. *)
Lemma generation_bounds_enforced_witness :
  (exists status_code detail,
      post_generations Demo.torch Demo.pil Demo.flux_pipeline
        {| body_prompt := Some (lit "a red circle"); body_height := Some 255;
           body_width := None; body_guidance_scale := None;
           body_num_inference_steps := None; body_max_sequence_length := None;
           body_seed := None |} Demo.world0
      = (ErrorResponse status_code detail, Demo.world0)
      /\ (status_code = 422 \/ status_code = 400))
  /\ status_code_of
       (fst (post_generations Demo.torch Demo.pil Demo.flux_pipeline
               {| body_prompt := Some (lit "a red circle"); body_height := Some 256;
                  body_width := Some 2048; body_guidance_scale := Some 0%Q;
                  body_num_inference_steps := Some 100;
                  body_max_sequence_length := Some 128;
                  body_seed := Some 42 |} Demo.world0)) <> 422.
Proof.
  destruct (generation_bounds_enforced Demo.torch Demo.pil Demo.flux_pipeline)
    as [Hreject Haccept].
  split.
  - apply Hreject. left. left. exists 255. split; [ reflexivity | left; lia ].
  - apply (Haccept (lit "a red circle") 256 2048 0%Q 100 128 (Some 42) Demo.world0).
    + intros H. inversion H as [ | c l Hc _ ]. discriminate Hc.
    + now left.
    + now right.
    + left. reflexivity.
    + now right.
    + now left.
Defined.

(** C4, as stated, fails: a body whose height lies below the range is
    answered with 422, not with 400. *)
Lemma out_of_range_is_not_400 :
  fst (post_generations Demo.torch Demo.pil Demo.flux_pipeline
         {| body_prompt := Some (lit "a red circle"); body_height := Some 100;
            body_width := None; body_guidance_scale := None;
            body_num_inference_steps := None; body_max_sequence_length := None;
            body_seed := None |} Demo.world0)
  = ErrorResponse 422
      (detail_errors [ {| loc := "height"; type := greater_than_equal |} ])
  /\ 422 <> 400.
Proof. split; [ vm_compute; reflexivity | discriminate ]. Qed.

(** C4, amended.  For every generation request: a violation of a declared
    field constraint (a bounded field out of range, a missing or empty
    prompt) is answered with 422 and the list of violations; a
    whitespace-only prompt of a body that satisfies the constraints is
    answered with 400 and a message; in both cases nothing else is done.
    Every other request is answered with the content or with a 500 and a
    message, and a failure of the pipeline gives that 500 with the message
    of the exception.  So a validation failure is always a 4xx and a failure
    of the engine never is. *)
Theorem generation_failures_classified (torch : Torch) (pil : PIL)
    (pipeline : PipelineArgs torch -> res (list (Image pil)))
    (b : Body) (w : World (GeneratorState torch) (PipelineArgs torch)) :
  (out_of_range b \/ body_prompt b = None \/ body_prompt b = Some [] ->
   exists errors,
     errors <> []
     /\ post_generations torch pil pipeline b w
        = (ErrorResponse 422 (detail_errors errors), w))
  /\ (forall request,
        validate b = inr request ->
        whitespace_only (prompt request) ->
        post_generations torch pil pipeline b w
        = (ErrorResponse 400 (detail_message "请输入提示词"), w))
  /\ (forall request,
        validate b = inr request ->
        ~ whitespace_only (prompt request) ->
        (exists content,
            fst (post_generations torch pil pipeline b w) = JSONResponse content)
        \/ (exists e,
              fst (post_generations torch pil pipeline b w)
              = ErrorResponse 500
                  (detail_message ("推理出错: " ++ str_of_exn (Raised e)))))
  /\ (forall request g e,
        validate b = inr request ->
        ~ whitespace_only (prompt request) ->
        seeded torch (seed request) = inr g ->
        pipeline (generation_args torch request g) = inl e ->
        fst (post_generations torch pil pipeline b w)
        = ErrorResponse 500
            (detail_message ("推理出错: " ++ str_of_exn (Raised e)))).
Proof.
  split; [ | split; [ | split ] ].
  - intros H.
    destruct (validate_cases b)
      as [ [errors [Hv [Hne _]]] | [request [Hv [Hp [Hne Hin]]]] ].
    + exists errors. split; [ exact Hne | ].
      rewrite post_generations_unfold, Hv. reflexivity.
    + exfalso. destruct H as [H | [H | H]]; [ contradiction | | ];
        rewrite Hp in H; [ discriminate | ].
      injection H as H. contradiction.
  - intros request Hv Hws. apply Prompts.prompt_is_blank_iff in Hws.
    now apply post_generations_blank with (request := request).
  - intros request Hv Hws.
    apply post_generations_accepted with (request := request);
      [ exact Hv | now apply Prompts.prompt_not_blank ].
  - intros request g e Hv Hws Hg He.
    rewrite post_generations_unfold, Hv.
    rewrite (image_generation_run torch pil pipeline request w
               (Prompts.prompt_not_blank _ Hws)).
    rewrite Hg, He. reflexivity.
Qed.

(** A failing pipeline is reported with 500 and its message. *)
Lemma generation_failures_classified_witness :
  fst (post_generations Demo.torch Demo.pil Demo.failing_pipeline
         {| body_prompt := Some (lit "a red circle"); body_height := None;
            body_width := None; body_guidance_scale := None;
            body_num_inference_steps := None; body_max_sequence_length := None;
            body_seed := Some 42 |} Demo.world0)
  = ErrorResponse 500 (detail_message "推理出错: CUDA out of memory").
Proof.
  refine (proj2 (proj2 (proj2
            (generation_failures_classified Demo.torch Demo.pil Demo.failing_pipeline
               {| body_prompt := Some (lit "a red circle"); body_height := None;
                  body_width := None; body_guidance_scale := None;
                  body_num_inference_steps := None; body_max_sequence_length := None;
                  body_seed := Some 42 |} Demo.world0)))
            {| prompt := lit "a red circle"; height := 1024; width := 1024;
               guidance_scale := 35 # 10; num_inference_steps := 50;
               max_sequence_length := 512; seed := 42 |}
            42 (Exception "RuntimeError" "CUDA out of memory") _ _ _ _).
  - reflexivity.
  - intros H. inversion H as [ | c l Hc _ ]. discriminate Hc.
  - reflexivity.
  - reflexivity.
Defined.

(** C9, as stated, fails: the durations are differences of readings of
    [time.time()], which is the wall clock and may be set back.  On a
    clock that reads 1, 0.875, 3 and 2.625, a generation call succeeds and
    its three timing fields are negative. *)
Lemma wall_clock_set_back_gives_negative_times :
  fst (image_generation Demo.torch Demo.pil Demo.flux_pipeline
         {| prompt := lit "a red circle"; height := 512; width := 512;
            guidance_scale := 35 # 10; num_inference_steps := 20;
            max_sequence_length := 256; seed := 42 |} DemoMore.stepping_back)
  = inr {| status := "success";
           message := "推理完成！";
           result := {| image := lit "data:image/png;base64,iVBORw0K";
                        inference_time_seconds := (-12) # 100;
                        encoding_time_seconds := (-38) # 100;
                        total_time_seconds := (-50) # 100 |} |}
  /\ ((-12) # 100 < 0)%Q /\ ((-38) # 100 < 0)%Q /\ ((-50) # 100 < 0)%Q.
Proof. repeat split; vm_compute; reflexivity. Qed.

(** C9, amended.  Timing of a successful generation call.  The inference
    duration is the [float] difference of the two clock readings around
    the pipeline call, the encoding duration that of the two readings
    around the encoding, so the two are measured separately, each within
    [2 ^ -8] of the exact difference of its readings; the response
    carries each of them and their [float] sum, every one rounded to two
    decimals: a number of hundredths within half a hundredth of the value
    it rounds.  A field is non-negative when the clock did not go back
    between the readings it comes from.  And the total differs from the
    sum of the other two fields by at most one hundredth.  Durations are
    taken to be below [2 ^ 45] seconds, where a [float] still resolves
    hundredths. *)
Theorem generation_timing (torch : Torch) (pil : PIL)
    (pipeline : PipelineArgs torch -> res (list (Image pil)))
    (request : ImageGenerationRequest)
    (w w' : World (GeneratorState torch) (PipelineArgs torch))
    (content : GenerationContent)
    (Hrun : image_generation torch pil pipeline request w = (inr content, w'))
    (Hshort :
       (Qabs (float_sub (clock w (clock_reads w + 1)) (clock w (clock_reads w))
              + float_sub (clock w (clock_reads w + 3)) (clock w (clock_reads w + 2)))
        <= inject_Z (2 ^ 45))%Q) :
  let n := clock_reads w in
  let inference_duration := float_sub (clock w (n + 1)) (clock w n) in
  let base64_duration := float_sub (clock w (n + 3)) (clock w (n + 2)) in
  let r := result content in
  (inference_time_seconds r = round2 inference_duration
   /\ encoding_time_seconds r = round2 base64_duration
   /\ total_time_seconds r = round2 (float_add inference_duration base64_duration))
  /\ ((Qabs (clock w (n + 1) - clock w n) <= inject_Z (2 ^ 45) ->
       Qabs (inference_duration - (clock w (n + 1) - clock w n)) <= 1 # 256)
      /\ (Qabs (clock w (n + 3) - clock w (n + 2)) <= inject_Z (2 ^ 45) ->
          Qabs (base64_duration - (clock w (n + 3) - clock w (n + 2))) <= 1 # 256))%Q
  /\ ((exists i e t : Z,
          inference_time_seconds r = i # 100
          /\ encoding_time_seconds r = e # 100
          /\ total_time_seconds r = t # 100)
      /\ Qabs (inference_time_seconds r - inference_duration) <= 1 # 200
      /\ Qabs (encoding_time_seconds r - base64_duration) <= 1 # 200
      /\ Qabs (total_time_seconds r - (inference_duration + base64_duration)) <= 1 # 100)%Q
  /\ ((clock w n <= clock w (n + 1) -> 0 <= inference_time_seconds r)
      /\ (clock w (n + 2) <= clock w (n + 3) -> 0 <= encoding_time_seconds r)
      /\ (clock w n <= clock w (n + 1) -> clock w (n + 2) <= clock w (n + 3) ->
          0 <= total_time_seconds r))%Q
  /\ (Qabs (total_time_seconds r
            - (inference_time_seconds r + encoding_time_seconds r)) <= 1 # 100)%Q.
Proof.
  intros n inference_duration base64_duration r.
  assert (Hr : inference_time_seconds r = round2 inference_duration
               /\ encoding_time_seconds r = round2 base64_duration
               /\ total_time_seconds r
                  = round2 (float_add inference_duration base64_duration)).
  { destruct (prompt_is_blank (prompt request)) eqn:Hblank.
    - rewrite (image_generation_blank torch pil pipeline request w Hblank) in Hrun.
      discriminate.
    - rewrite (image_generation_run torch pil pipeline request w Hblank) in Hrun.
      destruct (seeded torch (seed request)) as [e | g]; [ discriminate | ].
      destruct (pipeline _) as [e | images]; [ discriminate | ].
      destruct (index images 0) as [e | output_image]; [ discriminate | ].
      destruct (image_to_base64 pil output_image) as [e | output_base64];
        [ discriminate | ].
      injection Hrun as <- _. subst r inference_duration base64_duration n.
      cbn [result inference_time_seconds encoding_time_seconds total_time_seconds].
      replace (clock_reads w + 1)%nat with (S (clock_reads w)) by lia.
      replace (clock_reads w + 2)%nat with (S (S (clock_reads w))) by lia.
      replace (clock_reads w + 3)%nat with (S (S (S (clock_reads w)))) by lia.
      repeat split. }
  assert (Hsum : (Qabs (float_add inference_duration base64_duration
                        - (inference_duration + base64_duration)) <= 1 # 256)%Q)
    by exact (Rounding.round_to_double_near _ Hshort).
  split; [ exact Hr | ].
  destruct Hr as [H1 [H2 H3]]. rewrite H1, H2, H3.
  split; [ | split; [ | split ] ].
  - split; intros H; exact (Rounding.round_to_double_near _ H).
  - split; [ | split; [ | split ] ].
    + eexists _, _, _. repeat split; reflexivity.
    + apply Rounding.round2_near.
    + apply Rounding.round2_near.
    + pose proof (Rounding.round2_near (float_add inference_duration base64_duration))
        as Hn.
      apply Qabs_Qle_condition in Hn. apply Qabs_Qle_condition in Hsum.
      apply Qabs_Qle_condition. split; lra.
  - split; [ | split ].
    + intros H. apply Rounding.round2_nonneg, Rounding.round_to_double_nonneg. lra.
    + intros H. apply Rounding.round2_nonneg, Rounding.round_to_double_nonneg. lra.
    + intros Hi Hb.
      apply Rounding.round2_nonneg, Rounding.round_to_double_nonneg.
      assert (0 <= inference_duration)%Q
        by (apply Rounding.round_to_double_nonneg; lra).
      assert (0 <= base64_duration)%Q
        by (apply Rounding.round_to_double_nonneg; lra).
      lra.
  - exact (Rounding.round2_sum_near _ _ _ Hsum).
Qed.

(** The scenario of the specification on the demonstration instance, whose
    clock advances by one second per reading: both durations are one second
    and the total is two. *)
Lemma generation_timing_witness :
  let request :=
    {| prompt := lit "a red circle"; height := 512; width := 512;
       guidance_scale := 35 # 10; num_inference_steps := 20;
       max_sequence_length := 256; seed := 42 |} in
  let content :=
    {| status := "success";
       message := "推理完成！";
       result := {| image := lit "data:image/png;base64,iVBORw0K";
                    inference_time_seconds := 100 # 100;
                    encoding_time_seconds := 100 # 100;
                    total_time_seconds := 200 # 100 |} |} in
  image_generation Demo.torch Demo.pil Demo.flux_pipeline request Demo.world0
  = (inr content,
     advance Demo.world0 4 [generation_args Demo.torch request 42])
  /\ (0 <= inference_time_seconds (result content))%Q
  /\ (0 <= encoding_time_seconds (result content))%Q
  /\ (0 <= total_time_seconds (result content))%Q
  /\ (Qabs (total_time_seconds (result content)
            - (inference_time_seconds (result content)
               + encoding_time_seconds (result content))) <= 1 # 100)%Q.
Proof.
  intros request content.
  assert (Hrun : image_generation Demo.torch Demo.pil Demo.flux_pipeline request
                   Demo.world0
                 = (inr content,
                    advance Demo.world0 4 [generation_args Demo.torch request 42])).
  { rewrite (image_generation_run Demo.torch Demo.pil Demo.flux_pipeline request
               Demo.world0 eq_refl).
    reflexivity. }
  split; [ exact Hrun | ].
  assert (Hshort :
            (Qabs (float_sub (clock (@Demo.world0 (PipelineArgs Demo.torch)) 1)
                     (clock (@Demo.world0 (PipelineArgs Demo.torch)) 0)
                   + float_sub (clock (@Demo.world0 (PipelineArgs Demo.torch)) 3)
                       (clock (@Demo.world0 (PipelineArgs Demo.torch)) 2))
             <= inject_Z (2 ^ 45))%Q).
  { vm_compute. discriminate. }
  destruct (generation_timing Demo.torch Demo.pil Demo.flux_pipeline request
              Demo.world0 _ content Hrun Hshort)
    as [_ [_ [_ [[Hi [He Ht]] Hsum]]]].
  split; [ apply Hi; vm_compute; discriminate | ].
  split; [ apply He; vm_compute; discriminate | ].
  split; [ apply Ht; vm_compute; discriminate | exact Hsum ].
Defined.

End Generation.

(** ** The editing service *)

Module QwenFacts.

Import FastAPI QwenEdit Terms.
Local Open Scope Z_scope.

Section Handler.

Variable torch : Torch.
Variable pil : PIL.
Variable pipeline :
  EditInputs pil -> GeneratorState torch -> res (list (Image pil)) * GeneratorState torch.

Local Notation "'W'" := (World (GeneratorState torch) (PipelineCall torch pil)).

(** *** The loop over the images of a request *)

Lemma decode_images_step (idx : nat) (s : str) (rest : list str)
    (pil_images : list (Image pil)) (w : W) :
  decode_images torch pil idx (s :: rest) pil_images w =
  match decode_RGB pil s with
  | inr pil_image => decode_images torch pil (S idx) rest (pil_images ++ [pil_image]) w
  | inl e => (inl (HTTPException 400 (names_image (idx + 1) e)), w)
  end.
Proof.
  cbn [decode_images]. unfold bind, try_except, lift, ret, raise, names_image.
  destruct (decode_RGB pil s); reflexivity.
Qed.

(** When every image decodes, the loop returns them all, in order. *)
Lemma decode_images_all (items : list str) (images : list (Image pil)) :
  Forall2 (fun s image => decode_RGB pil s = inr image) items images ->
  forall idx pil_images (w : W),
    decode_images torch pil idx items pil_images w = (inr (pil_images ++ images), w).
Proof.
  induction 1 as [ | s image items images Hs _ IH ]; intros idx pil_images w.
  - cbn. now rewrite app_nil_r.
  - rewrite decode_images_step, Hs, IH, <- app_assoc. reflexivity.
Qed.

(** The loop stops at the first image that does not decode, and reports its
    1-based index. *)
Lemma decode_images_first_failure (pre : list str) (bad : str) (post : list str)
    (e : error) :
  Forall (fun s => exists image, decode_RGB pil s = inr image) pre ->
  decode_RGB pil bad = inl e ->
  forall idx pil_images (w : W),
    decode_images torch pil idx (pre ++ bad :: post) pil_images w
    = (inl (HTTPException 400 (names_image (idx + List.length pre + 1) e)), w).
Proof.
  intros Hpre Hbad. induction Hpre as [ | s pre [image Hs] _ IH ]; intros idx pil_images w.
  - cbn [app List.length]. rewrite decode_images_step, Hbad, Nat.add_0_r. reflexivity.
  - cbn [app List.length]. rewrite decode_images_step, Hs, IH.
    replace (S idx + List.length pre + 1)%nat with (idx + S (List.length pre) + 1)%nat by lia.
    reflexivity.
Qed.

(** The loop touches no state, raises nothing but a 400, and on success
    returns one image per item. *)
Lemma decode_images_outcome (items : list str) :
  forall idx pil_images,
    (exists k e, forall w : W,
        decode_images torch pil idx items pil_images w
        = (inl (HTTPException 400 (names_image k e)), w))
    \/ (exists images,
          List.length images = List.length items
          /\ forall w : W,
               decode_images torch pil idx items pil_images w
               = (inr (pil_images ++ images), w)).
Proof.
  induction items as [ | s items IH ]; intros idx pil_images.
  - right. exists []. split; [ reflexivity | ]. intros w. cbn. now rewrite app_nil_r.
  - destruct (decode_RGB pil s) as [e | image] eqn:Hs.
    + left. exists (idx + 1)%nat, e. intros w. now rewrite decode_images_step, Hs.
    + destruct (IH (S idx) (pil_images ++ [image])) as [ [k [e H]] | [images [Hl H]] ].
      * left. exists k, e. intros w. now rewrite decode_images_step, Hs.
      * right. exists (image :: images). split; [ cbn; now rewrite Hl | ].
        intros w. rewrite decode_images_step, Hs, H, <- app_assoc. reflexivity.
Qed.

(** *** The handler, case by case *)

Lemma image_edit_no_images (request : ImageEditRequest) (w : W) :
  images request = [] ->
  image_edit torch pil pipeline request w
  = (inl (HTTPException 400 "请至少提供一张图片"), w).
Proof.
  intros H. unfold image_edit, try_except. rewrite H. reflexivity.
Qed.

Lemma image_edit_blank (request : ImageEditRequest) (w : W) :
  images request <> [] ->
  prompt_is_blank (prompt request) = true ->
  image_edit torch pil pipeline request w
  = (inl (HTTPException 400 "请输入提示词"), w).
Proof.
  intros Hi H. unfold image_edit, try_except.
  destruct (images request); [ contradiction | ]. cbn [List.length Nat.eqb].
  rewrite H. reflexivity.
Qed.

Lemma image_edit_rejected (request : ImageEditRequest) (w : W) (k : nat) (e : error) :
  images request <> [] ->
  prompt_is_blank (prompt request) = false ->
  decode_images torch pil 0 (images request) [] w
  = (inl (HTTPException 400 (names_image k e)), w) ->
  image_edit torch pil pipeline request w
  = (inl (HTTPException 400 (names_image k e)), w).
Proof.
  intros Hi H Hd. unfold image_edit, try_except.
  destruct (images request) eqn:Himages; [ contradiction | ]. cbn [List.length Nat.eqb].
  rewrite H. unfold bind. rewrite Hd. reflexivity.
Qed.

Lemma image_edit_run (request : ImageEditRequest) (w : W)
    (pil_images : list (Image pil)) :
  images request <> [] ->
  prompt_is_blank (prompt request) = false ->
  decode_images torch pil 0 (images request) [] w = (inr pil_images, w) ->
  pil_images <> [] ->
  image_edit torch pil pipeline request w =
  match seeded torch (seed request) with
  | inl e => (inl (failure e), w)
  | inr g =>
    let inputs := edit_inputs pil request pil_images in
    let w' := after_call w (snd (pipeline inputs g))
                {| call_inputs := inputs; call_generator := g |} in
    match fst (pipeline inputs g) with
    | inl e => (inl (failure e), w')
    | inr output =>
      match index output 0 with
      | inl e => (inl (failure e), w')
      | inr output_image =>
        match image_to_base64 pil output_image with
        | inl e => (inl (failure e), w')
        | inr output_base64 =>
          (inr {| status := "success";
                  message := "推理完成！已处理 "
                             ++ show_nat (List.length pil_images) ++ " 张输入图片";
                  result := {| image := output_base64;
                               input_count := List.length pil_images |} |}, w')
        end
      end
    end
  end.
Proof.
  intros Hi H Hd Hne. unfold image_edit, try_except.
  destruct (images request) eqn:Himages; [ contradiction | ]. cbn [List.length Nat.eqb].
  rewrite H. unfold bind at 1. rewrite Hd.
  destruct pil_images as [ | image0 pil_images0 ]; [ contradiction | ].
  cbn [List.length Nat.eqb].
  unfold call_pipeline, torch_manual_seed.
  unfold bind, lift, ret, raise, failure, after_call, edit_inputs.
  destruct (seeded torch (seed request)) as [e | g]; [ reflexivity | ].
  cbv beta iota. cbn [default_generator clock clock_reads pipeline_calls].
  destruct (pipeline _ g) as [[e | output] g']; cbn [fst snd]; [ reflexivity | ].
  destruct (index output 0) as [e | output_image]; [ reflexivity | ].
  destruct (image_to_base64 pil output_image) as [e | output_base64]; reflexivity.
Qed.

Lemma post_edits_unfold (b : Body) (w : W) :
  post_edits torch pil pipeline b w =
  match validate b with
  | inl errors => (ErrorResponse 422 (detail_errors errors), w)
  | inr request =>
      match image_edit torch pil pipeline request w with
      | (inr content, w') => (JSONResponse content, w')
      | (inl (HTTPException sc d), w') => (ErrorResponse sc (detail_message d), w')
      | (inl (Raised _), w') =>
          (ErrorResponse 500 (detail_message "Internal Server Error"), w')
      end
  end.
Proof. reflexivity. Qed.

(** *** The callback of the UI *)

Lemma collect_uploads_readable (files : list (option (Upload pil)))
    (images : list (Image pil)) :
  collect_uploads pil files images = images ++ readable pil files.
Proof.
  revert images. induction files as [ | [file | ] files IH ]; intros images.
  - cbn. now rewrite app_nil_r.
  - cbn [collect_uploads readable].
    destruct (open_upload pil file) as [e | image].
    + apply IH.
    + rewrite IH, <- app_assoc. reflexivity.
  - cbn [collect_uploads readable]. apply IH.
Qed.

(** [process_uploaded_files] returns the entries that can be opened. *)
Lemma process_uploaded_files_readable (files : option (list (option (Upload pil)))) :
  process_uploaded_files pil files = readable pil (uploads files).
Proof.
  destruct files as [ [ | file files ] | ]; try reflexivity.
  unfold process_uploaded_files. now rewrite collect_uploads_readable.
Qed.

Lemma inference_no_files (files : option (list (option (Upload pil))))
    (prompt : option str) (negative_prompt : str)
    (num_inference_steps guidance_scale true_cfg_scale : Q) (seed : Z) (w : W) :
  uploads files = [] ->
  inference torch pil pipeline files prompt negative_prompt num_inference_steps
    guidance_scale true_cfg_scale seed w
  = (inr (None, "请至少上传一张图片"%string), w).
Proof.
  intros H. unfold inference.
  destruct files as [ [ | file files ] | ]; try reflexivity. discriminate H.
Qed.

Lemma inference_blank (files : option (list (option (Upload pil))))
    (prompt : option str) (negative_prompt : str)
    (num_inference_steps guidance_scale true_cfg_scale : Q) (seed : Z) (w : W) :
  uploads files <> [] ->
  match prompt with Some p => prompt_is_blank p = true | None => True end ->
  inference torch pil pipeline files prompt negative_prompt num_inference_steps
    guidance_scale true_cfg_scale seed w
  = (inr (None, "请输入提示词"%string), w).
Proof.
  intros Hf H. unfold inference.
  destruct files as [ [ | file files ] | ]; try (now elim Hf).
  cbn [no_files List.length Nat.eqb].
  destruct prompt as [p | ]; [ now rewrite H | reflexivity ].
Qed.

Lemma inference_unreadable (files : option (list (option (Upload pil))))
    (prompt negative_prompt : str)
    (num_inference_steps guidance_scale true_cfg_scale : Q) (seed : Z) (w : W) :
  uploads files <> [] ->
  prompt_is_blank prompt = false ->
  readable pil (uploads files) = [] ->
  inference torch pil pipeline files (Some prompt) negative_prompt num_inference_steps
    guidance_scale true_cfg_scale seed w
  = (inr (None, "无法处理上传的图片，请确保上传的是有效的图片文件"%string), w).
Proof.
  intros Hf H Hr. unfold inference.
  destruct files as [ [ | file files ] | ]; try (now elim Hf).
  cbn [no_files List.length Nat.eqb]. rewrite H.
  unfold try_except. rewrite process_uploaded_files_readable, Hr. reflexivity.
Qed.

Lemma inference_run (files : option (list (option (Upload pil))))
    (prompt negative_prompt : str)
    (num_inference_steps guidance_scale true_cfg_scale : Q) (seed : Z) (w : W) :
  prompt_is_blank prompt = false ->
  readable pil (uploads files) <> [] ->
  inference torch pil pipeline files (Some prompt) negative_prompt num_inference_steps
    guidance_scale true_cfg_scale seed w =
  match seeded torch seed with
  | inl e => (inr (None, ui_failure e), w)
  | inr g =>
    let images := readable pil (uploads files) in
    let inputs := ui_edit_inputs pil images prompt negative_prompt
                    num_inference_steps guidance_scale true_cfg_scale in
    let w' := after_call w (snd (pipeline inputs g))
                {| call_inputs := inputs; call_generator := g |} in
    match fst (pipeline inputs g) with
    | inl e => (inr (None, ui_failure e), w')
    | inr output =>
      match index output 0 with
      | inl e => (inr (None, ui_failure e), w')
      | inr output_image =>
          (inr (Some output_image,
                ("推理完成！已处理 " ++ show_nat (List.length images)
                 ++ " 张输入图片")%string), w')
      end
    end
  end.
Proof.
  intros H Hr. unfold inference.
  destruct files as [ [ | file files ] | ]; try (now elim Hr).
  cbn [no_files List.length Nat.eqb]. rewrite H.
  unfold try_except. rewrite process_uploaded_files_readable.
  destruct (readable pil (uploads (Some (file :: files)))) as [ | image0 images0 ] eqn:Hi;
    [ now elim Hr | ].
  cbn [List.length Nat.eqb].
  unfold call_pipeline, torch_manual_seed.
  unfold bind, lift, ret, raise, ui_failure, after_call, ui_edit_inputs.
  destruct (seeded torch seed) as [e | g]; [ reflexivity | ].
  cbv beta iota zeta. cbn [default_generator clock clock_reads pipeline_calls].
  destruct (pipeline _ g) as [[e | output] g']; cbn [fst snd]; [ reflexivity | ].
  destruct (index output 0) as [e | output_image]; reflexivity.
Qed.

(** *** What a call of a handler leaves behind *)

Lemma settle_nothing (w : W) : settle w None [] = w.
Proof. destruct w. unfold settle. cbn. now rewrite app_nil_r. Qed.

Lemma settle_after_call (w : W) (g' : GeneratorState torch) (call : PipelineCall torch pil) :
  after_call w g' call = settle w (Some g') [call].
Proof. reflexivity. Qed.

(** The outcome of [image_edit] does not depend on the world it starts
    from; it raises nothing but an [HTTPException] with status 400 or 500;
    and it calls the pipeline at most once, with at least one image and
    from the generator state that the seed of the request gives. *)
Lemma image_edit_outcome (request : ImageEditRequest) :
  exists outcome g' calls,
    (forall w : W, image_edit torch pil pipeline request w = (outcome, settle w g' calls))
    /\ ((exists content, outcome = inr content)
        \/ (exists d, outcome = inl (HTTPException 400 d))
        \/ (exists e, outcome = inl (failure e)))
    /\ (calls = []
        \/ exists pil_images g,
             pil_images <> []
             /\ seeded torch (seed request) = inr g
             /\ calls = [ {| call_inputs := edit_inputs pil request pil_images;
                             call_generator := g |} ]).
Proof.
  destruct (images request) as [ | s items ] eqn:Hi.
  { eexists _, None, []. split; [ | split; [ right; left; eauto | now left ] ].
    intros w. rewrite settle_nothing. now apply image_edit_no_images. }
  assert (Hne : images request <> []) by (rewrite Hi; discriminate).
  destruct (prompt_is_blank (prompt request)) eqn:Hb.
  { eexists _, None, []. split; [ | split; [ right; left; eauto | now left ] ].
    intros w. rewrite settle_nothing. now apply image_edit_blank. }
  destruct (decode_images_outcome (images request) 0%nat [])
    as [ [k [e Hd]] | [pil_images [Hl Hd]] ].
  { eexists _, None, []. split; [ | split; [ right; left; eauto | now left ] ].
    intros w. rewrite settle_nothing. apply image_edit_rejected; auto. }
  cbn [app] in Hd.
  assert (Hpne : pil_images <> []).
  { rewrite Hi in Hl. destruct pil_images; [ discriminate Hl | discriminate ]. }
  assert (Hseed : (exists e, seeded torch (seed request) = inl e)
                  \/ (exists g, seeded torch (seed request) = inr g))
    by (destruct (seeded torch (seed request)); eauto).
  destruct Hseed as [ [e Hs] | [g Hs] ].
  { eexists _, None, []. split; [ | split; [ right; right; eauto | now left ] ].
    intros w. rewrite settle_nothing.
    rewrite (image_edit_run request w pil_images Hne Hb (Hd w) Hpne), Hs. reflexivity. }
  pose (inputs := edit_inputs pil request pil_images).
  assert (Hcalls :
            [ {| call_inputs := inputs; call_generator := g |} ] = []
            \/ exists pil_images0 g0,
                 pil_images0 <> []
                 /\ seeded torch (seed request) = inr g0
                 /\ [ {| call_inputs := inputs; call_generator := g |} ]
                    = [ {| call_inputs := edit_inputs pil request pil_images0;
                           call_generator := g0 |} ])
    by (right; exists pil_images, g; auto).
  destruct (pipeline inputs g) as [[e | output] g'] eqn:Hp.
  { eexists _, (Some g'), _. split; [ | split; [ right; right; eauto | exact Hcalls ] ].
    intros w. rewrite (image_edit_run request w pil_images Hne Hb (Hd w) Hpne), Hs.
    cbv zeta. fold inputs. rewrite Hp. reflexivity. }
  destruct (index output 0) as [e | output_image] eqn:Ho.
  { eexists _, (Some g'), _. split; [ | split; [ right; right; eauto | exact Hcalls ] ].
    intros w. rewrite (image_edit_run request w pil_images Hne Hb (Hd w) Hpne), Hs.
    cbv zeta. fold inputs. rewrite Hp. cbn [fst snd]. rewrite Ho. reflexivity. }
  destruct (image_to_base64 pil output_image) as [e | output_base64] eqn:He.
  { eexists _, (Some g'), _. split; [ | split; [ right; right; eauto | exact Hcalls ] ].
    intros w. rewrite (image_edit_run request w pil_images Hne Hb (Hd w) Hpne), Hs.
    cbv zeta. fold inputs. rewrite Hp. cbn [fst snd]. rewrite Ho, He. reflexivity. }
  eexists _, (Some g'), _. split; [ | split; [ left; eauto | exact Hcalls ] ].
  intros w. rewrite (image_edit_run request w pil_images Hne Hb (Hd w) Hpne), Hs.
  cbv zeta. fold inputs. rewrite Hp. cbn [fst snd]. rewrite Ho, He. reflexivity.
Qed.

(** The callback of the UI always returns; what it returns does not
    depend on the world it starts from; and it calls the pipeline at most
    once, with the readable uploads, of which there is at least one. *)
Lemma inference_outcome (files : option (list (option (Upload pil))))
    (prompt : option str) (negative_prompt : str)
    (num_inference_steps guidance_scale true_cfg_scale : Q) (seed : Z) :
  exists out g' calls,
    (forall w : W,
        inference torch pil pipeline files prompt negative_prompt num_inference_steps
          guidance_scale true_cfg_scale seed w
        = (inr out, settle w g' calls))
    /\ (calls = []
        \/ exists p g,
             prompt = Some p
             /\ readable pil (uploads files) <> []
             /\ seeded torch seed = inr g
             /\ calls = [ {| call_inputs :=
                               ui_edit_inputs pil (readable pil (uploads files)) p
                                 negative_prompt num_inference_steps guidance_scale
                                 true_cfg_scale;
                             call_generator := g |} ]).
Proof.
  destruct (uploads files) as [ | file0 files0 ] eqn:Hu.
  { eexists _, None, []. split; [ | now left ].
    intros w. rewrite settle_nothing. now apply inference_no_files. }
  assert (Hne : uploads files <> []) by (rewrite Hu; discriminate).
  rewrite <- Hu.
  destruct prompt as [p | ].
  2:{ eexists _, None, []. split; [ | now left ].
      intros w. rewrite settle_nothing. now apply inference_blank. }
  destruct (prompt_is_blank p) eqn:Hb.
  { eexists _, None, []. split; [ | now left ].
    intros w. rewrite settle_nothing. now apply inference_blank. }
  assert (Hread : readable pil (uploads files) = [] \/ readable pil (uploads files) <> []).
  { destruct (readable pil (uploads files)); [ now left | right; discriminate ]. }
  destruct Hread as [Hr | Hr].
  { eexists _, None, []. split; [ | now left ].
    intros w. rewrite settle_nothing. now apply inference_unreadable. }
  assert (Hseed : (exists e, seeded torch seed = inl e) \/ (exists g, seeded torch seed = inr g))
    by (destruct (seeded torch seed); eauto).
  destruct Hseed as [ [e Hs] | [g Hs] ].
  { eexists _, None, []. split; [ | now left ].
    intros w. rewrite settle_nothing.
    rewrite (inference_run files p negative_prompt num_inference_steps guidance_scale
               true_cfg_scale seed w Hb Hr), Hs. reflexivity. }
  pose (inputs := ui_edit_inputs pil (readable pil (uploads files)) p negative_prompt
                    num_inference_steps guidance_scale true_cfg_scale).
  assert (Hcalls :
            [ {| call_inputs := inputs; call_generator := g |} ] = []
            \/ exists p0 g0,
                 Some p = Some p0
                 /\ readable pil (uploads files) <> []
                 /\ seeded torch seed = inr g0
                 /\ [ {| call_inputs := inputs; call_generator := g |} ]
                    = [ {| call_inputs :=
                             ui_edit_inputs pil (readable pil (uploads files)) p0
                               negative_prompt num_inference_steps guidance_scale
                               true_cfg_scale;
                           call_generator := g0 |} ])
    by (right; exists p, g; auto).
  destruct (pipeline inputs g) as [[e | output] g'] eqn:Hp.
  { eexists _, (Some g'), _. split; [ | exact Hcalls ].
    intros w.
    rewrite (inference_run files p negative_prompt num_inference_steps guidance_scale
               true_cfg_scale seed w Hb Hr), Hs.
    cbv zeta. fold inputs. rewrite Hp. reflexivity. }
  destruct (index output 0) as [e | output_image] eqn:Ho.
  { eexists _, (Some g'), _. split; [ | exact Hcalls ].
    intros w.
    rewrite (inference_run files p negative_prompt num_inference_steps guidance_scale
               true_cfg_scale seed w Hb Hr), Hs.
    cbv zeta. fold inputs. rewrite Hp. cbn [fst snd]. rewrite Ho. reflexivity. }
  eexists _, (Some g'), _. split; [ | exact Hcalls ].
  intros w.
  rewrite (inference_run files p negative_prompt num_inference_steps guidance_scale
             true_cfg_scale seed w Hb Hr), Hs.
  cbv zeta. fold inputs. rewrite Hp. cbn [fst snd]. rewrite Ho. reflexivity.
Qed.

(** The route, from the outcome of the handler. *)
Lemma post_edits_outcome (b : Body) :
  exists response g' calls,
    (forall w : W, post_edits torch pil pipeline b w = (response, settle w g' calls))
    /\ (calls = []
        \/ exists request pil_images g,
             validate b = inr request
             /\ pil_images <> []
             /\ seeded torch (seed request) = inr g
             /\ calls = [ {| call_inputs := edit_inputs pil request pil_images;
                             call_generator := g |} ]).
Proof.
  destruct (validate b) as [errors | request] eqn:Hv.
  { eexists _, None, []. split; [ | now left ].
    intros w. rewrite settle_nothing, post_edits_unfold, Hv. reflexivity. }
  destruct (image_edit_outcome request) as [outcome [g' [calls [Hrun [Hout Hcalls]]]]].
  assert (Hcalls' :
            calls = []
            \/ exists request0 pil_images g,
                 inr (A := ValidationError) request = inr request0
                 /\ pil_images <> []
                 /\ seeded torch (seed request0) = inr g
                 /\ calls = [ {| call_inputs := edit_inputs pil request0 pil_images;
                                 call_generator := g |} ]).
  { destruct Hcalls as [-> | [pil_images [g [H1 [H2 H3]]]]]; [ now left | ].
    right. exists request, pil_images, g. auto. }
  destruct Hout as [ [content ->] | [ [d ->] | [e ->] ] ];
    eexists _, g', calls; (split; [ | exact Hcalls' ]);
    intros w; rewrite post_edits_unfold, Hv, Hrun; reflexivity.
Qed.

End Handler.

End QwenFacts.

(** ** The claims on the editing service *)

Module Editing.

Import FastAPI QwenEdit Terms QwenFacts.
Local Open Scope Z_scope.

(** C2, as stated, fails: the only image of this request does not decode,
    but its prompt is a single blank, and the request is rejected for the
    prompt, with a message that names no image. *)
Lemma blank_prompt_hides_image_index :
  decode_RGB Demo.pil (lit "A")
  = inl (Exception "binascii.Error"
           "Invalid base64-encoded string: number of data characters (1) cannot be 1 more than a multiple of 4")
  /\ fst (post_edits Demo.torch Demo.pil Demo.edit_pipeline
            {| body_images := Some [lit "A"]; body_prompt := Some (lit " ");
               body_negative_prompt := None; body_num_inference_steps := None;
               body_guidance_scale := None; body_true_cfg_scale := None;
               body_seed := None |} Demo.world0)
     = ErrorResponse 400 (detail_message "请输入提示词")
  /\ (forall e, names_image 1 e <> "请输入提示词"%string).
Proof.
  split; [ vm_compute; reflexivity | split; [ vm_compute; reflexivity | ] ].
  intros e H. unfold names_image in H. cbn in H. discriminate H.
Qed.

(** C2, amended.  For every edit request that satisfies the declared field
    constraints: if an image of the list does not decode (as base64, as an
    image, or in the conversion to RGB) while all the images before it do,
    the request is rejected with status 400 and nothing else is done (the
    world is unchanged: the pipeline is not called); and when the prompt is
    not blank, the detail names the 1-based index of that image.  For the
    third image it reads [无法处理第 3 张图片: ...]. *)
Theorem edit_names_undecodable_image (torch : Torch) (pil : PIL)
    (pipeline : EditInputs pil -> GeneratorState torch
                -> res (list (Image pil)) * GeneratorState torch)
    (b : Body) (request : ImageEditRequest)
    (w : World (GeneratorState torch) (PipelineCall torch pil))
    (pre : list str) (bad : str) (post : list str) (e : error)
    (Hvalid : validate b = inr request)
    (Himages : images request = pre ++ bad :: post)
    (Hpre : Forall (fun s => exists image, decode_RGB pil s = inr image) pre)
    (Hbad : decode_RGB pil bad = inl e) :
  (exists detail, post_edits torch pil pipeline b w = (ErrorResponse 400 detail, w))
  /\ (~ whitespace_only (prompt request) ->
      post_edits torch pil pipeline b w
      = (ErrorResponse 400 (detail_message (names_image (List.length pre + 1) e)), w))
  /\ names_image 3 e = ("无法处理第 3 张图片: " ++ str_of_exn (Raised e))%string.
Proof.
  assert (Hne : images request <> []) by (rewrite Himages; destruct pre; discriminate).
  assert (Hnamed : prompt_is_blank (prompt request) = false ->
                   post_edits torch pil pipeline b w
                   = (ErrorResponse 400
                        (detail_message (names_image (List.length pre + 1) e)), w)).
  { intros Hb. rewrite post_edits_unfold, Hvalid.
    rewrite (image_edit_rejected torch pil pipeline request w (List.length pre + 1) e
               Hne Hb); [ reflexivity | ].
    rewrite Himages.
    exact (decode_images_first_failure torch pil pre bad post e Hpre Hbad 0%nat [] w). }
  split; [ | split; [ | reflexivity ] ].
  - destruct (prompt_is_blank (prompt request)) eqn:Hb.
    + eexists. rewrite post_edits_unfold, Hvalid.
      rewrite (image_edit_blank torch pil pipeline request w Hne Hb). reflexivity.
    + eexists. now apply Hnamed.
  - intros Hp. now apply Hnamed, Prompts.prompt_not_blank.
Qed.

(** A request whose third image is malformed base64, in the demonstration
    instance, is rejected with a detail that names index 3. *)
Lemma edit_names_undecodable_image_witness :
  post_edits Demo.torch Demo.pil Demo.edit_pipeline
    {| body_images := Some [lit "iVBORw0K"; lit "data:image/png;base64,iVBORw0K"; lit "A"];
       body_prompt := Some (lit "make it red");
       body_negative_prompt := None; body_num_inference_steps := None;
       body_guidance_scale := None; body_true_cfg_scale := None;
       body_seed := None |} Demo.world0
  = (ErrorResponse 400
       (detail_message
          (names_image 3
             (Exception "binascii.Error"
                "Invalid base64-encoded string: number of data characters (1) cannot be 1 more than a multiple of 4"))),
     Demo.world0).
Proof.
  refine (proj1 (proj2
            (edit_names_undecodable_image Demo.torch Demo.pil Demo.edit_pipeline
               {| body_images :=
                    Some [lit "iVBORw0K"; lit "data:image/png;base64,iVBORw0K"; lit "A"];
                  body_prompt := Some (lit "make it red");
                  body_negative_prompt := None; body_num_inference_steps := None;
                  body_guidance_scale := None; body_true_cfg_scale := None;
                  body_seed := None |}
               {| images := [lit "iVBORw0K"; lit "data:image/png;base64,iVBORw0K"; lit "A"];
                  prompt := lit "make it red";
                  negative_prompt := Some (lit " ");
                  num_inference_steps := 40; guidance_scale := 1; true_cfg_scale := 4;
                  seed := 0 |}
               Demo.world0
               [lit "iVBORw0K"; lit "data:image/png;base64,iVBORw0K"] (lit "A") []
               (Exception "binascii.Error"
                  "Invalid base64-encoded string: number of data characters (1) cannot be 1 more than a multiple of 4")
               _ _ _ _)) _).
  - reflexivity.
  - reflexivity.
  - repeat constructor; exists Demo.sample; vm_compute; reflexivity.
  - vm_compute. reflexivity.
  - intros H. inversion H as [ | c l Hc _ ]. discriminate Hc.
Defined.

(** C8.  The asymmetry of the two adapters on a list that holds unreadable
    images.  In the UI adapter, [process_uploaded_files] returns exactly the
    entries that can be opened, in order, and raises nothing for the others;
    so the callback, given a prompt that is not blank, a seed torch accepts
    and a list with at least one readable entry, calls the pipeline once
    with the readable entries, whatever unreadable entries the list also
    holds, and reports what the pipeline returns with the number of images
    processed.  In the API adapter the loop over the images raises a 400 at
    the first image that does not decode; so the handler, given a valid
    request with a prompt that is not blank, rejects the whole request with
    that 400, without calling the pipeline. *)
Theorem unreadable_images_skipped_or_rejected (torch : Torch) (pil : PIL)
    (pipeline : EditInputs pil -> GeneratorState torch
                -> res (list (Image pil)) * GeneratorState torch) :
  (forall files : option (list (option (Upload pil))),
      process_uploaded_files pil files = readable pil (uploads files))
  /\ (forall (files : option (list (option (Upload pil)))) (prompt negative_prompt : str)
             (num_inference_steps guidance_scale true_cfg_scale : Q) (seed : Z)
             (g : GeneratorState torch)
             (w : World (GeneratorState torch) (PipelineCall torch pil)),
        ~ whitespace_only prompt ->
        readable pil (uploads files) <> [] ->
        seeded torch seed = inr g ->
        let inputs := ui_edit_inputs pil (readable pil (uploads files)) prompt
                        negative_prompt num_inference_steps guidance_scale
                        true_cfg_scale in
        let run := inference torch pil pipeline files (Some prompt) negative_prompt
                     num_inference_steps guidance_scale true_cfg_scale seed w in
        pipeline_calls (snd run)
        = pipeline_calls w ++ [ {| call_inputs := inputs; call_generator := g |} ]
        /\ (forall image rest,
               fst (pipeline inputs g) = inr (image :: rest) ->
               fst run
               = inr (Some image,
                      ("推理完成！已处理 "
                       ++ show_nat (List.length (readable pil (uploads files)))
                       ++ " 张输入图片")%string)))
  /\ (forall (pre : list str) (bad : str) (post : list str) (e : error)
             (idx : nat) (pil_images : list (Image pil))
             (w : World (GeneratorState torch) (PipelineCall torch pil)),
        Forall (fun s => exists image, decode_RGB pil s = inr image) pre ->
        decode_RGB pil bad = inl e ->
        decode_images torch pil idx (pre ++ bad :: post) pil_images w
        = (inl (HTTPException 400 (names_image (idx + List.length pre + 1) e)), w))
  /\ (forall (b : Body) (request : ImageEditRequest)
             (w : World (GeneratorState torch) (PipelineCall torch pil))
             (pre : list str) (bad : str) (post : list str) (e : error),
        validate b = inr request ->
        ~ whitespace_only (QwenEdit.prompt request) ->
        images request = pre ++ bad :: post ->
        Forall (fun s => exists image, decode_RGB pil s = inr image) pre ->
        decode_RGB pil bad = inl e ->
        post_edits torch pil pipeline b w
        = (ErrorResponse 400 (detail_message (names_image (List.length pre + 1) e)), w)).
Proof.
  split; [ | split; [ | split ] ].
  - apply process_uploaded_files_readable.
  - intros files prompt negative_prompt num_inference_steps guidance_scale true_cfg_scale
           seed g w Hp Hr Hs inputs run.
    subst run.
    rewrite (inference_run torch pil pipeline files prompt negative_prompt
               num_inference_steps guidance_scale true_cfg_scale seed w
               (Prompts.prompt_not_blank prompt Hp) Hr), Hs.
    cbv zeta. fold inputs.
    destruct (pipeline inputs g) as [[e | output] g']; cbn [fst snd].
    + split; [ reflexivity | discriminate ].
    + destruct output as [ | image0 rest0 ]; cbn [index nth_error].
      * split; [ reflexivity | discriminate ].
      * split; [ reflexivity | ]. intros image rest [= -> ->]. reflexivity.
  - intros pre bad post e idx pil_images w Hpre Hbad.
    now apply decode_images_first_failure.
  - intros b request w pre bad post e Hv Hp Hi Hpre Hbad.
    rewrite post_edits_unfold, Hv.
    rewrite (image_edit_rejected torch pil pipeline request w (List.length pre + 1) e).
    + reflexivity.
    + rewrite Hi. destruct pre; discriminate.
    + now apply Prompts.prompt_not_blank.
    + rewrite Hi.
      exact (decode_images_first_failure torch pil pre bad post e Hpre Hbad 0%nat [] w).
Qed.

(** Of three uploads (a readable file, a missing file, an empty slot) the
    UI callback of the demonstration instance processes the readable one. *)
Lemma unreadable_images_skipped_or_rejected_witness :
  pipeline_calls
    (snd (inference Demo.torch Demo.pil Demo.edit_pipeline
            (Some [Some (upload_path Demo.pil (lit "in.png"));
                   Some (upload_path Demo.pil (lit "missing.png")); None])
            (Some (lit "make it red")) (lit " ") 40 1 4 7 Demo.world0))
  = [ {| call_inputs :=
           ui_edit_inputs Demo.pil [Demo.sample] (lit "make it red") (lit " ") 40 1 4;
         call_generator := (7 : GeneratorState Demo.torch) |} ].
Proof.
  refine (proj1
            (proj1 (proj2 (unreadable_images_skipped_or_rejected Demo.torch Demo.pil
                             Demo.edit_pipeline))
               (Some [Some (upload_path Demo.pil (lit "in.png"));
                      Some (upload_path Demo.pil (lit "missing.png")); None])
               (lit "make it red") (lit " ") 40%Q 1%Q 4%Q 7 7 Demo.world0 _ _ _)).
  - intros H. inversion H as [ | c l Hc _ ]. discriminate Hc.
  - discriminate.
  - reflexivity.
Defined.

(** C10.  Neither edit adapter calls the pipeline with an empty image
    list: every call that the API route or the UI callback adds to the
    record of pipeline calls carries at least one image. *)
Theorem pipeline_never_gets_no_image (torch : Torch) (pil : PIL)
    (pipeline : EditInputs pil -> GeneratorState torch
                -> res (list (Image pil)) * GeneratorState torch) :
  (forall (b : Body) (w : World (GeneratorState torch) (PipelineCall torch pil)),
      exists calls,
        pipeline_calls (snd (post_edits torch pil pipeline b w))
        = pipeline_calls w ++ calls
        /\ Forall (fun call => in_image pil (call_inputs torch pil call) <> []) calls)
  /\ (forall (files : option (list (option (Upload pil)))) (prompt : option str)
             (negative_prompt : str)
             (num_inference_steps guidance_scale true_cfg_scale : Q) (seed : Z)
             (w : World (GeneratorState torch) (PipelineCall torch pil)),
        exists calls,
          pipeline_calls
            (snd (inference torch pil pipeline files prompt negative_prompt
                    num_inference_steps guidance_scale true_cfg_scale seed w))
          = pipeline_calls w ++ calls
          /\ Forall (fun call => in_image pil (call_inputs torch pil call) <> []) calls).
Proof.
  split.
  - intros b w.
    destruct (post_edits_outcome torch pil pipeline b)
      as [response [g' [calls [Hrun Hcalls]]]].
    exists calls. rewrite Hrun. split; [ reflexivity | ].
    destruct Hcalls as [-> | [request [pil_images [g [_ [Hne [_ ->]]]]]]];
      repeat constructor. exact Hne.
  - intros files prompt negative_prompt num_inference_steps guidance_scale
           true_cfg_scale seed w.
    destruct (inference_outcome torch pil pipeline files prompt negative_prompt
                num_inference_steps guidance_scale true_cfg_scale seed)
      as [out [g' [calls [Hrun Hcalls]]]].
    exists calls. rewrite Hrun. split; [ reflexivity | ].
    destruct Hcalls as [-> | [p [g [_ [Hne [_ ->]]]]]];
      repeat constructor. exact Hne.
Qed.

End Editing.

(** ** The callbacks of the UI *)

Module Callbacks.

Import Terms.
Local Open Scope Z_scope.

Section Generation.

Variable torch : Torch.
Variable pil : PIL.
Variable pipeline : Flux.PipelineArgs torch -> res (list (Image pil)).

Lemma flux_inference_blank (prompt : option str) (height width : Z)
    (guidance_scale num_inference_steps : Q) (max_sequence_length seed : Z)
    (w : World (GeneratorState torch) (Flux.PipelineArgs torch)) :
  match prompt with Some p => prompt_is_blank p = true | None => True end ->
  Flux.inference torch pil pipeline prompt height width guidance_scale
    num_inference_steps max_sequence_length seed w
  = (inr (None, "请输入提示词"%string), w).
Proof.
  intros H. unfold Flux.inference.
  destruct prompt as [p | ]; [ now rewrite H | reflexivity ].
Qed.

Lemma flux_inference_run (prompt : str) (height width : Z)
    (guidance_scale num_inference_steps : Q) (max_sequence_length seed : Z)
    (w : World (GeneratorState torch) (Flux.PipelineArgs torch)) :
  prompt_is_blank prompt = false ->
  Flux.inference torch pil pipeline (Some prompt) height width guidance_scale
    num_inference_steps max_sequence_length seed w =
  match seeded torch seed with
  | inl e => (inr (None, ui_failure e), w)
  | inr g =>
    let args := ui_generation_args torch prompt height width guidance_scale
                  num_inference_steps max_sequence_length g in
    match pipeline args with
    | inl e => (inr (None, ui_failure e), advance w 1 [args])
    | inr images =>
      match index images 0 with
      | inl e => (inr (None, ui_failure e), advance w 1 [args])
      | inr output_image =>
          let n := clock_reads w in
          (inr (Some output_image,
                ("推理完成！实际耗时: "
                 ++ format_2f (float_sub (clock w (S n)) (clock w n)) ++ "秒")%string),
           advance w 2 [args])
      end
    end
  end.
Proof.
  intros H. unfold Flux.inference. rewrite H. unfold try_except.
  unfold Flux.call_pipeline.
  unfold bind, lift, time_time, ret, raise, ui_failure, advance, ui_generation_args.
  destruct (seeded torch seed) as [e | g]; [ reflexivity | ].
  cbv beta iota zeta.
  destruct (pipeline _) as [e | images]; [ reflexivity | ].
  destruct (index images 0) as [e | output_image]; reflexivity.
Qed.

End Generation.

(** Closes one case of a table of outcomes. *)
Ltac leaf :=
  intros; subst;
  repeat match goal with
         | H : Some _ = Some _ |- _ => injection H as H; subst
         | H : @inr _ _ _ = @inr _ _ _ |- _ => injection H as H; subst
         | H : @inl _ _ _ = @inl _ _ _ |- _ => injection H as H; subst
         | H : ?x = _, H' : ?x = _ |- _ => rewrite H in H'
         | H : cons _ _ = cons _ _ |- _ => injection H as H; subst
         end;
  first [ discriminate | contradiction | congruence
        | solve [ repeat split; reflexivity ]
        | solve [ eexists _, _, _; repeat split; first [ reflexivity | eassumption ] ]
        | idtac ].

(** X21.  On a prompt that is given or [None] and an upload list that is
    [None] or a list (of paths, images, file objects, other objects and
    [None] entries), the two UI callbacks never raise, and what they
    return is decided case by case.  Each returns a pair of an optional
    image and a message: no image and the message of the guard when the
    prompt is missing or blank, when there is no upload, or when no upload
    can be opened; no image and the message of the exception when torch
    refuses the seed, when the pipeline raises, or when it returns no
    image; and, when the pipeline returns images, the first of them with
    the message of success.  An image is returned in that case only. *)
Theorem ui_callbacks_never_raise (torch : Torch) (pil : PIL)
    (flux_pipeline : Flux.PipelineArgs torch -> res (list (Image pil)))
    (edit_pipeline : QwenEdit.EditInputs pil -> GeneratorState torch
                     -> res (list (Image pil)) * GeneratorState torch) :
  (forall (prompt : option str) (height width : Z)
          (guidance_scale num_inference_steps : Q) (max_sequence_length seed : Z)
          (w : World (GeneratorState torch) (Flux.PipelineArgs torch)),
      exists image message w',
        Flux.inference torch pil flux_pipeline prompt height width guidance_scale
          num_inference_steps max_sequence_length seed w
        = (inr (image, message), w')
        /\ (match prompt with Some p => whitespace_only p | None => True end ->
            image = None /\ message = "请输入提示词"%string)
        /\ (forall p e,
               prompt = Some p ->
               ~ whitespace_only p ->
               seeded torch seed = inl e ->
               image = None /\ message = ui_failure e)
        /\ (forall p g e,
               prompt = Some p ->
               ~ whitespace_only p ->
               seeded torch seed = inr g ->
               flux_pipeline (ui_generation_args torch p height width guidance_scale
                                num_inference_steps max_sequence_length g) = inl e ->
               image = None /\ message = ui_failure e)
        /\ (forall p g,
               prompt = Some p ->
               ~ whitespace_only p ->
               seeded torch seed = inr g ->
               flux_pipeline (ui_generation_args torch p height width guidance_scale
                                num_inference_steps max_sequence_length g) = inr [] ->
               image = None
               /\ message = ui_failure (Exception "IndexError" "list index out of range"))
        /\ (forall p g output_image rest,
               prompt = Some p ->
               ~ whitespace_only p ->
               seeded torch seed = inr g ->
               flux_pipeline (ui_generation_args torch p height width guidance_scale
                                num_inference_steps max_sequence_length g)
               = inr (output_image :: rest) ->
               image = Some output_image
               /\ message
                  = ("推理完成！实际耗时: "
                     ++ format_2f (float_sub (clock w (S (clock_reads w)))
                                     (clock w (clock_reads w)))
                     ++ "秒")%string)
        /\ (forall output_image,
               image = Some output_image ->
               exists p g rest,
                 prompt = Some p
                 /\ seeded torch seed = inr g
                 /\ flux_pipeline (ui_generation_args torch p height width guidance_scale
                                     num_inference_steps max_sequence_length g)
                    = inr (output_image :: rest)))
  /\ (forall (files : option (list (option (QwenEdit.Upload pil)))) (prompt : option str)
             (negative_prompt : str)
             (num_inference_steps guidance_scale true_cfg_scale : Q) (seed : Z)
             (w : World (GeneratorState torch) (QwenEdit.PipelineCall torch pil)),
        exists image message w',
          QwenEdit.inference torch pil edit_pipeline files prompt negative_prompt
            num_inference_steps guidance_scale true_cfg_scale seed w
          = (inr (image, message), w')
          /\ (uploads files = [] ->
              image = None /\ message = "请至少上传一张图片"%string)
          /\ (uploads files <> [] ->
              match prompt with Some p => whitespace_only p | None => True end ->
              image = None /\ message = "请输入提示词"%string)
          /\ (forall p,
                 prompt = Some p ->
                 ~ whitespace_only p ->
                 uploads files <> [] ->
                 readable pil (uploads files) = [] ->
                 image = None
                 /\ message
                    = "无法处理上传的图片，请确保上传的是有效的图片文件"%string)
          /\ (forall p e,
                 prompt = Some p ->
                 ~ whitespace_only p ->
                 readable pil (uploads files) <> [] ->
                 seeded torch seed = inl e ->
                 image = None /\ message = ui_failure e)
          /\ (forall p g e,
                 prompt = Some p ->
                 ~ whitespace_only p ->
                 readable pil (uploads files) <> [] ->
                 seeded torch seed = inr g ->
                 fst (edit_pipeline
                        (ui_edit_inputs pil (readable pil (uploads files)) p negative_prompt
                           num_inference_steps guidance_scale true_cfg_scale) g) = inl e ->
                 image = None /\ message = ui_failure e)
          /\ (forall p g,
                 prompt = Some p ->
                 ~ whitespace_only p ->
                 readable pil (uploads files) <> [] ->
                 seeded torch seed = inr g ->
                 fst (edit_pipeline
                        (ui_edit_inputs pil (readable pil (uploads files)) p negative_prompt
                           num_inference_steps guidance_scale true_cfg_scale) g) = inr [] ->
                 image = None
                 /\ message = ui_failure (Exception "IndexError" "list index out of range"))
          /\ (forall p g output_image rest,
                 prompt = Some p ->
                 ~ whitespace_only p ->
                 readable pil (uploads files) <> [] ->
                 seeded torch seed = inr g ->
                 fst (edit_pipeline
                        (ui_edit_inputs pil (readable pil (uploads files)) p negative_prompt
                           num_inference_steps guidance_scale true_cfg_scale) g)
                 = inr (output_image :: rest) ->
                 image = Some output_image
                 /\ message
                    = ("推理完成！已处理 "
                       ++ show_nat (List.length (readable pil (uploads files)))
                       ++ " 张输入图片")%string)
          /\ (forall output_image,
                 image = Some output_image ->
                 exists p g rest,
                   prompt = Some p
                   /\ seeded torch seed = inr g
                   /\ fst (edit_pipeline
                             (ui_edit_inputs pil (readable pil (uploads files)) p
                                negative_prompt num_inference_steps guidance_scale
                                true_cfg_scale) g)
                      = inr (output_image :: rest))).
Proof.
  split.
  - intros prompt height width guidance_scale num_inference_steps max_sequence_length
           seed w.
    assert (Hblank : (match prompt with
                      | Some p => prompt_is_blank p = true
                      | None => True
                      end
                      /\ forall p, prompt = Some p -> whitespace_only p)
                     \/ exists p, prompt = Some p /\ prompt_is_blank p = false
                                  /\ ~ whitespace_only p).
    { destruct prompt as [p | ]; [ | left; split; [ exact I | discriminate ] ].
      destruct (prompt_is_blank p) eqn:Hb.
      - left. split; [ reflexivity | ].
        intros p' [= <-]. now apply Prompts.prompt_is_blank_iff.
      - right. exists p. split; [ reflexivity | split; [ exact Hb | ] ].
        intros Hws. apply Prompts.prompt_is_blank_iff in Hws. congruence. }
    destruct Hblank as [[Hb Hws] | [p [-> [Hb Hnws]]]].
    + exists None, "请输入提示词"%string, w.
      split; [ now apply flux_inference_blank | ].
      repeat split; intros; subst;
        try match goal with
            | H : ~ whitespace_only ?p |- _ => now elim H; apply Hws
            end;
        try discriminate.
    + rewrite (flux_inference_run torch pil flux_pipeline p height width
                 guidance_scale num_inference_steps max_sequence_length seed w Hb).
      destruct (seeded torch seed) as [e | g] eqn:Hseed.
      { eexists _, _, _. split; [ reflexivity | ]. repeat split; leaf. }
      cbv zeta.
      destruct (flux_pipeline _) as [e | [ | output_image rest ]] eqn:Hp;
        cbn [index nth_error];
        (eexists _, _, _; split; [ reflexivity | ]; repeat split; leaf).
  - intros files prompt negative_prompt num_inference_steps guidance_scale true_cfg_scale
           seed w.
    destruct (uploads files) as [ | file0 files0 ] eqn:Hu.
    { exists None, "请至少上传一张图片"%string, w.
      split; [ now apply QwenFacts.inference_no_files | ].
      cbn [readable]. repeat split; leaf. }
    assert (Hne : uploads files <> []) by (rewrite Hu; discriminate).
    rewrite <- Hu.
    assert (Hblank : (match prompt with
                      | Some p => prompt_is_blank p = true
                      | None => True
                      end
                      /\ forall p, prompt = Some p -> whitespace_only p)
                     \/ exists p, prompt = Some p /\ prompt_is_blank p = false
                                  /\ ~ whitespace_only p).
    { destruct prompt as [p | ]; [ | left; split; [ exact I | discriminate ] ].
      destruct (prompt_is_blank p) eqn:Hb.
      - left. split; [ reflexivity | ].
        intros p' [= <-]. now apply Prompts.prompt_is_blank_iff.
      - right. exists p. split; [ reflexivity | split; [ exact Hb | ] ].
        intros Hws. apply Prompts.prompt_is_blank_iff in Hws. congruence. }
    destruct Hblank as [[Hb Hws] | [p [-> [Hb Hnws]]]].
    { exists None, "请输入提示词"%string, w.
      split; [ now apply QwenFacts.inference_blank | ].
      repeat split; intros; subst;
        try match goal with
            | H : ~ whitespace_only ?p |- _ => now elim H; apply Hws
            end;
        try discriminate; try contradiction. }
    destruct (readable pil (uploads files)) as [ | image0 images0 ] eqn:Hr.
    { eexists _, _, w.
      split; [ now apply QwenFacts.inference_unreadable | ].
      repeat split; leaf. }
    assert (Hr' : readable pil (uploads files) <> []) by (rewrite Hr; discriminate).
    rewrite <- Hr.
    rewrite (QwenFacts.inference_run torch pil edit_pipeline files p negative_prompt
               num_inference_steps guidance_scale true_cfg_scale seed w Hb Hr').
    destruct (seeded torch seed) as [e | g] eqn:Hseed.
    { eexists _, _, _. split; [ reflexivity | ]. repeat split; leaf. }
    cbv zeta.
    destruct (fst (edit_pipeline _ g)) as [e | [ | output_image rest ]] eqn:Hp;
      cbn [index nth_error];
      (eexists _, _, _; split; [ reflexivity | ]; repeat split; leaf).
Qed.

(** C7.  The slip in the editing callback.  [process_uploaded_files]
    accepts a single value that is not a list and wraps it: given a PIL
    image on its own it returns that image.  But [inference] evaluates
    [len(files)] in its first guard, before its [try], and a PIL image
    has no length: the [TypeError] leaves the callback, whatever the other
    arguments, and the callback returns neither an image nor a message. *)
Theorem bare_image_escapes_callback (torch : Torch) (pil : PIL)
    (pipeline : QwenEdit.EditInputs pil -> GeneratorState torch
                -> res (list (Image pil)) * GeneratorState torch)
    (image : Image pil) (prompt : option str) (negative_prompt : str)
    (num_inference_steps guidance_scale true_cfg_scale : Q) (seed : Z)
    (w : World (GeneratorState torch) (QwenEdit.PipelineCall torch pil)) :
  QwenEdit.process_uploaded_files_any pil (QwenEdit.files_image pil image) = [image]
  /\ QwenEdit.inference_any torch pil pipeline (QwenEdit.files_image pil image) prompt
       negative_prompt num_inference_steps guidance_scale true_cfg_scale seed w
     = (inl (Raised (Exception "TypeError" "object of type 'Image' has no len()")), w)
  /\ (forall out w',
         QwenEdit.inference_any torch pil pipeline (QwenEdit.files_image pil image)
           prompt negative_prompt num_inference_steps guidance_scale true_cfg_scale
           seed w
         <> (inr out, w')).
Proof.
  split; [ reflexivity | split; [ reflexivity | ] ].
  intros out w' H. discriminate H.
Qed.

(** On a path given on its own the callback does what it does on the list
    that holds the path. *)
Lemma bare_path_is_wrapped (torch : Torch) (pil : PIL)
    (pipeline : QwenEdit.EditInputs pil -> GeneratorState torch
                -> res (list (Image pil)) * GeneratorState torch)
    (c : codepoint) (path : str) (prompt : option str) (negative_prompt : str)
    (num_inference_steps guidance_scale true_cfg_scale : Q) (seed : Z)
    (w : World (GeneratorState torch) (QwenEdit.PipelineCall torch pil)) :
  QwenEdit.inference_any torch pil pipeline (QwenEdit.files_path pil (c :: path)) prompt
    negative_prompt num_inference_steps guidance_scale true_cfg_scale seed w
  = QwenEdit.inference torch pil pipeline
      (Some [Some (QwenEdit.upload_path pil (c :: path))]) prompt
      negative_prompt num_inference_steps guidance_scale true_cfg_scale seed w.
Proof. reflexivity. Qed.

End Callbacks.

(** ** Reproducibility *)

Module Reproducibility.

Import FastAPI Terms.
Local Open Scope Z_scope.

Section Generation.

Variable torch : Torch.
Variable pil : PIL.
Variable pipeline : Flux.PipelineArgs torch -> res (list (Image pil)).

(** Apart from its timing fields, the response of the generation route is
    a function of the body alone. *)
Lemma post_generations_untimed (b : Flux.Body) :
  exists u, forall w : World (GeneratorState torch) (Flux.PipelineArgs torch),
      untimed (fst (Flux.post_generations torch pil pipeline b w)) = u.
Proof.
  destruct (Flux.validate b) as [errors | request] eqn:Hv.
  { eexists. intros w. rewrite FluxFacts.post_generations_unfold, Hv. cbn. reflexivity. }
  destruct (prompt_is_blank (Flux.prompt request)) eqn:Hb.
  { eexists. intros w.
    rewrite (FluxFacts.post_generations_blank torch pil pipeline b request w Hv Hb).
    cbn. reflexivity. }
  destruct (seeded torch (Flux.seed request)) as [e | g] eqn:Hs.
  { eexists. intros w. rewrite FluxFacts.post_generations_unfold, Hv.
    rewrite (FluxFacts.image_generation_run torch pil pipeline request w Hb), Hs.
    cbn. reflexivity. }
  destruct (pipeline (generation_args torch request g)) as [e | images] eqn:Hp.
  { eexists. intros w. rewrite FluxFacts.post_generations_unfold, Hv.
    rewrite (FluxFacts.image_generation_run torch pil pipeline request w Hb), Hs, Hp.
    cbn. reflexivity. }
  destruct (index images 0) as [e | output_image] eqn:Ho.
  { eexists. intros w. rewrite FluxFacts.post_generations_unfold, Hv.
    rewrite (FluxFacts.image_generation_run torch pil pipeline request w Hb), Hs, Hp, Ho.
    cbn. reflexivity. }
  destruct (Flux.image_to_base64 pil output_image) as [e | output_base64] eqn:He.
  { eexists. intros w. rewrite FluxFacts.post_generations_unfold, Hv.
    rewrite (FluxFacts.image_generation_run torch pil pipeline request w Hb),
      Hs, Hp, Ho, He.
    cbn. reflexivity. }
  eexists. intros w. rewrite FluxFacts.post_generations_unfold, Hv.
  rewrite (FluxFacts.image_generation_run torch pil pipeline request w Hb),
    Hs, Hp, Ho, He.
  cbn. reflexivity.
Qed.

(** The generator handed to the pipeline is in the state the seed gives. *)
Lemma post_generations_calls (b : Flux.Body)
    (w : World (GeneratorState torch) (Flux.PipelineArgs torch)) :
  exists calls,
    pipeline_calls (snd (Flux.post_generations torch pil pipeline b w))
    = pipeline_calls w ++ calls
    /\ Forall (fun args =>
                 exists request,
                   Flux.validate b = inr request
                   /\ seeded torch (Flux.seed request) = inr (Flux.arg_generator torch args))
              calls.
Proof.
  rewrite FluxFacts.post_generations_unfold.
  destruct (Flux.validate b) as [errors | request] eqn:Hv.
  { exists []. cbn [snd]. now rewrite app_nil_r. }
  destruct (prompt_is_blank (Flux.prompt request)) eqn:Hb.
  { rewrite (FluxFacts.image_generation_blank torch pil pipeline request w Hb).
    exists []. cbn [snd]. now rewrite app_nil_r. }
  destruct (FluxFacts.image_generation_outcome torch pil pipeline request w Hb)
    as [reads [calls [Hw [_ Hcalls]]]].
  exists calls. split.
  - destruct (Flux.image_generation torch pil pipeline request w) as [[[sc d | e] | c] w'];
      cbn [snd] in *; rewrite Hw; reflexivity.
  - destruct Hcalls as [-> | [g [Hs ->]]]; repeat constructor.
    exists request. split; [ reflexivity | exact Hs ].
Qed.

(** The image the generation callback returns is a function of its
    arguments alone. *)
Lemma flux_inference_image (prompt : option str) (height width : Z)
    (guidance_scale num_inference_steps : Q) (max_sequence_length seed : Z) :
  exists image, forall w : World (GeneratorState torch) (Flux.PipelineArgs torch),
      returned_image
        (fst (Flux.inference torch pil pipeline prompt height width guidance_scale
                num_inference_steps max_sequence_length seed w)) = image.
Proof.
  assert (Hblank : match prompt with
                   | Some p => prompt_is_blank p = true
                   | None => True
                   end
                   \/ exists p, prompt = Some p /\ prompt_is_blank p = false).
  { destruct prompt as [p | ]; [ | now left ].
    destruct (prompt_is_blank p) eqn:Hb; [ now left | right; now exists p ]. }
  destruct Hblank as [Hb | [p [-> Hb]]].
  { eexists. intros w.
    rewrite (Callbacks.flux_inference_blank torch pil pipeline prompt height width
               guidance_scale num_inference_steps max_sequence_length seed w Hb).
    cbn. reflexivity. }
  destruct (seeded torch seed) as [e | g] eqn:Hs.
  { eexists. intros w.
    rewrite (Callbacks.flux_inference_run torch pil pipeline p height width
               guidance_scale num_inference_steps max_sequence_length seed w Hb), Hs.
    cbn. reflexivity. }
  destruct (pipeline (ui_generation_args torch p height width guidance_scale
                        num_inference_steps max_sequence_length g))
    as [e | images] eqn:Hp.
  { eexists. intros w.
    rewrite (Callbacks.flux_inference_run torch pil pipeline p height width
               guidance_scale num_inference_steps max_sequence_length seed w Hb), Hs.
    cbv zeta. rewrite Hp. cbn. reflexivity. }
  destruct (index images 0) as [e | output_image] eqn:Ho.
  { eexists. intros w.
    rewrite (Callbacks.flux_inference_run torch pil pipeline p height width
               guidance_scale num_inference_steps max_sequence_length seed w Hb), Hs.
    cbv zeta. rewrite Hp, Ho. cbn. reflexivity. }
  eexists. intros w.
  rewrite (Callbacks.flux_inference_run torch pil pipeline p height width
             guidance_scale num_inference_steps max_sequence_length seed w Hb), Hs.
  cbv zeta. rewrite Hp, Ho. cbn. reflexivity.
Qed.

End Generation.

(** C1.  Reproducibility.  With the pipeline a function of its arguments
    and of the state of the generator it is handed, two calls with the same
    inputs give the same output, whatever the state of the process (the
    default generator, the clock, the calls made before) they start from:
    the generation route returns the same response up to its timing fields,
    the editing route the same response, the generation callback of the UI
    the same image and the editing callback the same image and message; and in
    every call the routes make to the pipeline, the generator is in the
    state that seeding with the seed of the request gives. *)
Theorem inference_is_reproducible (torch : Torch) (pil : PIL)
    (flux_pipeline : Flux.PipelineArgs torch -> res (list (Image pil)))
    (edit_pipeline : QwenEdit.EditInputs pil -> GeneratorState torch
                     -> res (list (Image pil)) * GeneratorState torch) :
  (forall (b : Flux.Body) (w1 w2 : World (GeneratorState torch) (Flux.PipelineArgs torch)),
      untimed (fst (Flux.post_generations torch pil flux_pipeline b w1))
      = untimed (fst (Flux.post_generations torch pil flux_pipeline b w2)))
  /\ (forall (b : Flux.Body) (w : World (GeneratorState torch) (Flux.PipelineArgs torch)),
        exists calls,
          pipeline_calls (snd (Flux.post_generations torch pil flux_pipeline b w))
          = pipeline_calls w ++ calls
          /\ Forall (fun args =>
                       exists request,
                         Flux.validate b = inr request
                         /\ seeded torch (Flux.seed request)
                            = inr (Flux.arg_generator torch args))
                    calls)
  /\ (forall (b : QwenEdit.Body)
             (w1 w2 : World (GeneratorState torch) (QwenEdit.PipelineCall torch pil)),
        fst (QwenEdit.post_edits torch pil edit_pipeline b w1)
        = fst (QwenEdit.post_edits torch pil edit_pipeline b w2))
  /\ (forall (b : QwenEdit.Body)
             (w : World (GeneratorState torch) (QwenEdit.PipelineCall torch pil)),
        exists calls,
          pipeline_calls (snd (QwenEdit.post_edits torch pil edit_pipeline b w))
          = pipeline_calls w ++ calls
          /\ Forall (fun call =>
                       exists request,
                         QwenEdit.validate b = inr request
                         /\ seeded torch (QwenEdit.seed request)
                            = inr (QwenEdit.call_generator torch pil call))
                    calls)
  /\ (forall (prompt : option str) (height width : Z)
             (guidance_scale num_inference_steps : Q) (max_sequence_length seed : Z)
             (w1 w2 : World (GeneratorState torch) (Flux.PipelineArgs torch)),
        returned_image
          (fst (Flux.inference torch pil flux_pipeline prompt height width guidance_scale
                  num_inference_steps max_sequence_length seed w1))
        = returned_image
            (fst (Flux.inference torch pil flux_pipeline prompt height width
                    guidance_scale num_inference_steps max_sequence_length seed w2)))
  /\ (forall (files : option (list (option (QwenEdit.Upload pil)))) (prompt : option str)
             (negative_prompt : str)
             (num_inference_steps guidance_scale true_cfg_scale : Q) (seed : Z)
             (w1 w2 : World (GeneratorState torch) (QwenEdit.PipelineCall torch pil)),
        fst (QwenEdit.inference torch pil edit_pipeline files prompt negative_prompt
               num_inference_steps guidance_scale true_cfg_scale seed w1)
        = fst (QwenEdit.inference torch pil edit_pipeline files prompt negative_prompt
                 num_inference_steps guidance_scale true_cfg_scale seed w2)).
Proof.
  repeat split.
  - intros b w1 w2.
    destruct (post_generations_untimed torch pil flux_pipeline b) as [u Hu].
    now rewrite (Hu w1), (Hu w2).
  - intros b w. apply post_generations_calls.
  - intros b w1 w2.
    destruct (QwenFacts.post_edits_outcome torch pil edit_pipeline b)
      as [response [g' [calls [Hrun _]]]].
    now rewrite (Hrun w1), (Hrun w2).
  - intros b w.
    destruct (QwenFacts.post_edits_outcome torch pil edit_pipeline b)
      as [response [g' [calls [Hrun Hcalls]]]].
    exists calls. rewrite Hrun. split; [ reflexivity | ].
    destruct Hcalls as [-> | [request [pil_images [g [Hv [_ [Hs ->]]]]]]];
      repeat constructor.
    exists request. split; [ exact Hv | exact Hs ].
  - intros prompt height width guidance_scale num_inference_steps max_sequence_length
           seed w1 w2.
    destruct (flux_inference_image torch pil flux_pipeline prompt height width
                guidance_scale num_inference_steps max_sequence_length seed) as [i Hi].
    now rewrite (Hi w1), (Hi w2).
  - intros files prompt negative_prompt num_inference_steps guidance_scale
           true_cfg_scale seed w1 w2.
    destruct (QwenFacts.inference_outcome torch pil edit_pipeline files prompt
                negative_prompt num_inference_steps guidance_scale true_cfg_scale seed)
      as [out [g' [calls [Hrun _]]]].
    now rewrite (Hrun w1), (Hrun w2).
Qed.

End Reproducibility.

(** * Further properties of the code *)

(** ** The decoder of the editing service *)

Module Decoder.

Import QwenEdit Fields Alphabet.
Local Open Scope list_scope.

Lemma after_first_tagged (tag payload : str) :
  contains COMMA tag = false ->
  Spec.after_first COMMA (tag ++ COMMA :: payload) = Some payload.
Proof.
  unfold contains.
  induction tag as [ | c tag IH ]; cbn -[N.eqb COMMA].
  - intros _. now rewrite N.eqb_refl.
  - rewrite (N.eqb_sym COMMA c).
    destruct (c =? COMMA)%N; cbn -[N.eqb COMMA]; [ discriminate | exact IH ].
Qed.

Lemma second_field_after_tag (tag payload : str) :
  contains COMMA tag = false ->
  contains COMMA payload = false ->
  second_field (tag ++ COMMA :: payload) = payload.
Proof.
  intros Htag Hpayload. unfold second_field.
  rewrite (after_first_tagged tag payload Htag).
  apply (Codec.before_first_no_comma payload Hpayload).
Qed.

Lemma contains_app (c : codepoint) (s t : str) :
  contains c (s ++ t) = contains c s || contains c t.
Proof. unfold contains. apply existsb_app. Qed.

(** X1.  The format tag is never inspected.  Whatever stands before the only
    comma of a text (a tag that names another media type, a tag that is no
    data URI at all, nothing), [base64_to_image] decodes what follows the
    comma, exactly as it decodes that payload given alone. *)
Theorem base64_to_image_ignores_tag (pil : PIL) (tag payload : str)
    (Htag : contains COMMA tag = false)
    (Hpayload : contains COMMA payload = false) :
  base64_to_image pil (tag ++ COMMA :: payload) = base64_to_image pil payload
  /\ base64_to_image pil (tag ++ COMMA :: payload)
     = and_then (b64decode payload) (Image_open pil).
Proof.
  rewrite !Codec.base64_to_image_unfold.
  rewrite (Codec.second_field_no_comma payload Hpayload).
  rewrite (second_field_after_tag tag payload Htag Hpayload). split; reflexivity.
Qed.

(** A PNG signature announced as JPEG, and one behind a tag that is no data
    URI, are opened like the bare payload. *)
Lemma base64_to_image_ignores_tag_witness :
  base64_to_image Demo.pil (lit "data:image/jpeg;base64" ++ COMMA :: lit "iVBORw0K")
  = base64_to_image Demo.pil (lit "iVBORw0K")
  /\ base64_to_image Demo.pil (lit "data:image/jpeg;base64" ++ COMMA :: lit "iVBORw0K")
     = and_then (b64decode (lit "iVBORw0K")) (Image_open Demo.pil).
Proof.
  apply (base64_to_image_ignores_tag Demo.pil (lit "data:image/jpeg;base64")
           (lit "iVBORw0K")); reflexivity.
Defined.

(** The text decoder passes over every character that is neither of the
    alphabet nor the pad. *)
Lemma a2b_loop_filter (s : str) :
  forall quad_pos leftchar pads bin_data,
    a2b_loop (filter data_or_pad s) quad_pos leftchar pads bin_data
    = a2b_loop s quad_pos leftchar pads bin_data.
Proof.
  induction s as [ | c s IH ]; intros quad_pos leftchar pads bin_data; [ reflexivity | ].
  cbn [filter]. unfold data_or_pad at 1.
  destruct (c =? BASE64_PAD)%N eqn:Hpad.
  - cbn [orb a2b_loop]. rewrite Hpad.
    destruct (2 <=? quad_pos)%nat; [ | apply IH ].
    destruct (4 <=? quad_pos + S pads)%nat; [ reflexivity | apply IH ].
  - cbn [orb]. destruct (table_a2b_base64 c) as [v | ] eqn:Hv.
    + cbn [a2b_loop]. rewrite Hpad, Hv.
      destruct quad_pos as [ | [ | [ | q ] ] ]; apply IH.
    + cbn [a2b_loop]. rewrite Hpad, Hv. apply IH.
Qed.

Lemma is_ascii_filter (f : codepoint -> bool) (s : str) :
  is_ascii s = true -> is_ascii (filter f s) = true.
Proof.
  unfold is_ascii. rewrite !forallb_forall. intros H c Hc.
  apply filter_In in Hc. now apply H.
Qed.

Lemma contains_filter (f : codepoint -> bool) (c : codepoint) (s : str) :
  contains c s = false -> contains c (filter f s) = false.
Proof.
  unfold contains. induction s as [ | d s IH ]; cbn -[N.eqb]; [ reflexivity | ].
  destruct (c =? d)%N eqn:Hcd; cbn -[N.eqb]; [ discriminate | ].
  intros H. destruct (f d); cbn -[N.eqb]; [ rewrite Hcd | ]; now apply IH.
Qed.

(** X2.  The decoder is tolerant of stray characters and strict on
    non-ASCII ones.  On an ASCII text without a comma, [base64_to_image]
    gives the same result as on the text with every character outside the
    base64 alphabet (line breaks, blanks, punctuation) removed; a text
    without a comma that holds a character outside ASCII is refused with a
    [ValueError] before PIL sees anything. *)
Theorem base64_to_image_skips_stray_characters (pil : PIL) :
  (forall text : str,
      is_ascii text = true ->
      contains COMMA text = false ->
      base64_to_image pil text = base64_to_image pil (filter data_or_pad text))
  /\ (forall text : str,
        is_ascii text = false ->
        contains COMMA text = false ->
        base64_to_image pil text
        = inl (Exception "ValueError"
                 "string argument should contain only ASCII characters")).
Proof.
  split; intros text Ha Hc.
  - rewrite !Codec.base64_to_image_unfold.
    rewrite (Codec.second_field_no_comma text Hc).
    rewrite (Codec.second_field_no_comma _ (contains_filter data_or_pad COMMA text Hc)).
    unfold b64decode. rewrite Ha, (is_ascii_filter data_or_pad text Ha).
    now rewrite a2b_loop_filter.
  - rewrite Codec.base64_to_image_unfold, (Codec.second_field_no_comma text Hc).
    unfold b64decode. rewrite Ha. reflexivity.
Qed.

(** A payload broken over two lines is opened like the unbroken one. *)
Lemma base64_to_image_skips_stray_characters_witness :
  base64_to_image Demo.pil (lit "iVBO" ++ 10%N :: 32%N :: lit "Rw0K")
  = base64_to_image Demo.pil (lit "iVBORw0K").
Proof.
  apply (proj1 (base64_to_image_skips_stray_characters Demo.pil)
           (lit "iVBO" ++ 10%N :: 32%N :: lit "Rw0K")); reflexivity.
Defined.

End Decoder.

(** ** The preview gallery of the editing UI *)

Module Gallery.

Import QwenEdit Terms.

Section Preview.

Variable torch : Torch.
Variable pil : PIL.
Variable pipeline :
  EditInputs pil -> GeneratorState torch -> res (list (Image pil)) * GeneratorState torch.

Lemma collect_gallery_readable (files : list (option (Upload pil)))
    (gallery_images : list (Image pil)) :
  collect_gallery pil files gallery_images = gallery_images ++ readable pil files.
Proof.
  revert gallery_images.
  induction files as [ | [ file | ] rest IH ]; intros gallery_images; cbn.
  - now rewrite app_nil_r.
  - replace (gallery_image pil file) with (open_upload pil file)
      by (destruct file; reflexivity).
    destruct (open_upload pil file) as [ e | image ]; rewrite IH; [ reflexivity | ].
    now rewrite <- app_assoc.
  - apply IH.
Qed.

Lemma update_gallery_readable (files : option (list (option (Upload pil)))) :
  update_gallery pil files = readable pil (uploads files).
Proof.
  destruct files as [ [ | f rest ] | ]; try reflexivity.
  unfold update_gallery. now rewrite collect_gallery_readable.
Qed.

End Preview.

(** X3.  The preview shows what the engine will get.  On the same upload list
    and file system, [update_gallery] returns the very list that
    [process_uploaded_files] returns: the entries that open, in upload
    order, with [None] entries and entries that raise left out.  So
    whenever the editing callback calls the pipeline, the images it
    passes are the images of the gallery, and a gallery that stays empty
    means that the callback will not call the pipeline. *)
Theorem gallery_shows_engine_input (torch : Torch) (pil : PIL)
    (pipeline :
       EditInputs pil -> GeneratorState torch -> res (list (Image pil)) * GeneratorState torch)
    (files : option (list (option (Upload pil)))) :
  update_gallery pil files = process_uploaded_files pil files
  /\ forall (prompt : option str) (negative_prompt : str)
       (num_inference_steps guidance_scale true_cfg_scale : Q) (seed : Z)
       (w : World (GeneratorState torch) (PipelineCall torch pil)),
       exists calls,
         pipeline_calls
           (snd (inference torch pil pipeline files prompt negative_prompt
                   num_inference_steps guidance_scale true_cfg_scale seed w))
         = pipeline_calls w ++ calls
         /\ Forall (fun call =>
                      in_image pil (call_inputs torch pil call) = update_gallery pil files)
                   calls
         /\ (update_gallery pil files = [] -> calls = []).
Proof.
  split.
  - now rewrite update_gallery_readable, QwenFacts.process_uploaded_files_readable.
  - intros prompt negative_prompt num_inference_steps guidance_scale true_cfg_scale seed w.
    destruct (QwenFacts.inference_outcome torch pil pipeline files prompt negative_prompt
                num_inference_steps guidance_scale true_cfg_scale seed)
      as [out [g' [calls [Hrun Hcalls]]]].
    exists calls. rewrite Hrun. cbn [snd]. unfold settle. cbn [pipeline_calls].
    split; [ reflexivity | ].
    rewrite update_gallery_readable.
    destruct Hcalls as [-> | [p [g [_ [Hne [_ ->]]]]]].
    + split; [ constructor | reflexivity ].
    + split; [ repeat constructor | intros H; contradiction ].
Qed.

End Gallery.

(** ** The start-up configuration *)

Module LauncherFacts.

Import Launcher.
Local Open Scope Z_scope.

(** X4.  How the two ports are resolved.  A port variable that is unset,
    empty, or not a number falls back to its default: 8099 for the UI, and
    one more than the UI port for the API, so that these two servers never
    ask for the same port; a variable that holds a number is taken as it
    is, whatever the number, so that two variables holding the same number
    give both servers the same port. *)
Theorem ports_fall_back (getenv : string -> option str) (int_of_str : str -> option Z) :
  let unusable name :=
    getenv name = None \/ getenv name = Some []
    \/ exists s, getenv name = Some s /\ int_of_str s = None in
  let cfg := config getenv int_of_str in
  (unusable "GRADIO_PORT"%string -> gradio_port cfg = 8099)
  /\ (unusable "API_PORT"%string ->
      api_port cfg = gradio_port cfg + 1 /\ api_port cfg <> gradio_port cfg)
  /\ (forall s n, s <> [] -> int_of_str s = Some n ->
        (getenv "GRADIO_PORT"%string = Some s -> gradio_port cfg = n)
        /\ (getenv "API_PORT"%string = Some s -> api_port cfg = n)).
Proof.
  cbv zeta. unfold config. cbn [gradio_port api_port].
  assert (Hfall : forall name default,
             (getenv name = None \/ getenv name = Some []
              \/ exists s, getenv name = Some s /\ int_of_str s = None) ->
             port_or getenv int_of_str name default = default).
  { intros name default [H | [H | [s [H Hs]]]]; unfold port_or; rewrite H;
      [ reflexivity | reflexivity | ].
    destruct s; [ reflexivity | now rewrite Hs ]. }
  assert (Htake : forall name default s n,
             s <> [] -> int_of_str s = Some n -> getenv name = Some s ->
             port_or getenv int_of_str name default = n).
  { intros name default s n Hs Hn H. unfold port_or. rewrite H.
    destruct s; [ contradiction | now rewrite Hn ]. }
  split; [ | split ].
  - intros H. now apply Hfall.
  - intros H. rewrite (Hfall _ _ H). split; lia.
  - intros s n Hs Hn. split; intros H; now apply (Htake _ _ s n).
Qed.

(** An environment with [GRADIO_PORT=9000] and [API_PORT=nine]: the UI
    listens on 9000 and the API on 9001. *)
Lemma ports_fall_back_witness :
  gradio_port (config DemoMore.getenv DemoMore.int_of_str) = 9000
  /\ api_port (config DemoMore.getenv DemoMore.int_of_str) = 9001.
Proof.
  destruct (ports_fall_back DemoMore.getenv DemoMore.int_of_str) as [_ [Hapi Htake]].
  destruct (Htake (lit "9000") 9000 ltac:(discriminate) eq_refl) as [Hg _].
  specialize (Hg eq_refl).
  destruct Hapi as [Ha _].
  { right. right. exists (lit "nine"). split; reflexivity. }
  split; [ exact Hg | rewrite Ha, Hg; reflexivity ].
Defined.

End LauncherFacts.

(** ** The test client and the editing service *)

Module ClientServer.

Import Fields.
Local Open Scope list_scope.

(** What [base64_to_image_file] hands to [b64decode]. *)
Lemma base64_to_image_file_unfold (text : str) :
  TestClient.base64_to_image_file text = b64decode (second_field text).
Proof.
  unfold TestClient.base64_to_image_file.
  destruct (contains COMMA text) eqn:Hc.
  - rewrite (Codec.split_index_1 text Hc). reflexivity.
  - rewrite (Codec.second_field_no_comma text Hc). reflexivity.
Qed.

(** No media type of the client's table holds a comma. *)
Lemma mime_type_no_comma (ext : str) :
  contains COMMA (TestClient.dict_get TestClient.mime_types ext (lit "image/png")) = false.
Proof.
  unfold TestClient.mime_types, TestClient.dict_get.
  repeat match goal with
         | |- context [ list_eq_dec ?d ?k ext ] => destruct (list_eq_dec d k ext)
         end; reflexivity.
Qed.

(** X5.  What the client sends is what the server opens.  For a file that the
    client can read, whatever its extension (known to the table of media
    types or not, so also when the tag announces a format the file does not
    have), the client's [image_to_base64] returns a text, and the server's
    [base64_to_image] hands PIL exactly the bytes of the file. *)
Theorem client_upload_reaches_server (pil : PIL)
    (read_file : str -> res bytes) (lower_ext : str -> str)
    (image_path : str) (img_data : bytes)
    (Hread : read_file image_path = inr img_data) :
  exists text,
    TestClient.image_to_base64 read_file lower_ext image_path = inr text
    /\ QwenEdit.base64_to_image pil text = Image_open pil img_data.
Proof.
  unfold TestClient.image_to_base64. rewrite Hread. cbn [and_then].
  eexists. split; [ reflexivity | ].
  rewrite Codec.base64_to_image_unfold.
  change (lit ";base64,") with (lit ";base64" ++ [COMMA]).
  replace (lit "data:" ++
           TestClient.dict_get TestClient.mime_types (lower_ext image_path) (lit "image/png")
           ++ (lit ";base64" ++ [COMMA]) ++ b64encode img_data)
    with ((lit "data:" ++
           TestClient.dict_get TestClient.mime_types (lower_ext image_path) (lit "image/png")
           ++ lit ";base64") ++ COMMA :: b64encode img_data)
    by (rewrite <- !app_assoc; reflexivity).
  rewrite Decoder.second_field_after_tag.
  - now rewrite Base64Facts.b64decode_b64encode.
  - rewrite !Decoder.contains_app, mime_type_no_comma. reflexivity.
  - apply Base64Facts.b64encode_no_comma.
Qed.

(** The file [bear.JPG], announced as [image/jpeg], arrives as the PNG
    bytes it holds. *)
Lemma client_upload_reaches_server_witness :
  exists text,
    TestClient.image_to_base64 DemoMore.read_file DemoMore.lower_ext (lit "bear.JPG")
    = inr text
    /\ QwenEdit.base64_to_image Demo.pil text = Image_open Demo.pil Demo.sample.
Proof.
  apply (client_upload_reaches_server Demo.pil DemoMore.read_file DemoMore.lower_ext
           (lit "bear.JPG") Demo.sample).
  reflexivity.
Defined.

(** X6.  What either server returns is what the client writes.  When
    [image_to_base64] of a service returns a text for the output image,
    the client's [base64_to_image_file] writes to its output file exactly
    the PNG bytes that PIL produced for that image. *)
Theorem server_result_reaches_client (pil : PIL) (image : Image pil) (text : str)
    (Hencoded : QwenEdit.image_to_base64 pil image = inr text
                \/ Flux.image_to_base64 pil image = inr text) :
  exists png : bytes,
    Image_save_png pil image = inr png
    /\ TestClient.base64_to_image_file text = inr png.
Proof.
  assert (H : and_then (Image_save_png pil image) (fun buffered =>
                inr (lit "data:image/png;base64," ++ b64encode buffered)) = inr text).
  { destruct Hencoded as [H | H]; exact H. }
  destruct (Image_save_png pil image) as [ e | png ]; cbn [and_then] in H;
    [ discriminate | ].
  assert (Ht : text = lit "data:image/png;base64," ++ b64encode png) by congruence.
  subst text. exists png. split; [ reflexivity | ].
  rewrite base64_to_image_file_unfold.
  rewrite (Codec.second_field_tagged _ (Base64Facts.b64encode_no_comma png)).
  apply Base64Facts.b64decode_b64encode.
Qed.

Lemma server_result_reaches_client_witness :
  exists png : bytes,
    Image_save_png Demo.pil Demo.sample = inr png
    /\ TestClient.base64_to_image_file (lit "data:image/png;base64,iVBORw0K") = inr png.
Proof.
  apply (server_result_reaches_client Demo.pil Demo.sample
           (lit "data:image/png;base64,iVBORw0K")).
  left. reflexivity.
Defined.

End ClientServer.

(** ** The two routes, case by case *)

Module RouteFacts.

Import FastAPI Terms RouteTerms.
Local Open Scope Z_scope.

(** *** Accepted fields *)

Lemma Field_int_accepted (name : string) (default lo hi : Z) (given : option Z) (v : Z) :
  lo <= default <= hi ->
  Field_int name default lo hi given = ([], v) ->
  v = Field_default default given /\ lo <= v <= hi.
Proof.
  intros Hd. unfold Field_int, Field_default. destruct given as [ x | ].
  - destruct (Z.ltb_spec x lo); [ discriminate | ].
    destruct (Z.ltb_spec hi x); [ discriminate | ].
    intros Heq. injection Heq as <-. split; [ reflexivity | lia ].
  - intros Heq. injection Heq as <-. split; [ reflexivity | lia ].
Qed.

Lemma Field_float_accepted (name : string) (default lo hi : Q) (given : option Q) (v : Q) :
  (lo <= default <= hi)%Q ->
  Field_float name default lo hi given = ([], v) ->
  v = Field_default default given /\ (lo <= v <= hi)%Q.
Proof.
  intros Hd. unfold Field_float, Field_default. destruct given as [ x | ].
  - destruct (Qlt_le_dec x lo); [ discriminate | ].
    destruct (Qlt_le_dec hi x); [ discriminate | ].
    intros Heq. injection Heq as <-. split; [ reflexivity | split; assumption ].
  - intros Heq. injection Heq as <-. split; [ reflexivity | exact Hd ].
Qed.

Lemma Field_required_str_accepted (name : string) (given : option str) (v : str) :
  Field_required_str name given = ([], v) -> given = Some v /\ v <> [].
Proof.
  unfold Field_required_str. destruct given as [ [ | c s ] | ]; cbn; intros H;
    try discriminate H.
  injection H as <-. split; [ reflexivity | discriminate ].
Qed.

Lemma Field_required_list_accepted {A : Type} (name : string) (given : option (list A))
    (v : list A) :
  Field_required_list name given = ([], v) -> given = Some v /\ v <> [].
Proof.
  unfold Field_required_list. destruct given as [ [ | c s ] | ]; cbn; intros H;
    try discriminate H.
  injection H as <-. split; [ reflexivity | discriminate ].
Qed.

Lemma Field_required_list_cases {A : Type} (name : string) (given : option (list A)) :
  (exists v, Field_required_list name given = ([], v) /\ given = Some v /\ v <> [])
  \/ (exists e v, Field_required_list name given = ([e], v)
                  /\ (given = None \/ given = Some [])).
Proof.
  unfold Field_required_list. destruct given as [ [ | c s ] | ]; cbn.
  - right. eexists _, _. split; [ reflexivity | now right ].
  - left. eexists. split; [ reflexivity | split; [ reflexivity | discriminate ] ].
  - right. eexists _, _. split; [ reflexivity | now left ].
Qed.

(** What the generation route knows of a request it hands to the handler. *)
Lemma generation_validate_accepted (b : Flux.Body) (request : Flux.ImageGenerationRequest) :
  Flux.validate b = inr request ->
  (Flux.body_prompt b = Some (Flux.prompt request) /\ Flux.prompt request <> [])
  /\ (Flux.height request = Field_default 1024 (Flux.body_height b)
      /\ 256 <= Flux.height request <= 2048)
  /\ (Flux.width request = Field_default 1024 (Flux.body_width b)
      /\ 256 <= Flux.width request <= 2048)
  /\ (Flux.guidance_scale request = Field_default (35 # 10) (Flux.body_guidance_scale b)
      /\ (0 <= Flux.guidance_scale request <= 20)%Q)
  /\ (Flux.num_inference_steps request
      = Field_default 50 (Flux.body_num_inference_steps b)
      /\ 10 <= Flux.num_inference_steps request <= 100)
  /\ (Flux.max_sequence_length request
      = Field_default 512 (Flux.body_max_sequence_length b)
      /\ 128 <= Flux.max_sequence_length request <= 1024)
  /\ Flux.seed request = Field_default 0 (Flux.body_seed b).
Proof.
  intros H. unfold Flux.validate in H.
  destruct (Field_required_str "prompt" (Flux.body_prompt b)) as [e1 p] eqn:H1.
  destruct (Field_int "height" 1024 256 2048 (Flux.body_height b)) as [e2 h] eqn:H2.
  destruct (Field_int "width" 1024 256 2048 (Flux.body_width b)) as [e3 wd] eqn:H3.
  destruct (Field_float "guidance_scale" (35 # 10) 0 20 (Flux.body_guidance_scale b))
    as [e4 g] eqn:H4.
  destruct (Field_int "num_inference_steps" 50 10 100 (Flux.body_num_inference_steps b))
    as [e5 n] eqn:H5.
  destruct (Field_int "max_sequence_length" 512 128 1024 (Flux.body_max_sequence_length b))
    as [e6 m] eqn:H6.
  destruct (e1 ++ e2 ++ e3 ++ e4 ++ e5 ++ e6) eqn:He; [ | discriminate ].
  injection H as <-. cbn.
  apply app_eq_nil in He as [-> He]. apply app_eq_nil in He as [-> He].
  apply app_eq_nil in He as [-> He]. apply app_eq_nil in He as [-> He].
  apply app_eq_nil in He as [-> ->].
  repeat split.
  - now apply Field_required_str_accepted in H1.
  - now apply Field_required_str_accepted in H1.
  - apply Field_int_accepted in H2; [ tauto | lia ].
  - apply Field_int_accepted in H2; lia.
  - apply Field_int_accepted in H2; lia.
  - apply Field_int_accepted in H3; [ tauto | lia ].
  - apply Field_int_accepted in H3; lia.
  - apply Field_int_accepted in H3; lia.
  - apply Field_float_accepted in H4; [ tauto | split; lra ].
  - apply Field_float_accepted in H4; [ tauto | split; lra ].
  - apply Field_float_accepted in H4; [ tauto | split; lra ].
  - apply Field_int_accepted in H5; [ tauto | lia ].
  - apply Field_int_accepted in H5; lia.
  - apply Field_int_accepted in H5; lia.
  - apply Field_int_accepted in H6; [ tauto | lia ].
  - apply Field_int_accepted in H6; lia.
  - apply Field_int_accepted in H6; lia.
Qed.

(** What the editing route knows of a request it hands to the handler. *)
Lemma edit_validate_accepted (b : QwenEdit.Body) (request : QwenEdit.ImageEditRequest) :
  QwenEdit.validate b = inr request ->
  (QwenEdit.body_images b = Some (QwenEdit.images request)
   /\ QwenEdit.images request <> [])
  /\ (QwenEdit.body_prompt b = Some (QwenEdit.prompt request)
      /\ QwenEdit.prompt request <> [])
  /\ QwenEdit.negative_prompt request
     = Field_default (Some (lit " ")) (QwenEdit.body_negative_prompt b)
  /\ (QwenEdit.num_inference_steps request
      = Field_default 40 (QwenEdit.body_num_inference_steps b)
      /\ 10 <= QwenEdit.num_inference_steps request <= 100)
  /\ (QwenEdit.guidance_scale request
      = Field_default 1%Q (QwenEdit.body_guidance_scale b)
      /\ (0 <= QwenEdit.guidance_scale request <= 10)%Q)
  /\ (QwenEdit.true_cfg_scale request
      = Field_default 4%Q (QwenEdit.body_true_cfg_scale b)
      /\ (0 <= QwenEdit.true_cfg_scale request <= 10)%Q)
  /\ QwenEdit.seed request = Field_default 0 (QwenEdit.body_seed b).
Proof.
  intros H. unfold QwenEdit.validate in H.
  destruct (Field_required_list "images" (QwenEdit.body_images b)) as [e1 i] eqn:H1.
  destruct (Field_required_str "prompt" (QwenEdit.body_prompt b)) as [e2 p] eqn:H2.
  destruct (Field_int "num_inference_steps" 40 10 100 (QwenEdit.body_num_inference_steps b))
    as [e3 n] eqn:H3.
  destruct (Field_float "guidance_scale" 1 0 10 (QwenEdit.body_guidance_scale b))
    as [e4 g] eqn:H4.
  destruct (Field_float "true_cfg_scale" 4 0 10 (QwenEdit.body_true_cfg_scale b))
    as [e5 t] eqn:H5.
  destruct (e1 ++ e2 ++ e3 ++ e4 ++ e5) eqn:He; [ | discriminate ].
  injection H as <-. cbn.
  apply app_eq_nil in He as [-> He]. apply app_eq_nil in He as [-> He].
  apply app_eq_nil in He as [-> He]. apply app_eq_nil in He as [-> ->].
  repeat split.
  - now apply Field_required_list_accepted in H1.
  - now apply Field_required_list_accepted in H1.
  - now apply Field_required_str_accepted in H2.
  - now apply Field_required_str_accepted in H2.
  - apply Field_int_accepted in H3; [ tauto | lia ].
  - apply Field_int_accepted in H3; lia.
  - apply Field_int_accepted in H3; lia.
  - apply Field_float_accepted in H4; [ tauto | split; lra ].
  - apply Field_float_accepted in H4; [ tauto | split; lra ].
  - apply Field_float_accepted in H4; [ tauto | split; lra ].
  - apply Field_float_accepted in H5; [ tauto | split; lra ].
  - apply Field_float_accepted in H5; [ tauto | split; lra ].
  - apply Field_float_accepted in H5; [ tauto | split; lra ].
Qed.

(** An editing body is refused exactly when it violates a constraint. *)
Lemma edit_validate_cases (b : QwenEdit.Body) :
  (exists errors, QwenEdit.validate b = inl errors /\ errors <> [] /\ edit_violation b)
  \/ (exists request, QwenEdit.validate b = inr request /\ ~ edit_violation b).
Proof.
  unfold QwenEdit.validate, edit_violation.
  destruct (Field_required_list_cases "images" (QwenEdit.body_images b))
    as [ [i [-> [Hi Hi']]] | [e1 [i [-> Hi]]] ];
  destruct (FluxFacts.Field_required_str_cases "prompt" (QwenEdit.body_prompt b))
    as [ [p [-> [Hp Hp']]] | [e2 [p [-> Hp]]] ];
  destruct (FluxFacts.Field_int_cases "num_inference_steps" 40 10 100
              (QwenEdit.body_num_inference_steps b))
    as [ [n [-> Hn]] | [e3 [n [-> [Hn Hn']]]] ];
  destruct (FluxFacts.Field_float_cases "guidance_scale" 1 0 10
              (QwenEdit.body_guidance_scale b))
    as [ [g [-> Hg]] | [e4 [g [-> [Hg Hg']]]] ];
  destruct (FluxFacts.Field_float_cases "true_cfg_scale" 4 0 10
              (QwenEdit.body_true_cfg_scale b))
    as [ [t [-> Ht]] | [e5 [t [-> [Ht Ht']]]] ];
  cbn [app];
  try (left; eexists; split; [ reflexivity | split; [ discriminate | ] ];
       first [ destruct Hi as [Hi | Hi]; [ left; exact Hi | right; left; exact Hi ]
             | destruct Hp as [Hp | Hp];
               [ right; right; left; exact Hp | right; right; right; left; exact Hp ]
             | right; right; right; right; left; eexists; split; eassumption
             | right; right; right; right; right; left; eexists; split; eassumption
             | right; right; right; right; right; right; eexists; split; eassumption ]).
  right. eexists. split; [ reflexivity | ].
  unfold outside, outsideQ.
  intros [ H | [ H | [ H | [ H | [ [v [Hv Ho]] | [ [v [Hv Ho]] | [v [Hv Ho]] ] ] ] ] ] ].
  - rewrite Hi in H. discriminate H.
  - rewrite Hi in H. injection H as H. contradiction.
  - rewrite Hp in H. discriminate H.
  - rewrite Hp in H. injection H as H. contradiction.
  - destruct Hn as [Hn | [Hn ?]]; rewrite Hn in Hv; [ discriminate | ].
    injection Hv as <-. lia.
  - destruct Hg as [Hg | [Hg [? ?]]]; rewrite Hg in Hv; [ discriminate | ].
    injection Hv as <-. destruct Ho as [Ho | Ho]; lra.
  - destruct Ht as [Ht | [Ht [? ?]]]; rewrite Ht in Hv; [ discriminate | ].
    injection Hv as <-. destruct Ho as [Ho | Ho]; lra.
Qed.

End RouteFacts.

(** ** The editing route *)

Module EditRoute.

Import FastAPI QwenEdit Terms RouteTerms QwenFacts.
Local Open Scope Z_scope.

Section Handler.

Variable torch : Torch.
Variable pil : PIL.
Variable pipeline :
  EditInputs pil -> GeneratorState torch -> res (list (Image pil)) * GeneratorState torch.

Local Notation "'W'" := (World (GeneratorState torch) (PipelineCall torch pil)).

(** Either every image decodes, or there is a first one that does not. *)
Lemma decode_split (items : list str) :
  (exists pil_images, decoded pil items pil_images)
  \/ (exists pre bad e, first_undecodable pil items pre bad e).
Proof.
  induction items as [ | s rest IH ].
  - left. exists []. constructor.
  - destruct (decode_RGB pil s) as [ e | image ] eqn:Hs.
    + right. exists [], s, e.
      split; [ exists rest; reflexivity | split; [ constructor | exact Hs ] ].
    + destruct IH as [ [imgs H] | [pre [bad [e [[post Hp] [Hpre Hbad]]]]] ].
      * left. exists (image :: imgs). constructor; assumption.
      * right. exists (s :: pre), bad, e.
        split; [ exists post; rewrite Hp; reflexivity | ].
        split; [ constructor; [ exists image; exact Hs | exact Hpre ] | exact Hbad ].
Qed.

Lemma first_undecodable_nonempty (items pre : list str) (bad : str) (e : error) :
  first_undecodable pil items pre bad e -> items <> [].
Proof. intros [[post ->] _]. destruct pre; discriminate. Qed.

Lemma image_edit_first_undecodable (request : ImageEditRequest)
    (pre : list str) (bad : str) (e : error) (w : W) :
  prompt_is_blank (prompt request) = false ->
  first_undecodable pil (images request) pre bad e ->
  image_edit torch pil pipeline request w
  = (inl (HTTPException 400 (names_image (List.length pre + 1) e)), w).
Proof.
  intros Hb Hf. pose proof (first_undecodable_nonempty _ _ _ _ Hf) as Hne.
  destruct Hf as [[post Hi] [Hpre Hbad]].
  apply (image_edit_rejected torch pil pipeline request w _ e Hne Hb).
  rewrite Hi.
  exact (decode_images_first_failure torch pil pre bad post e Hpre Hbad 0%nat [] w).
Qed.

(** What [image_edit] does once every image has decoded. *)
Lemma image_edit_decoded (request : ImageEditRequest)
    (pil_images : list (Image pil)) (w : W) :
  images request <> [] ->
  prompt_is_blank (prompt request) = false ->
  decoded pil (images request) pil_images ->
  pil_images <> []
  /\ List.length pil_images = List.length (images request)
  /\ image_edit torch pil pipeline request w =
     match seeded torch (seed request) with
     | inl e => (inl (failure e), w)
     | inr g =>
       let inputs := edit_inputs pil request pil_images in
       let w' := after_call w (snd (pipeline inputs g))
                   {| call_inputs := inputs; call_generator := g |} in
       match fst (pipeline inputs g) with
       | inl e => (inl (failure e), w')
       | inr output =>
         match index output 0 with
         | inl e => (inl (failure e), w')
         | inr output_image =>
           match image_to_base64 pil output_image with
           | inl e => (inl (failure e), w')
           | inr output_base64 =>
             (inr {| status := "success";
                     message := "推理完成！已处理 "
                                ++ show_nat (List.length pil_images) ++ " 张输入图片";
                     result := {| image := output_base64;
                                  input_count := List.length pil_images |} |}, w')
           end
         end
       end
     end.
Proof.
  intros Hne Hb Hd.
  assert (Hlen : List.length pil_images = List.length (images request))
    by (symmetry; exact (Forall2_length Hd)).
  assert (Hne' : pil_images <> []).
  { intros ->. destruct (images request); [ contradiction | discriminate ]. }
  split; [ exact Hne' | split; [ exact Hlen | ] ].
  apply (image_edit_run torch pil pipeline request w pil_images Hne Hb); [ | exact Hne' ].
  exact (decode_images_all torch pil (images request) pil_images Hd 0%nat [] w).
Qed.

(** The four ways through [image_edit]. *)
Lemma image_edit_cases (request : ImageEditRequest) :
  images request = []
  \/ (images request <> [] /\ prompt_is_blank (prompt request) = true)
  \/ (images request <> [] /\ prompt_is_blank (prompt request) = false
      /\ exists pre bad e, first_undecodable pil (images request) pre bad e)
  \/ (images request <> [] /\ prompt_is_blank (prompt request) = false
      /\ exists pil_images, decoded pil (images request) pil_images).
Proof.
  destruct (images request) as [ | s rest ] eqn:Hi; [ now left | right ].
  assert (Hne : s :: rest <> []) by discriminate.
  destruct (prompt_is_blank (prompt request)); [ left; now split | right ].
  destruct (decode_split (s :: rest)) as [ H | H ]; [ right | left ]; now repeat split.
Qed.

(** The world after the route is the world after the handler. *)
Lemma post_edits_world (b : Body) (w : W) :
  snd (post_edits torch pil pipeline b w)
  = match validate b with
    | inl _ => w
    | inr request => snd (image_edit torch pil pipeline request w)
    end.
Proof.
  rewrite post_edits_unfold. destruct (validate b) as [ errors | request ];
    [ reflexivity | ].
  destruct (image_edit torch pil pipeline request w) as [ [ [ sc d | e ] | content ] w' ];
    reflexivity.
Qed.

End Handler.

Section Details.

Variable torch : Torch.
Variable pil : PIL.
Variable pipeline :
  EditInputs pil -> GeneratorState torch -> res (list (Image pil)) * GeneratorState torch.

(** The details [image_edit] can raise. *)
Lemma image_edit_details (request : ImageEditRequest)
    (w : World (GeneratorState torch) (PipelineCall torch pil)) (sc : Z) (d : string) :
  fst (image_edit torch pil pipeline request w) = inl (HTTPException sc d) ->
  (images request = [] /\ d = NO_IMAGE)
  \/ d = "请输入提示词"%string
  \/ (exists k e, d = names_image k e)
  \/ (exists e, sc = 500 /\ d = ("推理出错: " ++ str_of_exn (Raised e))%string).
Proof.
  intros H.
  destruct (image_edit_cases pil request)
    as [ Hi | [ [Hne Hb] | [ [Hne [Hb [pre [bad [e Hf]]]]] | [Hne [Hb [pil_images Hd]]] ] ] ].
  - rewrite (image_edit_no_images torch pil pipeline request w Hi) in H.
    cbn [fst] in H. injection H as _ <-. left. now split.
  - rewrite (image_edit_blank torch pil pipeline request w Hne Hb) in H.
    cbn [fst] in H. injection H as _ <-. right. now left.
  - rewrite (image_edit_first_undecodable torch pil pipeline request pre bad e w Hb Hf) in H.
    cbn [fst] in H. injection H as _ <-. right. right. left. now eexists _, _.
  - destruct (image_edit_decoded torch pil pipeline request pil_images w Hne Hb Hd)
      as [_ [_ Hrun]].
    rewrite Hrun in H. cbv zeta in H. unfold failure in H.
    right. right. right.
    destruct (seeded torch (seed request)) as [ e | g ];
      [ cbn [fst] in H; injection H as <- <-; now exists e | ].
    destruct (fst (pipeline (edit_inputs pil request pil_images) g)) as [ e | output ];
      [ cbn [fst] in H; injection H as <- <-; now exists e | ].
    destruct (index output 0) as [ e | output_image ];
      [ cbn [fst] in H; injection H as <- <-; now exists e | ].
    destruct (image_to_base64 pil output_image) as [ e | output_base64 ];
      [ cbn [fst] in H; injection H as <- <-; now exists e | ].
    discriminate H.
Qed.

End Details.

(** X7.  The editing handler answers 400 in exactly three cases, each with its
    own detail: the image list is empty; the list is not empty and the
    prompt is blank; the prompt is not blank and some image does not
    decode, in which case the detail names the 1-based index of the first
    such image and carries the message of the exception.  No failure of
    torch, of the pipeline or of the encoding of the result is reported
    as a 400. *)
Theorem edit_400_classified (torch : Torch) (pil : PIL)
    (pipeline :
       EditInputs pil -> GeneratorState torch -> res (list (Image pil)) * GeneratorState torch)
    (request : ImageEditRequest)
    (w : World (GeneratorState torch) (PipelineCall torch pil)) (d : string) :
  fst (image_edit torch pil pipeline request w) = inl (HTTPException 400 d)
  <-> (images request = [] /\ d = "请至少提供一张图片"%string)
      \/ (images request <> [] /\ whitespace_only (prompt request)
          /\ d = "请输入提示词"%string)
      \/ (~ whitespace_only (prompt request)
          /\ exists pre bad e,
               first_undecodable pil (images request) pre bad e
               /\ d = names_image (List.length pre + 1) e).
Proof.
  split.
  - intros H.
    destruct (image_edit_cases pil request)
      as [ Hi | [ [Hne Hb] | [ [Hne [Hb [pre [bad [e Hf]]]]] | [Hne [Hb [pil_images Hd]]] ] ] ].
    + rewrite (image_edit_no_images torch pil pipeline request w Hi) in H.
      cbn [fst] in H. injection H as <-. left. now split.
    + rewrite (image_edit_blank torch pil pipeline request w Hne Hb) in H.
      cbn [fst] in H. injection H as <-. right. left.
      split; [ exact Hne | split; [ now apply Prompts.prompt_is_blank_iff | reflexivity ] ].
    + rewrite (image_edit_first_undecodable torch pil pipeline request pre bad e w Hb Hf)
        in H.
      cbn [fst] in H. injection H as <-. right. right. split.
      * intros Hw. apply Prompts.prompt_is_blank_iff in Hw. congruence.
      * now exists pre, bad, e.
    + destruct (image_edit_decoded torch pil pipeline request pil_images w Hne Hb Hd)
        as [_ [_ Hrun]].
      rewrite Hrun in H. cbv zeta in H. unfold failure in H.
      destruct (seeded torch (seed request)) as [ e' | g ];
        [ cbn [fst] in H; discriminate H | ].
      destruct (fst (pipeline (edit_inputs pil request pil_images) g)) as [ e' | output ];
        [ cbn [fst] in H; discriminate H | ].
      destruct (index output 0) as [ e' | output_image ];
        [ cbn [fst] in H; discriminate H | ].
      destruct (image_to_base64 pil output_image) as [ e' | output_base64 ];
        cbn [fst] in H; discriminate H.
  - intros [ [Hi ->] | [ [Hne [Hw ->]] | [Hnw [pre [bad [e [Hf ->]]]]] ] ].
    + now rewrite (image_edit_no_images torch pil pipeline request w Hi).
    + apply Prompts.prompt_is_blank_iff in Hw.
      now rewrite (image_edit_blank torch pil pipeline request w Hne Hw).
    + apply Prompts.prompt_not_blank in Hnw.
      now rewrite (image_edit_first_undecodable torch pil pipeline request pre bad e w
                     Hnw Hf).
Qed.

(** X8.  Two guards of [image_edit] never fire.  The guard that follows the
    loop over the images (no image could be processed) is unreachable,
    whatever the request, because the loop leaves with an exception at the
    first image that fails; and behind the route the guard on an empty
    image list is unreachable as well, because a body without images is
    answered with 422 before the handler runs.  So no response of the route
    carries either of the two details. *)
Theorem edit_guards_unreachable (torch : Torch) (pil : PIL)
    (pipeline :
       EditInputs pil -> GeneratorState torch -> res (list (Image pil)) * GeneratorState torch) :
  (forall request w sc d,
      fst (image_edit torch pil pipeline request w) = inl (HTTPException sc d) ->
      d <> NO_USABLE_IMAGE)
  /\ (forall b w sc d,
        fst (post_edits torch pil pipeline b w) = ErrorResponse sc (detail_message d) ->
        d <> NO_IMAGE /\ d <> NO_USABLE_IMAGE).
Proof.
  assert (Hd : forall request w sc d,
             fst (image_edit torch pil pipeline request w) = inl (HTTPException sc d) ->
             d <> NO_USABLE_IMAGE /\ (images request <> [] -> d <> NO_IMAGE)).
  { intros request w sc d H.
    destruct (image_edit_details torch pil pipeline request w sc d H)
      as [ [Hi ->] | [ -> | [ [k [e ->]] | [e [_ ->]] ] ] ].
    - split; [ discriminate | intros Hne; contradiction ].
    - split; [ discriminate | intros _; discriminate ].
    - unfold names_image. cbn [String.append].
      split; [ discriminate | intros _; discriminate ].
    - cbn [String.append]. split; [ discriminate | intros _; discriminate ]. }
  split.
  - intros request w sc d H. exact (proj1 (Hd request w sc d H)).
  - intros b w sc d H. rewrite post_edits_unfold in H.
    destruct (validate b) as [ errors | request ] eqn:Hv; [ discriminate H | ].
    destruct (RouteFacts.edit_validate_accepted b request Hv) as [[_ Hne] _].
    destruct (image_edit torch pil pipeline request w) as [ [ [ sc' d' | e ] | content ] w' ]
      eqn:Hrun; cbn [fst] in H.
    + injection H as -> ->.
      assert (Hrun' : fst (image_edit torch pil pipeline request w)
                      = inl (HTTPException sc d)) by now rewrite Hrun.
      destruct (Hd request w sc d Hrun') as [H1 H2]. split; [ now apply H2 | exact H1 ].
    + injection H as _ <-. split; discriminate.
    + discriminate H.
Qed.

(** In the demonstration instance a request with a blank prompt is
    answered with the detail of the prompt guard, which is neither of the
    two. *)
Lemma edit_guards_unreachable_witness :
  "请输入提示词"%string <> NO_IMAGE /\ "请输入提示词"%string <> NO_USABLE_IMAGE.
Proof.
  apply (proj2 (edit_guards_unreachable Demo.torch Demo.pil Demo.edit_pipeline)
           {| body_images := Some [lit "iVBORw0K"]; body_prompt := Some (lit " ");
              body_negative_prompt := None; body_num_inference_steps := None;
              body_guidance_scale := None; body_true_cfg_scale := None;
              body_seed := None |} Demo.world0 400).
  vm_compute. reflexivity.
Defined.

(** X9.  The editing route answers 422 exactly for the bodies that violate a
    declared constraint: images or prompt missing or empty, or a number
    of steps, a guidance scale or a true CFG scale given outside its range.
    Such a body is answered with the list of violations, which is not
    empty, and the process is left as it was. *)
Theorem edit_422_iff_violation (torch : Torch) (pil : PIL)
    (pipeline :
       EditInputs pil -> GeneratorState torch -> res (list (Image pil)) * GeneratorState torch)
    (b : Body) (w : World (GeneratorState torch) (PipelineCall torch pil)) :
  (status_code_of (fst (post_edits torch pil pipeline b w)) = 422 <-> edit_violation b)
  /\ (edit_violation b ->
      exists errors,
        errors <> []
        /\ post_edits torch pil pipeline b w = (ErrorResponse 422 (detail_errors errors), w)).
Proof.
  rewrite post_edits_unfold.
  destruct (RouteFacts.edit_validate_cases b)
    as [ [errors [Hv [Hne Hviol]]] | [request [Hv Hok]] ]; rewrite Hv.
  - split; [ split; [ intros _; exact Hviol | reflexivity ] | ].
    intros _. exists errors. now split.
  - split; [ split; [ | intros H; contradiction ] | intros H; contradiction ].
    destruct (image_edit_outcome torch pil pipeline request)
      as [outcome [g' [calls [Hrun [Hout _]]]]].
    rewrite Hrun.
    destruct Hout as [ [content ->] | [ [d ->] | [e ->] ] ]; cbn; intros H; discriminate H.
Qed.

Section Route.

Variable torch : Torch.
Variable pil : PIL.
Variable pipeline :
  EditInputs pil -> GeneratorState torch -> res (list (Image pil)) * GeneratorState torch.

Local Notation "'W'" := (World (GeneratorState torch) (PipelineCall torch pil)).

(** The four ways through the route: the body is refused; the handler
    raises a 400; torch refuses the seed; the pipeline is called, and the
    response is the content or a 500. *)
Lemma post_edits_cases (b : Body) (w : W) :
  (exists errors,
      errors <> [] /\ edit_violation b
      /\ post_edits torch pil pipeline b w = (ErrorResponse 422 (detail_errors errors), w))
  \/ (exists d,
        post_edits torch pil pipeline b w = (ErrorResponse 400 (detail_message d), w))
  \/ (exists request e,
        validate b = inr request
        /\ seeded torch (seed request) = inl e
        /\ post_edits torch pil pipeline b w
           = (ErrorResponse 500
                (detail_message ("推理出错: " ++ str_of_exn (Raised e))), w))
  \/ (exists request pil_images g,
        validate b = inr request
        /\ prompt_is_blank (prompt request) = false
        /\ decoded pil (images request) pil_images
        /\ seeded torch (seed request) = inr g
        /\ snd (post_edits torch pil pipeline b w)
           = after_call w (snd (pipeline (edit_inputs pil request pil_images) g))
               {| call_inputs := edit_inputs pil request pil_images; call_generator := g |}
        /\ ((exists e,
               fst (post_edits torch pil pipeline b w)
               = ErrorResponse 500
                   (detail_message ("推理出错: " ++ str_of_exn (Raised e))))
            \/ (exists output_image rest png,
                  fst (pipeline (edit_inputs pil request pil_images) g)
                  = inr (output_image :: rest)
                  /\ Image_save_png pil output_image = inr png
                  /\ fst (post_edits torch pil pipeline b w)
                     = JSONResponse
                         {| status := "success";
                            message := "推理完成！已处理 "
                                       ++ show_nat (List.length (images request))
                                       ++ " 张输入图片";
                            result :=
                              {| image := lit "data:image/png;base64," ++ b64encode png;
                                 input_count := List.length (images request) |} |}))).
Proof.
  pose proof (post_edits_unfold torch pil pipeline b w) as Hpost.
  destruct (RouteFacts.edit_validate_cases b)
    as [ [errors [Hv [Hne Hviol]]] | [request [Hv Hok]] ]; rewrite Hv in Hpost.
  { left. exists errors. now repeat split. }
  right.
  destruct (RouteFacts.edit_validate_accepted b request Hv) as [[_ Hi] _].
  destruct (image_edit_cases pil request)
    as [ Hnil | [ [_ Hb] | [ [_ [Hb [pre [bad [e Hf]]]]] | [_ [Hb [pil_images Hd]]] ] ] ].
  - contradiction.
  - rewrite (image_edit_blank torch pil pipeline request w Hi Hb) in Hpost.
    left. eexists. exact Hpost.
  - rewrite (image_edit_first_undecodable torch pil pipeline request pre bad e w Hb Hf)
      in Hpost.
    left. eexists. exact Hpost.
  - right.
    destruct (image_edit_decoded torch pil pipeline request pil_images w Hi Hb Hd)
      as [_ [Hlen Hrun]].
    rewrite Hrun in Hpost. rewrite Hlen in Hpost. unfold failure in Hpost.
    destruct (seeded torch (seed request)) as [ e | g ] eqn:Hseed.
    { left. exists request, e. cbv beta iota zeta in Hpost. now repeat split. }
    right. exists request, pil_images, g.
    do 4 (split; [ first [ assumption | reflexivity ] | ]).
    cbv zeta in Hpost.
    destruct (fst (pipeline (edit_inputs pil request pil_images) g)) as [ e | output ]
      eqn:Hout.
    { cbv beta iota in Hpost. rewrite Hpost. split; [ reflexivity | left; now exists e ]. }
    destruct output as [ | output_image rest ].
    { cbv beta iota delta [index nth_error] in Hpost. rewrite Hpost.
      split; [ reflexivity | left; now eexists ]. }
    change (index (output_image :: rest) 0) with (@inr error _ output_image) in Hpost.
    cbv beta iota in Hpost. unfold image_to_base64 in Hpost.
    destruct (Image_save_png pil output_image) as [ e | png ] eqn:Hpng.
    { cbv beta iota delta [and_then] in Hpost. rewrite Hpost.
      split; [ reflexivity | left; now exists e ]. }
    cbv beta iota delta [and_then] in Hpost. rewrite Hpost.
    split; [ reflexivity | right ]. exists output_image, rest, png. now repeat split.
Qed.

End Route.

(** X10.  What a successful edit has done.  When the route answers with
    content, the body passed validation, every image of the request
    decoded, torch accepted the seed, and the pipeline was called exactly
    once, with the decoded images in the order of the request, from the
    generator state that the seed gives, and returned at least one image;
    the response reports status [success], counts as many input images
    as the request holds, and its image is the PNG data URI of the first
    image that the pipeline returned. *)
Theorem edit_success_shape (torch : Torch) (pil : PIL)
    (pipeline :
       EditInputs pil -> GeneratorState torch -> res (list (Image pil)) * GeneratorState torch)
    (b : Body) (w : World (GeneratorState torch) (PipelineCall torch pil))
    (content : EditContent)
    (Hok : fst (post_edits torch pil pipeline b w) = JSONResponse content) :
  exists request pil_images g output_image rest png,
    validate b = inr request
    /\ decoded pil (images request) pil_images
    /\ seeded torch (seed request) = inr g
    /\ fst (pipeline (edit_inputs pil request pil_images) g) = inr (output_image :: rest)
    /\ Image_save_png pil output_image = inr png
    /\ status content = "success"%string
    /\ image (result content) = lit "data:image/png;base64," ++ b64encode png
    /\ input_count (result content) = List.length (images request)
    /\ snd (post_edits torch pil pipeline b w)
       = after_call w (snd (pipeline (edit_inputs pil request pil_images) g))
           {| call_inputs := edit_inputs pil request pil_images; call_generator := g |}.
Proof.
  destruct (post_edits_cases torch pil pipeline b w)
    as [ [errors [_ [_ H]]] | [ [d H] | [ [request [e [_ [_ H]]]]
       | [request [pil_images [g [Hv [_ [Hd [Hseed [Hw Hresp]]]]]]]] ] ] ].
  - rewrite H in Hok. discriminate Hok.
  - rewrite H in Hok. discriminate Hok.
  - rewrite H in Hok. discriminate Hok.
  - destruct Hresp as [ [e H] | [output_image [rest [png [Hout [Hpng H]]]]] ];
      rewrite H in Hok; [ discriminate Hok | ].
    injection Hok as <-.
    exists request, pil_images, g, output_image, rest, png. now repeat split.
Qed.

(** In the demonstration instance, a request with one image is answered
    with that image and an input count of one. *)
Lemma edit_success_shape_witness :
  exists request pil_images g output_image rest png,
    validate {| body_images := Some [lit "data:image/png;base64,iVBORw0K"];
                body_prompt := Some (lit "make it red");
                body_negative_prompt := None; body_num_inference_steps := None;
                body_guidance_scale := None; body_true_cfg_scale := None;
                body_seed := Some 7 |} = inr request
    /\ decoded Demo.pil (images request) pil_images
    /\ seeded Demo.torch (seed request) = inr g
    /\ fst (Demo.edit_pipeline (edit_inputs Demo.pil request pil_images) g)
       = inr (output_image :: rest)
    /\ Image_save_png Demo.pil output_image = inr png
    /\ "success"%string = "success"%string
    /\ lit "data:image/png;base64,iVBORw0K" = lit "data:image/png;base64," ++ b64encode png
    /\ 1%nat = List.length (images request)
    /\ snd (post_edits Demo.torch Demo.pil Demo.edit_pipeline
              {| body_images := Some [lit "data:image/png;base64,iVBORw0K"];
                 body_prompt := Some (lit "make it red");
                 body_negative_prompt := None; body_num_inference_steps := None;
                 body_guidance_scale := None; body_true_cfg_scale := None;
                 body_seed := Some 7 |} Demo.world0)
       = after_call Demo.world0
           (snd (Demo.edit_pipeline (edit_inputs Demo.pil request pil_images) g))
           {| call_inputs := edit_inputs Demo.pil request pil_images;
              call_generator := g |}.
Proof.
  apply (edit_success_shape Demo.torch Demo.pil Demo.edit_pipeline
           {| body_images := Some [lit "data:image/png;base64,iVBORw0K"];
              body_prompt := Some (lit "make it red");
              body_negative_prompt := None; body_num_inference_steps := None;
              body_guidance_scale := None; body_true_cfg_scale := None;
              body_seed := Some 7 |} Demo.world0
           {| status := "success";
              message := "推理完成！已处理 1 张输入图片";
              result := {| image := lit "data:image/png;base64,iVBORw0K";
                           input_count := 1 |} |}).
  vm_compute. reflexivity.
Defined.

Section Calls.

Variable torch : Torch.
Variable pil : PIL.
Variable pipeline :
  EditInputs pil -> GeneratorState torch -> res (list (Image pil)) * GeneratorState torch.

(** The calls the route makes to the pipeline. *)
Lemma post_edits_calls (b : Body)
    (w : World (GeneratorState torch) (PipelineCall torch pil)) :
  exists calls,
    pipeline_calls (snd (post_edits torch pil pipeline b w)) = pipeline_calls w ++ calls
    /\ (calls = []
        \/ exists request pil_images g,
             validate b = inr request
             /\ prompt_is_blank (prompt request) = false
             /\ decoded pil (images request) pil_images
             /\ seeded torch (seed request) = inr g
             /\ calls = [ {| call_inputs := edit_inputs pil request pil_images;
                             call_generator := g |} ]).
Proof.
  destruct (post_edits_cases torch pil pipeline b w)
    as [ [errors [_ [_ H]]] | [ [d H] | [ [request [e [_ [_ H]]]]
       | [request [pil_images [g [Hv [Hb [Hd [Hseed [Hw _]]]]]]]] ] ] ].
  - exists []. rewrite H, app_nil_r. now split; [ | left ].
  - exists []. rewrite H, app_nil_r. now split; [ | left ].
  - exists []. rewrite H, app_nil_r. now split; [ | left ].
  - eexists. rewrite Hw. split; [ reflexivity | right ].
    now exists request, pil_images, g.
Qed.

End Calls.

(** X11.  Whatever the body, the editing route calls the pipeline at most
    once, and what it passes lies within the declared constraints: the
    images are those of the body, all decoded, in order, and there is at
    least one; the prompt is that of the body and is not blank; the negative
    prompt is not empty; the number of steps is between 10 and 100 and the
    two scales are between 0 and 10, also when the body leaves them out;
    one output image is asked for; and the default generator is in the
    state that the seed of the body, or the seed 0 for a body without one,
    gives. *)
Theorem edit_engine_inputs_in_range (torch : Torch) (pil : PIL)
    (pipeline :
       EditInputs pil -> GeneratorState torch -> res (list (Image pil)) * GeneratorState torch)
    (b : Body) (w : World (GeneratorState torch) (PipelineCall torch pil)) :
  exists calls,
    pipeline_calls (snd (post_edits torch pil pipeline b w)) = pipeline_calls w ++ calls
    /\ (List.length calls <= 1)%nat
    /\ Forall (fun call =>
                 inputs_in_range (call_inputs torch pil call)
                 /\ (exists items,
                        body_images b = Some items
                        /\ decoded pil items (in_image pil (call_inputs torch pil call)))
                 /\ inputs_of_body b (call_inputs torch pil call)
                 /\ seeded torch (Field_default 0 (body_seed b))
                    = inr (call_generator torch pil call))
              calls.
Proof.
  destruct (post_edits_calls torch pil pipeline b w)
    as [calls [Hcalls [ -> | [request [pil_images [g [Hv [Hb [Hd [Hseed ->]]]]]]] ]]];
    eexists; (split; [ exact Hcalls | ]).
  - split; [ cbn; lia | constructor ].
  - split; [ cbn; lia | ]. constructor; [ | constructor ].
    destruct (RouteFacts.edit_validate_accepted b request Hv)
      as [[Hbi Hi] [[Hbp _] [Hnp [[Hn' Hn] [[Hg' Hg] [[Ht' Ht] Hs]]]]]].
    cbn [call_inputs call_generator]. unfold inputs_in_range, inputs_of_body, edit_inputs.
    cbn [in_image in_prompt in_negative_prompt in_num_inference_steps in_guidance_scale
         in_true_cfg_scale in_num_images_per_prompt].
    split; [ | split; [ | split ] ].
    + split; [ | split; [ | split; [ | repeat split; try tauto ] ] ].
      * intros ->. inversion Hd as [ Hnil | ]. now rewrite <- Hnil in Hi.
      * intros Hw. apply Prompts.prompt_is_blank_iff in Hw. congruence.
      * destruct (negative_prompt request) as [ [ | c s ] | ]; discriminate.
    + now exists (images request).
    + rewrite <- Hnp. tauto.
    + now rewrite <- Hs.
Qed.

(** X12.  The editing route hands the pipeline RGB images only, provided that
    PIL's conversion to RGB returns an image in RGB mode: each image is
    passed as decoded when it is in RGB mode and converted otherwise. *)
Theorem edit_images_are_RGB (torch : Torch) (pil : PIL)
    (pipeline :
       EditInputs pil -> GeneratorState torch -> res (list (Image pil)) * GeneratorState torch)
    (Hconvert : forall image converted,
        Image_convert_RGB pil image = inr converted -> mode_is_RGB pil converted = true)
    (b : Body) (w : World (GeneratorState torch) (PipelineCall torch pil)) :
  exists calls,
    pipeline_calls (snd (post_edits torch pil pipeline b w)) = pipeline_calls w ++ calls
    /\ Forall (fun call =>
                 Forall (fun image => mode_is_RGB pil image = true)
                        (in_image pil (call_inputs torch pil call)))
              calls.
Proof.
  assert (Hmodes : forall items pil_images,
             decoded pil items pil_images ->
             Forall (fun image => mode_is_RGB pil image = true) pil_images).
  { intros items pil_images Hd.
    induction Hd as [ | s image items images Hs _ IH ]; constructor; [ | exact IH ].
    unfold decode_RGB in Hs.
    destruct (base64_to_image pil s) as [ e | pil_image ]; cbn [and_then] in Hs;
      [ discriminate Hs | ].
    destruct (mode_is_RGB pil pil_image) eqn:Hmode.
    - injection Hs as <-. exact Hmode.
    - exact (Hconvert pil_image image Hs). }
  destruct (post_edits_calls torch pil pipeline b w)
    as [calls [Hcalls [ -> | [request [pil_images [g [Hv [Hb [Hd [Hseed ->]]]]]]] ]]];
    eexists; (split; [ exact Hcalls | ]).
  - constructor.
  - constructor; [ | constructor ].
    cbn [call_inputs edit_inputs in_image]. exact (Hmodes _ _ Hd).
Qed.

(** With a PIL that opens every file in palette mode, the image of the
    request reaches the pipeline converted. *)
Lemma edit_images_are_RGB_witness :
  exists calls,
    pipeline_calls
      (snd (post_edits Demo.torch DemoMore.pil_modes DemoMore.edit_pipeline_modes
              {| body_images := Some [lit "iVBORw0K"];
                 body_prompt := Some (lit "make it red");
                 body_negative_prompt := None; body_num_inference_steps := None;
                 body_guidance_scale := None; body_true_cfg_scale := None;
                 body_seed := None |} Demo.world0))
    = pipeline_calls (@Demo.world0 (PipelineCall Demo.torch DemoMore.pil_modes)) ++ calls
    /\ Forall (fun call =>
                 Forall (fun image => mode_is_RGB DemoMore.pil_modes image = true)
                        (in_image DemoMore.pil_modes
                           (call_inputs Demo.torch DemoMore.pil_modes call)))
              calls.
Proof.
  apply (edit_images_are_RGB Demo.torch DemoMore.pil_modes DemoMore.edit_pipeline_modes).
  intros image converted H. cbn in H. injection H as <-. reflexivity.
Defined.

End EditRoute.

(** ** The generation route *)

Module GenerationRoute.

Import FastAPI Flux Terms RouteTerms FluxFacts.
Local Open Scope Z_scope.

Section Route.

Variable torch : Torch.
Variable pil : PIL.
Variable pipeline : PipelineArgs torch -> res (list (Image pil)).

Local Notation "'W'" := (World (GeneratorState torch) (PipelineArgs torch)).

(** The four ways through the route: the body is refused; the prompt is
    blank; torch refuses the seed; the pipeline is called, and the
    response is the content or a 500. *)
Lemma post_generations_cases (b : Body) (w : W) :
  (exists errors,
      errors <> [] /\ validate b = inl errors
      /\ post_generations torch pil pipeline b w
         = (ErrorResponse 422 (detail_errors errors), w))
  \/ (exists request,
        validate b = inr request
        /\ prompt_is_blank (prompt request) = true
        /\ post_generations torch pil pipeline b w
           = (ErrorResponse 400 (detail_message "请输入提示词"), w))
  \/ (exists request e,
        validate b = inr request
        /\ prompt_is_blank (prompt request) = false
        /\ seeded torch (seed request) = inl e
        /\ post_generations torch pil pipeline b w
           = (ErrorResponse 500
                (detail_message ("推理出错: " ++ str_of_exn (Raised e))), w))
  \/ (exists request g reads,
        validate b = inr request
        /\ prompt_is_blank (prompt request) = false
        /\ seeded torch (seed request) = inr g
        /\ snd (post_generations torch pil pipeline b w)
           = advance w reads [generation_args torch request g]
        /\ ((exists e,
               (pipeline (generation_args torch request g) = inl e
                \/ (pipeline (generation_args torch request g) = inr []
                    /\ e = Exception "IndexError" "list index out of range"
                    /\ reads = 1%nat)
                \/ exists output_image rest,
                     pipeline (generation_args torch request g)
                     = inr (output_image :: rest)
                     /\ Image_save_png pil output_image = inl e)
               /\ fst (post_generations torch pil pipeline b w)
                  = ErrorResponse 500
                      (detail_message ("推理出错: " ++ str_of_exn (Raised e))))
            \/ (exists output_image rest png content,
                  pipeline (generation_args torch request g)
                  = inr (output_image :: rest)
                  /\ Image_save_png pil output_image = inr png
                  /\ fst (post_generations torch pil pipeline b w) = JSONResponse content
                  /\ status content = "success"%string
                  /\ image (result content)
                     = lit "data:image/png;base64," ++ b64encode png))).
Proof.
  pose proof (post_generations_unfold torch pil pipeline b w) as Hpost.
  destruct (validate_cases b)
    as [ [errors [Hv [Hne _]]] | [request [Hv _]] ]; rewrite Hv in Hpost.
  { left. exists errors. now repeat split. }
  right.
  destruct (prompt_is_blank (prompt request)) eqn:Hb.
  { rewrite (image_generation_blank torch pil pipeline request w Hb) in Hpost.
    left. exists request. now repeat split. }
  right.
  rewrite (image_generation_run torch pil pipeline request w Hb) in Hpost.
  unfold failure in Hpost.
  destruct (seeded torch (seed request)) as [ e | g ] eqn:Hseed.
  { left. exists request, e. cbv beta iota in Hpost. now repeat split. }
  right.
  destruct (pipeline (generation_args torch request g)) as [ e | output ] eqn:Hout.
  { cbv beta iota in Hpost. exists request, g, 1%nat. rewrite Hpost.
    do 4 (split; [ first [ assumption | reflexivity ] | ]).
    left. exists e. split; [ now left | reflexivity ]. }
  destruct output as [ | output_image rest ].
  { cbv beta iota delta [index nth_error] in Hpost. exists request, g, 1%nat. rewrite Hpost.
    do 4 (split; [ first [ assumption | reflexivity ] | ]).
    left. eexists. split; [ right; left; now repeat split | reflexivity ]. }
  change (index (output_image :: rest) 0) with (@inr error _ output_image) in Hpost.
  cbv beta iota in Hpost. unfold image_to_base64 in Hpost.
  destruct (Image_save_png pil output_image) as [ e | png ] eqn:Hpng.
  { cbv beta iota delta [and_then] in Hpost. exists request, g, 3%nat. rewrite Hpost.
    do 4 (split; [ first [ assumption | reflexivity ] | ]).
    left. exists e. split; [ right; right; now exists output_image, rest | reflexivity ]. }
  cbv beta iota zeta delta [and_then] in Hpost. exists request, g, 4%nat. rewrite Hpost.
  do 4 (split; [ first [ assumption | reflexivity ] | ]).
  right. eexists output_image, rest, png, _. now repeat split.
Qed.

End Route.

(** X13.  The generation handler answers 400 exactly for the blank prompts
    (empty, or white space only, in the sense of [str.strip]), and then
    with the detail of the prompt guard; no failure of torch, of the
    pipeline or of the encoding is reported as a 400. *)
Theorem generation_400_iff_blank_prompt (torch : Torch) (pil : PIL)
    (pipeline : PipelineArgs torch -> res (list (Image pil)))
    (request : ImageGenerationRequest)
    (w : World (GeneratorState torch) (PipelineArgs torch)) (d : string) :
  fst (image_generation torch pil pipeline request w) = inl (HTTPException 400 d)
  <-> whitespace_only (prompt request) /\ d = "请输入提示词"%string.
Proof.
  split.
  - intros H. destruct (prompt_is_blank (prompt request)) eqn:Hb.
    + rewrite (image_generation_blank torch pil pipeline request w Hb) in H.
      cbn [fst] in H. injection H as <-.
      split; [ now apply Prompts.prompt_is_blank_iff | reflexivity ].
    + destruct (image_generation_outcome torch pil pipeline request w Hb)
        as [reads [calls [_ [[ [content Hc] | [e He] ] _]]]];
        rewrite H in *; [ discriminate Hc | unfold failure in He; discriminate He ].
  - intros [Hw ->]. apply Prompts.prompt_is_blank_iff in Hw.
    now rewrite (image_generation_blank torch pil pipeline request w Hw).
Qed.

(** X14.  Whatever the body, the generation route calls the pipeline at most
    once, and with arguments within the declared constraints: a prompt
    that is not blank, height and width between 256 and 2048, a guidance
    scale between 0 and 20, between 10 and 100 steps, a maximal sequence
    length between 128 and 1024.  Each argument is the field of the body,
    or the declared default when the body leaves the field out, and the
    generator is in the state that the seed of the body, or the seed 0,
    gives. *)
Theorem generation_engine_arguments_in_range (torch : Torch) (pil : PIL)
    (pipeline : PipelineArgs torch -> res (list (Image pil)))
    (b : Body) (w : World (GeneratorState torch) (PipelineArgs torch)) :
  exists calls,
    pipeline_calls (snd (post_generations torch pil pipeline b w))
    = pipeline_calls w ++ calls
    /\ (List.length calls <= 1)%nat
    /\ Forall (fun args => args_in_range args /\ args_of_body b args) calls.
Proof.
  destruct (post_generations_cases torch pil pipeline b w)
    as [ [errors [_ [_ H]]] | [ [request [_ [_ H]]] | [ [request [e [_ [_ [_ H]]]]]
       | [request [g [reads [Hv [Hb [Hseed [Hw _]]]]]]] ] ] ].
  - exists []. rewrite H, app_nil_r. split; [ reflexivity | split; [ cbn; lia | constructor ] ].
  - exists []. rewrite H, app_nil_r. split; [ reflexivity | split; [ cbn; lia | constructor ] ].
  - exists []. rewrite H, app_nil_r. split; [ reflexivity | split; [ cbn; lia | constructor ] ].
  - exists [generation_args torch request g]. rewrite Hw.
    split; [ reflexivity | split; [ cbn; lia | ] ].
    constructor; [ | constructor ].
    destruct (RouteFacts.generation_validate_accepted b request Hv)
      as [[Hp _] [[Hh Hh'] [[Hwd Hwd'] [[Hg Hg'] [[Hn Hn'] [[Hm Hm'] Hs]]]]]].
    unfold args_in_range, args_of_body, generation_args.
    cbn [arg_prompt arg_height arg_width arg_guidance_scale arg_num_inference_steps
         arg_max_sequence_length arg_generator].
    split.
    + split; [ | tauto ].
      intros Hblank. apply Prompts.prompt_is_blank_iff in Hblank. congruence.
    + rewrite <- Hs. tauto.
Qed.

(** X15.  What a successful generation has done.  When the route answers with
    content, the body passed validation with a prompt that is not blank,
    torch accepted the seed, and the pipeline was called exactly once,
    with a generator in the state that the seed gives, and returned at
    least one image; the response reports status [success], its image is
    the PNG data URI of the first image that the pipeline returned, the
    clock was read four times, and the default generator of the process
    is untouched. *)
Theorem generation_success_shape (torch : Torch) (pil : PIL)
    (pipeline : PipelineArgs torch -> res (list (Image pil)))
    (b : Body) (w : World (GeneratorState torch) (PipelineArgs torch))
    (content : GenerationContent)
    (Hok : fst (post_generations torch pil pipeline b w) = JSONResponse content) :
  exists request g output_image rest png,
    validate b = inr request
    /\ ~ whitespace_only (prompt request)
    /\ seeded torch (seed request) = inr g
    /\ pipeline (generation_args torch request g) = inr (output_image :: rest)
    /\ Image_save_png pil output_image = inr png
    /\ status content = "success"%string
    /\ image (result content) = lit "data:image/png;base64," ++ b64encode png
    /\ snd (post_generations torch pil pipeline b w)
       = advance w 4 [generation_args torch request g].
Proof.
  pose proof (post_generations_unfold torch pil pipeline b w) as Hpost.
  destruct (validate b) as [ errors | request ] eqn:Hv;
    [ rewrite Hpost in Hok; discriminate Hok | ].
  destruct (prompt_is_blank (prompt request)) eqn:Hb.
  { rewrite (image_generation_blank torch pil pipeline request w Hb) in Hpost.
    rewrite Hpost in Hok. discriminate Hok. }
  rewrite (image_generation_run torch pil pipeline request w Hb) in Hpost.
  unfold failure in Hpost.
  destruct (seeded torch (seed request)) as [ e | g ] eqn:Hseed;
    [ rewrite Hpost in Hok; discriminate Hok | ].
  destruct (pipeline (generation_args torch request g)) as [ e | [ | output_image rest ] ]
    eqn:Hout;
    [ rewrite Hpost in Hok; discriminate Hok | rewrite Hpost in Hok; discriminate Hok | ].
  change (index (output_image :: rest) 0) with (@inr error _ output_image) in Hpost.
  cbv beta iota in Hpost. unfold image_to_base64 in Hpost.
  destruct (Image_save_png pil output_image) as [ e | png ] eqn:Hpng;
    cbv beta iota zeta delta [and_then] in Hpost; rewrite Hpost in Hok;
    [ discriminate Hok | ].
  cbn [fst] in Hok. injection Hok as <-.
  exists request, g, output_image, rest, png. rewrite Hpost.
  split; [ reflexivity | ].
  split; [ intros Hw; apply Prompts.prompt_is_blank_iff in Hw; congruence | ].
  now repeat split.
Qed.

(** In the demonstration instance a body with a prompt only is answered
    with the sample image. *)
Lemma generation_success_shape_witness :
  exists request g output_image rest png,
    validate {| body_prompt := Some (lit "a cat"); body_height := None;
                body_width := None; body_guidance_scale := None;
                body_num_inference_steps := None; body_max_sequence_length := None;
                body_seed := None |} = inr request
    /\ ~ whitespace_only (prompt request)
    /\ seeded Demo.torch (seed request) = inr g
    /\ Demo.flux_pipeline (generation_args Demo.torch request g)
       = inr (output_image :: rest)
    /\ Image_save_png Demo.pil output_image = inr png
    /\ "success"%string = "success"%string
    /\ lit "data:image/png;base64,iVBORw0K" = lit "data:image/png;base64," ++ b64encode png
    /\ snd (post_generations Demo.torch Demo.pil Demo.flux_pipeline
              {| body_prompt := Some (lit "a cat"); body_height := None;
                 body_width := None; body_guidance_scale := None;
                 body_num_inference_steps := None; body_max_sequence_length := None;
                 body_seed := None |} Demo.world0)
       = advance Demo.world0 4 [generation_args Demo.torch request g].
Proof.
  apply (generation_success_shape Demo.torch Demo.pil Demo.flux_pipeline
           {| body_prompt := Some (lit "a cat"); body_height := None;
              body_width := None; body_guidance_scale := None;
              body_num_inference_steps := None; body_max_sequence_length := None;
              body_seed := None |} Demo.world0
           {| status := "success";
              message := "推理完成！";
              result := {| image := lit "data:image/png;base64,iVBORw0K";
                           inference_time_seconds := 100 # 100;
                           encoding_time_seconds := 100 # 100;
                           total_time_seconds := 200 # 100 |} |}).
  vm_compute. reflexivity.
Defined.

End GenerationRoute.

(** ** The adapters side by side *)

Module Adapters.

Import FastAPI Terms RouteTerms.
Local Open Scope Z_scope.

(** X16.  The two routes leave no trace of a request they answer with a client
    error: whenever the status of the response is a 4xx, the process is
    as it was before the request (no generator seeded, no reading of the
    clock, no call of the pipeline). *)
Theorem client_errors_leave_no_trace (torch : Torch) (pil : PIL)
    (flux_pipeline : Flux.PipelineArgs torch -> res (list (Image pil)))
    (edit_pipeline :
       QwenEdit.EditInputs pil -> GeneratorState torch
       -> res (list (Image pil)) * GeneratorState torch) :
  (forall b w,
      400 <= status_code_of (fst (Flux.post_generations torch pil flux_pipeline b w)) < 500 ->
      snd (Flux.post_generations torch pil flux_pipeline b w) = w)
  /\ (forall b w,
        400 <= status_code_of (fst (QwenEdit.post_edits torch pil edit_pipeline b w)) < 500 ->
        snd (QwenEdit.post_edits torch pil edit_pipeline b w) = w).
Proof.
  split; intros b w Hsc.
  - destruct (GenerationRoute.post_generations_cases torch pil flux_pipeline b w)
      as [ [errors [_ [_ H]]] | [ [request [_ [_ H]]] | [ [request [e [_ [_ [_ H]]]]]
         | [request [g [reads [_ [_ [_ [_ Hresp]]]]]]] ] ] ];
      try (now rewrite H).
    destruct Hresp as [ [e [_ H]] | [output_image [rest [png [content [_ [_ [H _]]]]]]] ];
      rewrite H in Hsc; cbn [status_code_of] in Hsc; lia.
  - destruct (EditRoute.post_edits_cases torch pil edit_pipeline b w)
      as [ [errors [_ [_ H]]] | [ [d H] | [ [request [e [_ [_ H]]]]
         | [request [pil_images [g [_ [_ [_ [_ [_ Hresp]]]]]]]] ] ] ];
      try (now rewrite H).
    destruct Hresp as [ [e H] | [output_image [rest [png [_ [_ H]]]]] ];
      rewrite H in Hsc; cbn [status_code_of] in Hsc; lia.
Qed.

(** In the demonstration instance, a body with a height of 100 is
    answered with a 422, and the process is as before. *)
Lemma client_errors_leave_no_trace_witness :
  snd (Flux.post_generations Demo.torch Demo.pil Demo.flux_pipeline
         {| Flux.body_prompt := Some (lit "a cat"); Flux.body_height := Some 100;
            Flux.body_width := None; Flux.body_guidance_scale := None;
            Flux.body_num_inference_steps := None;
            Flux.body_max_sequence_length := None; Flux.body_seed := None |}
         Demo.world0)
  = Demo.world0.
Proof.
  apply (proj1 (client_errors_leave_no_trace Demo.torch Demo.pil Demo.flux_pipeline
                  Demo.edit_pipeline)).
  vm_compute. split; [ discriminate | reflexivity ].
Defined.

Lemma int_of_float_inject_Z (n : Z) : int_of_float (inject_Z n) = n.
Proof. unfold int_of_float, inject_Z. cbn. apply Z.quot_1_r. Qed.

Lemma ui_args_of_request (torch : Torch) (r : Flux.ImageGenerationRequest)
    (g : GeneratorState torch) :
  ui_generation_args torch (Flux.prompt r) (Flux.height r) (Flux.width r)
    (Flux.guidance_scale r) (inject_Z (Flux.num_inference_steps r))
    (Flux.max_sequence_length r) g
  = generation_args torch r g.
Proof.
  unfold ui_generation_args, generation_args. now rewrite int_of_float_inject_Z.
Qed.

(** X17.  The UI and the API of the generation service are two faces of one
    computation.  Given the same parameters, from whatever states of the
    process, the callback of the UI and the handler of the API make the
    same calls of the pipeline (none, or one with the same arguments and
    the same generator state); when the callback returns an image, the
    handler returns the PNG data URI of that image, or reports the failure
    to write it as PNG; when the callback returns no image, the handler
    raises an [HTTPException]. *)
Theorem ui_and_api_generate_alike (torch : Torch) (pil : PIL)
    (pipeline : Flux.PipelineArgs torch -> res (list (Image pil)))
    (r : Flux.ImageGenerationRequest)
    (w w' : World (GeneratorState torch) (Flux.PipelineArgs torch)) :
  let api := Flux.image_generation torch pil pipeline r w in
  let ui := Flux.inference torch pil pipeline (Some (Flux.prompt r)) (Flux.height r)
              (Flux.width r) (Flux.guidance_scale r)
              (inject_Z (Flux.num_inference_steps r)) (Flux.max_sequence_length r)
              (Flux.seed r) w' in
  exists calls,
    pipeline_calls (snd api) = pipeline_calls w ++ calls
    /\ pipeline_calls (snd ui) = pipeline_calls w' ++ calls
    /\ match returned_image (fst ui) with
       | Some output_image =>
           match Image_save_png pil output_image with
           | inr png =>
               exists content,
                 fst api = inr content
                 /\ Flux.image (Flux.result content)
                    = lit "data:image/png;base64," ++ b64encode png
           | inl e => fst api = inl (failure e)
           end
       | None => exists sc d, fst api = inl (HTTPException sc d)
       end.
Proof.
  cbv zeta.
  destruct (prompt_is_blank (Flux.prompt r)) eqn:Hb.
  { rewrite (FluxFacts.image_generation_blank torch pil pipeline r w Hb).
    rewrite (Callbacks.flux_inference_blank torch pil pipeline (Some (Flux.prompt r))
               _ _ _ _ _ _ w' Hb).
    exists []. cbn [fst snd returned_image]. rewrite !app_nil_r.
    split; [ reflexivity | split; [ reflexivity | now eexists _, _ ] ]. }
  rewrite (FluxFacts.image_generation_run torch pil pipeline r w Hb).
  rewrite (Callbacks.flux_inference_run torch pil pipeline (Flux.prompt r)
             _ _ _ _ _ _ w' Hb).
  cbv zeta.
  destruct (seeded torch (Flux.seed r)) as [ e | g ].
  { exists []. cbn [fst snd returned_image]. rewrite !app_nil_r.
    split; [ reflexivity | split; [ reflexivity | now eexists _, _ ] ]. }
  rewrite ui_args_of_request.
  exists [generation_args torch r g].
  destruct (pipeline (generation_args torch r g)) as [ e | [ | output_image rest ] ].
  - cbn [fst snd returned_image advance pipeline_calls].
    split; [ reflexivity | split; [ reflexivity | now eexists _, _ ] ].
  - cbn [index nth_error fst snd returned_image advance pipeline_calls].
    split; [ reflexivity | split; [ reflexivity | now eexists _, _ ] ].
  - change (index (output_image :: rest) 0) with (@inr error _ output_image).
    cbv beta iota. cbn [fst returned_image]. unfold Flux.image_to_base64.
    destruct (Image_save_png pil output_image) as [ e | png ];
      cbn [and_then fst snd returned_image advance pipeline_calls];
      (split; [ reflexivity | split; [ reflexivity | ] ]);
      [ reflexivity | eexists; split; reflexivity ].
Qed.

(** X18.  A pipeline that returns an empty list of images is reported as a
    failed inference: for a valid request whose prompt is not blank and
    whose seed torch accepts, the route answers 500 with the message of
    Python's [IndexError], and the callback of the UI returns no image and
    the same message; the call is on record, and the clock was read once. *)
Theorem empty_output_is_reported (torch : Torch) (pil : PIL)
    (pipeline : Flux.PipelineArgs torch -> res (list (Image pil)))
    (b : Flux.Body) (request : Flux.ImageGenerationRequest) (g : GeneratorState torch)
    (w : World (GeneratorState torch) (Flux.PipelineArgs torch))
    (Hvalid : Flux.validate b = inr request)
    (Hprompt : prompt_is_blank (Flux.prompt request) = false)
    (Hseed : seeded torch (Flux.seed request) = inr g)
    (Hempty : pipeline (generation_args torch request g) = inr []) :
  Flux.post_generations torch pil pipeline b w
  = (ErrorResponse 500 (detail_message "推理出错: list index out of range"),
     advance w 1 [generation_args torch request g])
  /\ Flux.inference torch pil pipeline (Some (Flux.prompt request)) (Flux.height request)
       (Flux.width request) (Flux.guidance_scale request)
       (inject_Z (Flux.num_inference_steps request)) (Flux.max_sequence_length request)
       (Flux.seed request) w
     = (inr (None, "推理出错: list index out of range"%string),
        advance w 1 [generation_args torch request g]).
Proof.
  split.
  - rewrite FluxFacts.post_generations_unfold, Hvalid.
    rewrite (FluxFacts.image_generation_run torch pil pipeline request w Hprompt).
    rewrite Hseed, Hempty. reflexivity.
  - rewrite (Callbacks.flux_inference_run torch pil pipeline (Flux.prompt request)
               _ _ _ _ _ _ w Hprompt).
    rewrite Hseed. cbv zeta. rewrite ui_args_of_request, Hempty. reflexivity.
Qed.

Lemma empty_output_is_reported_witness :
  Flux.post_generations Demo.torch Demo.pil DemoMore.silent_pipeline
    {| Flux.body_prompt := Some (lit "a cat"); Flux.body_height := None;
       Flux.body_width := None; Flux.body_guidance_scale := None;
       Flux.body_num_inference_steps := None;
       Flux.body_max_sequence_length := None; Flux.body_seed := Some 7 |}
    Demo.world0
  = (ErrorResponse 500 (detail_message "推理出错: list index out of range"),
     advance Demo.world0 1
       [generation_args Demo.torch
          {| Flux.prompt := lit "a cat"; Flux.height := 1024; Flux.width := 1024;
             Flux.guidance_scale := 35 # 10; Flux.num_inference_steps := 50;
             Flux.max_sequence_length := 512; Flux.seed := 7 |} 7]).
Proof.
  refine (proj1 (empty_output_is_reported Demo.torch Demo.pil DemoMore.silent_pipeline
                   {| Flux.body_prompt := Some (lit "a cat"); Flux.body_height := None;
                      Flux.body_width := None; Flux.body_guidance_scale := None;
                      Flux.body_num_inference_steps := None;
                      Flux.body_max_sequence_length := None; Flux.body_seed := Some 7 |}
                   {| Flux.prompt := lit "a cat"; Flux.height := 1024; Flux.width := 1024;
                      Flux.guidance_scale := 35 # 10; Flux.num_inference_steps := 50;
                      Flux.max_sequence_length := 512; Flux.seed := 7 |}
                   (7 : GeneratorState Demo.torch) Demo.world0 _ _ _ _));
    reflexivity.
Defined.

(** X19.  A seed that torch refuses stops every adapter before the engine.
    With such a seed, neither route and neither callback calls the
    pipeline, reads the clock or changes the default generator: the
    process is left as it was.  A route answers with a client error when
    the body or the prompt, or in the editing service an image, is itself
    at fault, and otherwise with a 500 that carries the message of torch;
    a callback returns no image. *)
Theorem refused_seed_stops_before_engine (torch : Torch) (pil : PIL)
    (flux_pipeline : Flux.PipelineArgs torch -> res (list (Image pil)))
    (edit_pipeline :
       QwenEdit.EditInputs pil -> GeneratorState torch
       -> res (list (Image pil)) * GeneratorState torch)
    (seed : Z) (e : error)
    (Hseed : seeded torch seed = inl e) :
  (forall b w,
      Field_default 0 (Flux.body_seed b) = seed ->
      snd (Flux.post_generations torch pil flux_pipeline b w) = w
      /\ (400 <= status_code_of (fst (Flux.post_generations torch pil flux_pipeline b w))
          < 500
          \/ fst (Flux.post_generations torch pil flux_pipeline b w)
             = ErrorResponse 500 (detail_message (ui_failure e))))
  /\ (forall prompt height width guidance_scale num_inference_steps max_sequence_length w,
        snd (Flux.inference torch pil flux_pipeline prompt height width guidance_scale
               num_inference_steps max_sequence_length seed w) = w
        /\ exists msg,
             fst (Flux.inference torch pil flux_pipeline prompt height width
                    guidance_scale num_inference_steps max_sequence_length seed w)
             = inr (None, msg))
  /\ (forall b w,
        Field_default 0 (QwenEdit.body_seed b) = seed ->
        snd (QwenEdit.post_edits torch pil edit_pipeline b w) = w
        /\ (400 <= status_code_of (fst (QwenEdit.post_edits torch pil edit_pipeline b w))
            < 500
            \/ fst (QwenEdit.post_edits torch pil edit_pipeline b w)
               = ErrorResponse 500 (detail_message (ui_failure e))))
  /\ (forall files prompt negative_prompt num_inference_steps guidance_scale
        true_cfg_scale w,
        snd (QwenEdit.inference torch pil edit_pipeline files prompt negative_prompt
               num_inference_steps guidance_scale true_cfg_scale seed w) = w
        /\ exists msg,
             fst (QwenEdit.inference torch pil edit_pipeline files prompt negative_prompt
                    num_inference_steps guidance_scale true_cfg_scale seed w)
             = inr (None, msg)).
Proof.
  split; [ | split; [ | split ] ].
  - intros b w Hs.
    destruct (GenerationRoute.post_generations_cases torch pil flux_pipeline b w)
      as [ [errors [_ [_ H]]] | [ [request [_ [_ H]]] | [ [request [e' [Hv [_ [He H]]]]]
         | [request [g [reads [Hv [_ [Hg _]]]]]] ] ] ].
    + rewrite H. split; [ reflexivity | left; cbn; lia ].
    + rewrite H. split; [ reflexivity | left; cbn; lia ].
    + destruct (RouteFacts.generation_validate_accepted b request Hv)
        as [_ [_ [_ [_ [_ [_ Hs']]]]]].
      rewrite Hs', Hs, Hseed in He. injection He as <-.
      rewrite H. split; [ reflexivity | right; reflexivity ].
    + destruct (RouteFacts.generation_validate_accepted b request Hv)
        as [_ [_ [_ [_ [_ [_ Hs']]]]]].
      rewrite Hs', Hs, Hseed in Hg. discriminate Hg.
  - intros prompt height width guidance_scale num_inference_steps max_sequence_length w.
    destruct prompt as [ p | ].
    + destruct (prompt_is_blank p) eqn:Hb.
      * rewrite (Callbacks.flux_inference_blank torch pil flux_pipeline (Some p)
                   _ _ _ _ _ _ w Hb).
        split; [ reflexivity | now eexists ].
      * rewrite (Callbacks.flux_inference_run torch pil flux_pipeline p
                   _ _ _ _ _ _ w Hb), Hseed.
        split; [ reflexivity | now eexists ].
    + rewrite (Callbacks.flux_inference_blank torch pil flux_pipeline None
                 _ _ _ _ _ _ w I).
      split; [ reflexivity | now eexists ].
  - intros b w Hs.
    destruct (EditRoute.post_edits_cases torch pil edit_pipeline b w)
      as [ [errors [_ [_ H]]] | [ [d H] | [ [request [e' [Hv [He H]]]]
         | [request [pil_images [g [Hv [_ [_ [Hg _]]]]]]] ] ] ].
    + rewrite H. split; [ reflexivity | left; cbn; lia ].
    + rewrite H. split; [ reflexivity | left; cbn; lia ].
    + destruct (RouteFacts.edit_validate_accepted b request Hv)
        as [_ [_ [_ [_ [_ [_ Hs']]]]]].
      rewrite Hs', Hs, Hseed in He. injection He as <-.
      rewrite H. split; [ reflexivity | right; reflexivity ].
    + destruct (RouteFacts.edit_validate_accepted b request Hv)
        as [_ [_ [_ [_ [_ [_ Hs']]]]]].
      rewrite Hs', Hs, Hseed in Hg. discriminate Hg.
  - intros files prompt negative_prompt num_inference_steps guidance_scale
      true_cfg_scale w.
    destruct (uploads files) as [ | f rest ] eqn:Hu.
    { rewrite (QwenFacts.inference_no_files torch pil edit_pipeline files prompt
                 _ _ _ _ seed w Hu).
      split; [ reflexivity | now eexists ]. }
    assert (Hne : uploads files <> []) by (rewrite Hu; discriminate).
    destruct prompt as [ p | ].
    + destruct (prompt_is_blank p) eqn:Hb.
      * rewrite (QwenFacts.inference_blank torch pil edit_pipeline files (Some p)
                   _ _ _ _ seed w Hne Hb).
        split; [ reflexivity | now eexists ].
      * destruct (readable pil (uploads files)) as [ | image images ] eqn:Hr.
        { rewrite (QwenFacts.inference_unreadable torch pil edit_pipeline files p
                     _ _ _ _ seed w Hne Hb Hr).
          split; [ reflexivity | now eexists ]. }
        assert (Hr' : readable pil (uploads files) <> []) by (rewrite Hr; discriminate).
        rewrite (QwenFacts.inference_run torch pil edit_pipeline files p
                   _ _ _ _ seed w Hb Hr'), Hseed.
        split; [ reflexivity | now eexists ].
    + rewrite (QwenFacts.inference_blank torch pil edit_pipeline files None
                 _ _ _ _ seed w Hne I).
      split; [ reflexivity | now eexists ].
Qed.

(** The demonstration torch refuses the seed 2^64: a generation request
    with that seed is answered with a 500, and nothing has happened. *)
Lemma refused_seed_stops_before_engine_witness :
  snd (Flux.post_generations Demo.torch Demo.pil Demo.flux_pipeline
         {| Flux.body_prompt := Some (lit "a cat"); Flux.body_height := None;
            Flux.body_width := None; Flux.body_guidance_scale := None;
            Flux.body_num_inference_steps := None;
            Flux.body_max_sequence_length := None;
            Flux.body_seed := Some (2 ^ 64) |} Demo.world0)
  = Demo.world0
  /\ (400 <= status_code_of
               (fst (Flux.post_generations Demo.torch Demo.pil Demo.flux_pipeline
                       {| Flux.body_prompt := Some (lit "a cat"); Flux.body_height := None;
                          Flux.body_width := None; Flux.body_guidance_scale := None;
                          Flux.body_num_inference_steps := None;
                          Flux.body_max_sequence_length := None;
                          Flux.body_seed := Some (2 ^ 64) |} Demo.world0)) < 500
      \/ fst (Flux.post_generations Demo.torch Demo.pil Demo.flux_pipeline
                {| Flux.body_prompt := Some (lit "a cat"); Flux.body_height := None;
                   Flux.body_width := None; Flux.body_guidance_scale := None;
                   Flux.body_num_inference_steps := None;
                   Flux.body_max_sequence_length := None;
                   Flux.body_seed := Some (2 ^ 64) |} Demo.world0)
         = ErrorResponse 500
             (detail_message
                (ui_failure (Exception "RuntimeError" "Overflow when unpacking long")))).
Proof.
  apply (proj1 (refused_seed_stops_before_engine Demo.torch Demo.pil Demo.flux_pipeline
                  Demo.edit_pipeline (2 ^ 64)
                  (Exception "RuntimeError" "Overflow when unpacking long") eq_refl)).
  reflexivity.
Defined.

Lemma Field_int_or_else (name : string) (default lo hi : Z) (given : option Z) :
  lo <= default <= hi ->
  Field_int name default lo hi (Forms.or_else given default)
  = Field_int name default lo hi given.
Proof.
  intros H. destruct given as [ v | ]; [ reflexivity | ].
  apply FluxFacts.Field_int_in_range, H.
Qed.

Lemma Field_float_or_else (name : string) (default lo hi : Q) (given : option Q) :
  (lo <= default <= hi)%Q ->
  Field_float name default lo hi (Forms.or_else given default)
  = Field_float name default lo hi given.
Proof.
  intros [H1 H2]. destruct given as [ v | ]; [ reflexivity | ].
  now apply FluxFacts.Field_float_in_range.
Qed.

Lemma Field_default_or_else {A : Type} (default : A) (given : option A) :
  Field_default default (Forms.or_else given default) = Field_default default given.
Proof. now destruct given. Qed.

(** X20.  Leaving a field out of a body is the same as sending the value that
    the [clear] button of the UI puts into the form: the defaults that
    the request models declare are the values of the cleared forms, and
    they satisfy the constraints of their fields.  So a body and the body
    with its absent fields filled in from the cleared form are validated
    to the same request or the same errors, and are answered alike. *)
Theorem cleared_form_gives_api_defaults (torch : Torch) (pil : PIL)
    (flux_pipeline : Flux.PipelineArgs torch -> res (list (Image pil)))
    (edit_pipeline :
       QwenEdit.EditInputs pil -> GeneratorState torch
       -> res (list (Image pil)) * GeneratorState torch) :
  (forall b, Flux.validate (Forms.flux_filled b) = Flux.validate b)
  /\ (forall b w,
        Flux.post_generations torch pil flux_pipeline (Forms.flux_filled b) w
        = Flux.post_generations torch pil flux_pipeline b w)
  /\ (forall b, QwenEdit.validate (Forms.qwen_filled b) = QwenEdit.validate b)
  /\ (forall b w,
        QwenEdit.post_edits torch pil edit_pipeline (Forms.qwen_filled b) w
        = QwenEdit.post_edits torch pil edit_pipeline b w).
Proof.
  assert (Hflux : forall b, Flux.validate (Forms.flux_filled b) = Flux.validate b).
  { intros b. unfold Flux.validate, Forms.flux_filled, Forms.flux_clear.
    cbn [Flux.body_prompt Flux.body_height Flux.body_width Flux.body_guidance_scale
         Flux.body_num_inference_steps Flux.body_max_sequence_length Flux.body_seed].
    rewrite !Field_int_or_else, Field_float_or_else, Field_default_or_else
      by first [ lia | split; lra ].
    reflexivity. }
  assert (Hqwen : forall b, QwenEdit.validate (Forms.qwen_filled b) = QwenEdit.validate b).
  { intros b. unfold QwenEdit.validate, Forms.qwen_filled, Forms.qwen_clear.
    cbn [QwenEdit.body_images QwenEdit.body_prompt QwenEdit.body_negative_prompt
         QwenEdit.body_num_inference_steps QwenEdit.body_guidance_scale
         QwenEdit.body_true_cfg_scale QwenEdit.body_seed].
    rewrite Field_int_or_else, !Field_float_or_else, !Field_default_or_else
      by first [ lia | split; lra ].
    reflexivity. }
  split; [ exact Hflux | split; [ | split; [ exact Hqwen | ] ] ].
  - intros b w. rewrite !FluxFacts.post_generations_unfold. now rewrite Hflux.
  - intros b w. rewrite !QwenFacts.post_edits_unfold. now rewrite Hqwen.
Qed.

End Adapters.
